(** * Cross-chain bridge event listener: poll, deduplicate, relay

    A shallow embedding of [script.py]: the relay client
    ([TransactionRelayer.relay_transaction_data]), the deduplication store
    ([StateManager]), the per-event handler
    ([CrossChainEventListener._process_event]) and one iteration of the
    polling loop of [CrossChainEventListener.run].

    The program talks to two outside parties, the chain node and the relayer
    endpoint.  Their answers are given by a [World] of oracles, indexed by
    how many calls of each kind were made before; everything the program
    does to the outside (POSTs, sleeps, node queries, log lines) and to the
    deduplication set is appended to a trace carried in the state. *)

From Stdlib Require Import ZArith Ascii String DecimalString DecimalZ Strings.Byte.
From stdpp Require Import base decidable option list strings gmap.

Local Open Scope Z_scope.

(** ** Python values, dicts and exceptions *)

(** The values the modelled dicts hold: [str] and (unbounded) [int]. *)
Inductive PyVal :=
  | VStr (s : string)
  | VInt (z : Z).

Global Instance PyVal_eq_dec : EqDecision PyVal.
Proof. solve_decision. Defined.

(** A dict literal, in insertion order (the order the JSON body is written
    in). *)
Definition Dict := list (string * PyVal).

Fixpoint dict_find (d : Dict) (k : string) : option PyVal :=
  match d with
  | [] => None
  | (k', v) :: d' => if String.eqb k' k then Some v else dict_find d' k
  end.

Definition dict_keys (d : Dict) : list string := map fst d.

(** The exception classes that can reach the handlers of the modelled code.
    All of them derive from [Exception]. *)
Inductive exn :=
  | HTTPError (status_code : Z)   (* requests.exceptions.HTTPError *)
  | TransportError                (* requests ConnectionError, Timeout, ... *)
  | KeyError (key : string)
  | ConnectionError               (* the builtin, raised at line 103 *)
  | ValueError                    (* the builtin: time.sleep, web3, line 36 *)
  | OverflowError                 (* the builtin, raised by time.sleep *)
  | RpcError                      (* a failed node query *)
  | OtherError.                   (* any other subclass of Exception *)

(** [except requests.exceptions.RequestException]: [HTTPError] and the
    transport errors of requests derive from it, nothing else here does. *)
Definition is_RequestException (e : exn) : bool :=
  match e with
  | HTTPError _ | TransportError => true
  | _ => false
  end.

(** [except Exception]. *)
Definition is_Exception (e : exn) : bool := true.

Inductive Result (A : Type) :=
  | Ok (a : A)
  | Raise (e : exn).
Arguments Ok {A} a.
Arguments Raise {A} e.

(** ** Raw events *)

(** A decoded [TokensLocked] log entry.  web3 decodes the fields by the ABI
    ([bytes32], [uint256], [address]), so a present field has the right type;
    a key can be absent, and then subscripting raises [KeyError].  The ABI's
    [sender] is never read by the program and is left out. *)
Record EventArgs := {
  transactionId : option (list byte);
  destinationChainId : option Z;
  recipient : option string;
  amount : option Z
}.

Record RawEvent := {
  args : option EventArgs;
  transactionHash : option (list byte);
  blockNumber : option Z
}.

(** ** Rendering *)

Definition hex_digit (n : N) : ascii :=
  match n with
  | 0 => "0" | 1 => "1" | 2 => "2" | 3 => "3" | 4 => "4" | 5 => "5"
  | 6 => "6" | 7 => "7" | 8 => "8" | 9 => "9" | 10 => "a" | 11 => "b"
  | 12 => "c" | 13 => "d" | 14 => "e" | _ => "f"
  end%N%char.

(** [bytes.hex()]: two lowercase digits per byte. *)
Fixpoint hex (bs : list byte) : string :=
  match bs with
  | [] => EmptyString
  | b :: bs' =>
      let n := Byte.to_N b in
      String (hex_digit (n / 16)) (String (hex_digit (n mod 16)) (hex bs'))
  end.

(** [HexBytes.hex()], the type web3 gives a transaction hash: the digits of
    [bytes.hex()] after the prefix [0x].  The [bytes32] argument
    [transactionId] is decoded to plain [bytes] and rendered by [hex]. *)
Definition HexBytes_hex (bs : list byte) : string := "0x" +:+ hex bs.
Arguments HexBytes_hex : simpl never.

(** [str(n)] for an [int]: the decimal rendering, computed on the integer
    itself. *)
Definition str (n : Z) : string := NilZero.string_of_int (Z.to_int n).

(** [int(s)] on a decimal string, the inverse direction. *)
Definition int_of_str (s : string) : option Z :=
  option_map Z.of_int (NilZero.int_of_string s).

(** ** Effects and state *)

Inductive Level := DEBUG | INFO | WARNING | ERROR | CRITICAL.

(** One constructor per [logging] call of the modelled methods, carrying the
    values its f-string shows. *)
Inductive LogMsg :=
  | LConnected                                    (* line 104 *)
  | LConnectError                                 (* line 106 *)
  | LNotConnectedReturning0                       (* line 128 *)
  | LMarked (tx_id : string)                      (* line 150 *)
  | LRelaying (tx_id : PyVal)                     (* line 178 *)
  | LRelayed (tx_id : PyVal) (status_code : Z)    (* line 185 *)
  | LAttemptFailed (n max : Z) (tx_id : PyVal) (e : exn)   (* line 189 *)
  | LRelayFailed (tx_id : PyVal) (max : Z)        (* line 193 *)
  | LNewEvent (tx_hash tx_id : string)            (* line 232 *)
  | LAlreadyProcessed (tx_id : string)            (* line 235 *)
  | LProcessError (e : exn)                       (* line 253 *)
  | LConnectionLost                               (* line 272 *)
  | LNoNewBlocks (from_block to_block : Z)        (* line 279 *)
  | LFound (n : nat) (from_block to_block : Z)    (* line 290 *)
  | LMainLoopError (e : exn).                     (* line 298 *)

Inductive Effect :=
  | EPost (payload : Dict)              (* session.post(endpoint, json=payload) *)
  | ESleep (seconds : Z)                (* time.sleep *)
  | EConnect                            (* Web3(Web3.HTTPProvider(rpc_url)) *)
  | EIsConnected                        (* web3.is_connected() *)
  | EChainId                            (* web3.eth.chain_id *)
  | EBlockNumber                        (* web3.eth.block_number *)
  | EGetLogs (from_block to_block : Z)  (* create_filter + get_all_entries *)
  | EDedupLookup (tx_id : string)       (* tx_id in _processed_transaction_ids *)
  | EDedupAdd (tx_id : string)          (* _processed_transaction_ids.add *)
  | ELog (lvl : Level) (msg : LogMsg).

(** What [session.post] does: a response with a status code, or an
    exception. *)
Inductive PostOutcome :=
  | Responded (status_code : Z)
  | PostRaised (e : exn).

(** The outside world.  Each oracle takes the number of earlier calls of its
    kind, so an answer may change from call to call. *)
Record World := {
  http_post : nat → Dict → PostOutcome;
  node_is_connected : nat → bool;
  node_chain_id : nat → Result Z;
  node_block_number : nat → Result Z;
  node_get_logs : nat → Z → Z → Result (list RawEvent)
}.

Record Config := {
  POLLING_INTERVAL_SECONDS : Z;
  START_BLOCK_OFFSET : Z
}.

Record State := {
  processed_transaction_ids : gset string;   (* StateManager *)
  web3 : bool;                               (* connector.web3 is not None *)
  from_block : Z;                            (* the cursor, a local of run *)
  trace : list Effect;
  n_post : nat;
  n_is_connected : nat;
  n_chain_id : nat;
  n_block_number : nat;
  n_get_logs : nat
}.

Definition set_processed (f : gset string → gset string) (s : State) : State :=
  {| processed_transaction_ids := f (processed_transaction_ids s);
     web3 := web3 s; from_block := from_block s; trace := trace s;
     n_post := n_post s; n_is_connected := n_is_connected s;
     n_chain_id := n_chain_id s; n_block_number := n_block_number s;
     n_get_logs := n_get_logs s |}.

Definition set_web3 (b : bool) (s : State) : State :=
  {| processed_transaction_ids := processed_transaction_ids s;
     web3 := b; from_block := from_block s; trace := trace s;
     n_post := n_post s; n_is_connected := n_is_connected s;
     n_chain_id := n_chain_id s; n_block_number := n_block_number s;
     n_get_logs := n_get_logs s |}.

Definition set_from_block (z : Z) (s : State) : State :=
  {| processed_transaction_ids := processed_transaction_ids s;
     web3 := web3 s; from_block := z; trace := trace s;
     n_post := n_post s; n_is_connected := n_is_connected s;
     n_chain_id := n_chain_id s; n_block_number := n_block_number s;
     n_get_logs := n_get_logs s |}.

Definition add_trace (e : Effect) (s : State) : State :=
  {| processed_transaction_ids := processed_transaction_ids s;
     web3 := web3 s; from_block := from_block s; trace := trace s ++ [e];
     n_post := n_post s; n_is_connected := n_is_connected s;
     n_chain_id := n_chain_id s; n_block_number := n_block_number s;
     n_get_logs := n_get_logs s |}.

Definition tick_post (s : State) : State :=
  {| processed_transaction_ids := processed_transaction_ids s;
     web3 := web3 s; from_block := from_block s; trace := trace s;
     n_post := S (n_post s); n_is_connected := n_is_connected s;
     n_chain_id := n_chain_id s; n_block_number := n_block_number s;
     n_get_logs := n_get_logs s |}.

Definition tick_is_connected (s : State) : State :=
  {| processed_transaction_ids := processed_transaction_ids s;
     web3 := web3 s; from_block := from_block s; trace := trace s;
     n_post := n_post s; n_is_connected := S (n_is_connected s);
     n_chain_id := n_chain_id s; n_block_number := n_block_number s;
     n_get_logs := n_get_logs s |}.

Definition tick_chain_id (s : State) : State :=
  {| processed_transaction_ids := processed_transaction_ids s;
     web3 := web3 s; from_block := from_block s; trace := trace s;
     n_post := n_post s; n_is_connected := n_is_connected s;
     n_chain_id := S (n_chain_id s); n_block_number := n_block_number s;
     n_get_logs := n_get_logs s |}.

Definition tick_block_number (s : State) : State :=
  {| processed_transaction_ids := processed_transaction_ids s;
     web3 := web3 s; from_block := from_block s; trace := trace s;
     n_post := n_post s; n_is_connected := n_is_connected s;
     n_chain_id := n_chain_id s; n_block_number := S (n_block_number s);
     n_get_logs := n_get_logs s |}.

Definition tick_get_logs (s : State) : State :=
  {| processed_transaction_ids := processed_transaction_ids s;
     web3 := web3 s; from_block := from_block s; trace := trace s;
     n_post := n_post s; n_is_connected := n_is_connected s;
     n_chain_id := n_chain_id s; n_block_number := n_block_number s;
     n_get_logs := S (n_get_logs s) |}.

(** ** The monad: state, and exceptions that keep the state *)

Definition M (A : Type) : Type := State → State * Result A.

Definition ret {A} (a : A) : M A := λ s, (s, Ok a).

Definition bind {A B} (c : M A) (k : A → M B) : M B :=
  λ s, match c s with
       | (s', Ok a) => k a s'
       | (s', Raise e) => (s', Raise e)
       end.

Definition raise {A} (e : exn) : M A := λ s, (s, Raise e).

(** [try: c  except <class>: h]. *)
Definition try_except {A} (c : M A) (caught : exn → bool) (h : exn → M A) : M A :=
  λ s, match c s with
       | (s', Raise e) => if caught e then h e s' else (s', Raise e)
       | r => r
       end.

Global Instance M_ret : MRet M := @ret.
Global Instance M_bind : MBind M := λ A B k c, bind c k.

Definition gets {A} (f : State → A) : M A := λ s, (s, Ok (f s)).
Definition modify (f : State → State) : M unit := λ s, (f s, Ok tt).

Definition emit (e : Effect) : M unit := modify (add_trace e).
Definition log (lvl : Level) (msg : LogMsg) : M unit := emit (ELog lvl msg).

(** [time.sleep(seconds)] for an [int].  CPython first converts the length
    to nanoseconds in a signed 64-bit integer and raises [OverflowError] when
    it does not fit, then raises [ValueError] for a negative length, and
    sleeps otherwise. *)
Definition sleep_limit : Z := 9223372036.

Definition sleep_error (seconds : Z) : option exn :=
  if bool_decide (- sleep_limit ≤ seconds ≤ sleep_limit)
  then if bool_decide (seconds < 0) then Some ValueError else None
  else Some OverflowError.

Definition sleep (seconds : Z) : M unit :=
  match sleep_error seconds with
  | Some e => raise e
  | None => emit (ESleep seconds)
  end.

(** [d[k]]. *)
Definition getitem (d : Dict) (k : string) : M PyVal :=
  match dict_find d k with
  | Some v => ret v
  | None => raise (KeyError k)
  end.

(** Subscripting an event by a key that may be absent. *)
Definition field {A} (k : string) (o : option A) : M A :=
  match o with
  | Some a => ret a
  | None => raise (KeyError k)
  end.

(** ** StateManager *)

Definition is_processed (tx_id : string) : M bool :=
  emit (EDedupLookup tx_id);;
  gets (λ s, bool_decide (tx_id ∈ processed_transaction_ids s)).

Definition mark_as_processed (tx_id : string) : M unit :=
  modify (set_processed (λ ids, {[tx_id]} ∪ ids));;
  emit (EDedupAdd tx_id);;
  log DEBUG (LMarked tx_id).

(** ** TransactionRelayer *)

(** [Response.raise_for_status()] of the requests library: raises
    [HTTPError] for a client or server error status and returns otherwise
    (line 184: "Raises HTTPError for bad responses (4xx or 5xx)"). *)
Definition raise_for_status (status_code : Z) : M unit :=
  if bool_decide (400 ≤ status_code < 600)
  then raise (HTTPError status_code)
  else mret tt.

Definition max_retries : Z := 3.

Section Program.

Context (w : World) (cfg : Config).

(** [self.session.post(self.api_endpoint, json=payload, timeout=10)]; returns
    the response's status code. *)
Definition session_post (payload : Dict) : M Z :=
  emit (EPost payload);;
  n ← gets n_post;
  modify tick_post;;
  match http_post w n payload with
  | Responded status_code => mret status_code
  | PostRaised e => raise e
  end.

(** The [for attempt in range(max_retries)] loop, lines 181-195.  The body
    yields [Some b] where the source returns [b] and [None] where it goes on
    to the next attempt. *)
Fixpoint relay_attempts (payload : Dict) (tx_id : PyVal) (attempts : list Z)
  : M bool :=
  match attempts with
  | [] => mret false
  | attempt :: rest =>
      r ← try_except
            (status_code ← session_post payload;
             raise_for_status status_code;;
             log INFO (LRelayed tx_id status_code);;
             mret (Some true))
            is_RequestException
            (λ e,
               log WARNING (LAttemptFailed (attempt + 1) max_retries tx_id e);;
               if bool_decide (attempt < max_retries - 1)
               then sleep (2 ^ attempt);; mret None
               else log ERROR (LRelayFailed tx_id max_retries);;
                    mret (Some false));
      match r with
      | Some b => mret b
      | None => relay_attempts payload tx_id rest
      end
  end.

Definition relay_transaction_data (event_data : Dict) : M bool :=
  tx_id ← getitem event_data "transactionId";
  chain ← getitem event_data "destinationChainId";
  rcpt ← getitem event_data "recipient";
  amt ← getitem event_data "amount";
  tx_hash ← getitem event_data "transactionHash";
  let payload :=
    [("sourceTransactionId", tx_id);
     ("destinationChainId", chain);
     ("recipient", rcpt);
     ("amount", amt);
     ("sourceTransactionHash", tx_hash)] in
  log INFO (LRelaying tx_id);;
  relay_attempts payload tx_id (seqZ 0 max_retries).

(** ** CrossChainEventListener._process_event *)

(** The body of the [try], lines 231-250. *)
Definition process_event_body (event : RawEvent) : M unit :=
  a ← field "args" (args event);
  tx_id ← field "transactionId" (transactionId a);
  let tx_id_hex := hex tx_id in
  h ← field "transactionHash" (transactionHash event);
  log INFO (LNewEvent (HexBytes_hex h) tx_id_hex);;
  seen ← is_processed tx_id_hex;
  if (seen : bool) then log WARNING (LAlreadyProcessed tx_id_hex)
  else
    a1 ← field "args" (args event);
    chain ← field "destinationChainId" (destinationChainId a1);
    a2 ← field "args" (args event);
    rcpt ← field "recipient" (recipient a2);
    a3 ← field "args" (args event);
    amt ← field "amount" (amount a3);
    h' ← field "transactionHash" (transactionHash event);
    blk ← field "blockNumber" (blockNumber event);
    let event_data :=
      [("transactionId", VStr tx_id_hex);
       ("destinationChainId", VInt chain);
       ("recipient", VStr rcpt);
       ("amount", VStr (str amt));
       ("transactionHash", VStr (HexBytes_hex h'));
       ("blockNumber", VInt blk)] in
    ok ← relay_transaction_data event_data;
    if (ok : bool) then mark_as_processed tx_id_hex else mret tt.

Definition process_event (event : RawEvent) : M unit :=
  try_except (process_event_body event) is_Exception
    (λ e, log ERROR (LProcessError e)).

(** [for event in events: self._process_event(event)]. *)
Fixpoint process_events (events : list RawEvent) : M unit :=
  match events with
  | [] => mret tt
  | event :: rest => process_event event;; process_events rest
  end.

(** ** BlockchainConnector *)

Definition is_connected : M bool :=
  present ← gets web3;
  if (present : bool) then
    emit EIsConnected;;
    n ← gets n_is_connected;
    modify tick_is_connected;;
    mret (node_is_connected w n)
  else mret false.

Definition chain_id : M Z :=
  emit EChainId;;
  n ← gets n_chain_id;
  modify tick_chain_id;;
  match node_chain_id w n with
  | Ok z => mret z
  | Raise e => raise e
  end.

Definition connect : M unit :=
  try_except
    (emit EConnect;;
     modify (set_web3 true);;
     c ← is_connected;
     (if (c : bool) then mret tt else raise ConnectionError);;
     chain_id;;
     log INFO LConnected)
    is_Exception
    (λ e, log ERROR LConnectError;; modify (set_web3 false)).

Definition block_number : M Z :=
  emit EBlockNumber;;
  n ← gets n_block_number;
  modify tick_block_number;;
  match node_block_number w n with
  | Ok z => mret z
  | Raise e => raise e
  end.

Definition get_latest_block_number : M Z :=
  c ← is_connected;
  if (c : bool) then block_number
  else log WARNING LNotConnectedReturning0;; mret 0.

(** [create_filter(fromBlock, toBlock)] followed by [get_all_entries()]. *)
Definition get_all_entries (from_blk to_blk : Z) : M (list RawEvent) :=
  emit (EGetLogs from_blk to_blk);;
  n ← gets n_get_logs;
  modify tick_get_logs;;
  match node_get_logs w n from_blk to_blk with
  | Ok events => mret events
  | Raise e => raise e
  end.

(** ** One iteration of the [while True] loop of [run] *)

(** The body of the [try], lines 271-295.  It yields [true] where the source
    reaches [continue] and [false] where it falls out of the [try]. *)
Definition cycle_try : M bool :=
  c ← is_connected;
  if negb (c : bool) then
    log WARNING LConnectionLost;;
    connect;;
    sleep 5;;
    mret true
  else
    to_block ← get_latest_block_number;
    from_blk ← gets from_block;
    if bool_decide (from_blk > to_block) then
      log INFO (LNoNewBlocks from_blk to_block);;
      sleep (POLLING_INTERVAL_SECONDS cfg);;
      mret true
    else
      events ← get_all_entries from_blk to_block;
      (match events with
       | [] => mret tt
       | _ => log INFO (LFound (length events) from_blk to_block);;
              process_events events
       end);;
      modify (set_from_block (to_block + 1));;
      mret false.

Definition cycle : M unit :=
  continued ← try_except cycle_try is_Exception
                (λ e, log ERROR (LMainLoopError e);; sleep 60;; mret false);
  if (continued : bool) then mret tt
  else sleep (POLLING_INTERVAL_SECONDS cfg).

(** The first [n] iterations of the loop. *)
Fixpoint cycles (n : nat) : M unit :=
  match n with
  | O => mret tt
  | S n' => cycle;; cycles n'
  end.

(** The cursor [run] starts from, lines 263-264. *)
Definition initial_cursor : M unit :=
  latest_block ← get_latest_block_number;
  modify (set_from_block (Z.max 0 (latest_block - START_BLOCK_OFFSET cfg))).

End Program.

(** ** Reading traces *)

(** The payloads POSTed, in order. *)
Definition posted (tr : list Effect) : list Dict :=
  omap (λ e, match e with EPost p => Some p | _ => None end) tr.

(** The POSTs and sleeps, in order. *)
Definition posts_and_sleeps (tr : list Effect) : list Effect :=
  List.filter (λ e, match e with EPost _ | ESleep _ => true | _ => false end) tr.

(** The ranges of the log queries issued, in order. *)
Definition queries (tr : list Effect) : list (Z * Z) :=
  omap (λ e, match e with EGetLogs f t => Some (f, t) | _ => None end) tr.

(** The ids looked up in, and the ids added to, the deduplication set. *)
Definition lookups (tr : list Effect) : list string :=
  omap (λ e, match e with EDedupLookup i => Some i | _ => None end) tr.

Definition adds (tr : list Effect) : list string :=
  omap (λ e, match e with EDedupAdd i => Some i | _ => None end) tr.

(** The ids whose relay returned [True]: line 185 logs right before the
    [return True] of line 187, and nowhere else. *)
Definition relayed (tr : list Effect) : list PyVal :=
  omap (λ e, match e with ELog _ (LRelayed i _) => Some i | _ => None end) tr.

(** The errors caught by the handler of the main loop, line 298. *)
Definition loop_errors (tr : list Effect) : list exn :=
  omap (λ e, match e with ELog _ (LMainLoopError x) => Some x | _ => None end) tr.

(** ** Outcomes of one relay attempt *)

(** A failed attempt, by the [except] of line 188: [raise_for_status] raised
    on a 4xx or 5xx response, or the POST raised a [RequestException]. *)
Definition failed (o : PostOutcome) : Prop :=
  match o with
  | Responded status_code => 400 ≤ status_code < 600
  | PostRaised e => is_RequestException e = true
  end.

(** A response that passes [raise_for_status]. *)
Definition accepted (o : PostOutcome) : Prop :=
  match o with
  | Responded status_code => ¬ (400 ≤ status_code < 600)
  | PostRaised _ => False
  end.

Definition is_2xx (status_code : Z) : Prop := 200 ≤ status_code < 300.

(** How the [try] of lines 182-194 ends. *)
Inductive Attempt :=
  | Accepted (status_code : Z)
  | Failed (e : exn)
  | Escaped (e : exn).

Definition classify (o : PostOutcome) : Attempt :=
  match o with
  | Responded status_code =>
      if bool_decide (400 ≤ status_code < 600)
      then Failed (HTTPError status_code)
      else Accepted status_code
  | PostRaised e => if is_RequestException e then Failed e else Escaped e
  end.

(** The POSTs and sleeps of a relay that fails three times. *)
Definition backoff_schedule (payload : Dict) : list Effect :=
  [EPost payload; ESleep 1; EPost payload; ESleep 2; EPost payload].

(** The dict built at lines 170-176. *)
Definition relay_payload (tx_id chain rcpt amt tx_hash : PyVal) : Dict :=
  [("sourceTransactionId", tx_id);
   ("destinationChainId", chain);
   ("recipient", rcpt);
   ("amount", amt);
   ("sourceTransactionHash", tx_hash)].

Definition payload_keys : list string :=
  ["sourceTransactionId"; "destinationChainId"; "recipient"; "amount";
   "sourceTransactionHash"]%string.

(** The dict built at lines 239-246. *)
Definition event_data_of (tx_id h : list byte) (chain : Z) (rcpt : string)
    (amt blk : Z) : Dict :=
  [("transactionId", VStr (hex tx_id));
   ("destinationChainId", VInt chain);
   ("recipient", VStr rcpt);
   ("amount", VStr (str amt));
   ("transactionHash", VStr (HexBytes_hex h));
   ("blockNumber", VInt blk)].

(** The body POSTed for an event with these fields. *)
Definition payload_of (tx_id h : list byte) (chain : Z) (rcpt : string)
    (amt : Z) : Dict :=
  relay_payload (VStr (hex tx_id)) (VInt chain) (VStr rcpt) (VStr (str amt))
    (VStr (HexBytes_hex h)).

(** A log entry with every field present. *)
Definition event_of (tx_id h : list byte) (chain : Z) (rcpt : string)
    (amt blk : Z) : RawEvent :=
  {| args := Some {| transactionId := Some tx_id;
                     destinationChainId := Some chain;
                     recipient := Some rcpt;
                     amount := Some amt |};
     transactionHash := Some h;
     blockNumber := Some blk |}.

(** The id the deduplication set knows an event by, when it has one. *)
Definition event_id (ev : RawEvent) : option string :=
  a ← args ev; t ← transactionId a; Some (hex t).

(** An event some field of which is absent: building its record raises. *)
Definition incomplete (ev : RawEvent) : Prop :=
  ∀ tx_id h chain rcpt amt blk, ev ≠ event_of tx_id h chain rcpt amt blk.

(** The handler of line 252 applied to a state. *)
Definition caught (e : exn) (st : State) : State * Result unit :=
  (add_trace (ELog ERROR (LProcessError e)) st, Ok tt).

(** Scanned ranges that follow one another: the first starts at the cursor
    [c], each is non-empty, each next one starts right after the one before,
    and [c'] is the block after the last. *)
Fixpoint contiguous (c : Z) (ranges : list (Z * Z)) (c' : Z) : Prop :=
  match ranges with
  | [] => c' = c
  | (f, t) :: rest => f = c ∧ f ≤ t ∧ contiguous (t + 1) rest c'
  end.

(** How many of the ranges contain block [b]. *)
Definition times_scanned (b : Z) (ranges : list (Z * Z)) : nat :=
  length (List.filter (λ r, (r.1 <=? b) && (b <=? r.2)) ranges).

(** The state of a scanning iteration once its log query has returned:
    the connection was checked in [run] and again in
    [get_latest_block_number], the height was read, the logs were fetched. *)
Definition scan_start (st : State) (to_block : Z) : State :=
  tick_get_logs
    (add_trace (EGetLogs (from_block st) to_block)
       (tick_block_number
          (add_trace EBlockNumber
             (tick_is_connected
                (add_trace EIsConnected
                   (tick_is_connected (add_trace EIsConnected st))))))).

(** Line 290, logged when the query returned events. *)
Definition announce (events : list RawEvent) (f t : Z) (st : State) : State :=
  match events with
  | [] => st
  | _ => add_trace (ELog INFO (LFound (length events) f t)) st
  end.

(** ** How a run changes the state *)

(** What a computation that only POSTs, sleeps and logs leaves untouched. *)
Record quiet_run (st st' : State) (tr : list Effect) : Prop := {
  qr_trace : trace st' = trace st ++ tr;
  qr_processed : processed_transaction_ids st' = processed_transaction_ids st;
  qr_web3 : web3 st' = web3 st;
  qr_from_block : from_block st' = from_block st;
  qr_is_connected : n_is_connected st' = n_is_connected st;
  qr_chain_id : n_chain_id st' = n_chain_id st;
  qr_block_number : n_block_number st' = n_block_number st;
  qr_get_logs : n_get_logs st' = n_get_logs st;
  qr_queries : queries tr = [];
  qr_lookups : lookups tr = [];
  qr_adds : adds tr = [];
  qr_loop_errors : loop_errors tr = []
}.

Ltac trace_eq := cbn; rewrite <- ?app_assoc; cbn; reflexivity.

(** What handling events does to the state: the deduplication set grows by
    the ids added, each add answers a relay that returned [True], and the
    node and the cursor are left alone. *)
Record event_run (st st' : State) (tr : list Effect) : Prop := {
  er_trace : trace st' = trace st ++ tr;
  er_processed :
    processed_transaction_ids st' =
    processed_transaction_ids st ∪ list_to_set (adds tr);
  er_balanced : relayed tr = VStr <$> adds tr;
  er_web3 : web3 st' = web3 st;
  er_from_block : from_block st' = from_block st;
  er_is_connected : n_is_connected st' = n_is_connected st;
  er_chain_id : n_chain_id st' = n_chain_id st;
  er_block_number : n_block_number st' = n_block_number st;
  er_get_logs : n_get_logs st' = n_get_logs st;
  er_queries : queries tr = [];
  er_loop_errors : loop_errors tr = []
}.

Ltac in_nil :=
  intros; exfalso;
  match goal with
  | H : _ ∈ _ |- _ => cbn in H; apply elem_of_nil in H; exact H
  end.

(** A state that differs from [st] by log lines and lookups only. *)
Ltac logged_only :=
  split; [trace_eq | cbn; set_solver | reflexivity ..].

(** What a call on the connector does: it talks to the node and logs, and
    leaves the deduplication set, the cursor and the relayer alone. *)
Record node_run (st st' : State) (tr : list Effect) : Prop := {
  nr_trace : trace st' = trace st ++ tr;
  nr_processed : processed_transaction_ids st' = processed_transaction_ids st;
  nr_from_block : from_block st' = from_block st;
  nr_post : n_post st' = n_post st;
  nr_get_logs : n_get_logs st' = n_get_logs st;
  nr_queries : queries tr = [];
  nr_lookups : lookups tr = [];
  nr_adds : adds tr = [];
  nr_relayed : relayed tr = [];
  nr_posted : posted tr = [];
  nr_loop_errors : loop_errors tr = []
}.

Ltac node_only := split; [trace_eq | reflexivity ..].

(** What iterations of the main loop do to the state. *)
Record loop_run (st st' : State) (tr : list Effect) : Prop := {
  lr_trace : trace st' = trace st ++ tr;
  lr_processed :
    processed_transaction_ids st' =
    processed_transaction_ids st ∪ list_to_set (adds tr);
  lr_balanced : relayed tr = VStr <$> adds tr;
  lr_cursor : from_block st ≤ from_block st';
  lr_ranges :
    loop_errors tr = [] →
    contiguous (from_block st) (queries tr) (from_block st')
}.

(** The part of [loop_run] that every step inside one iteration keeps. *)
Record inner_run (st st' : State) (tr : list Effect) : Prop := {
  ir_trace : trace st' = trace st ++ tr;
  ir_processed :
    processed_transaction_ids st' =
    processed_transaction_ids st ∪ list_to_set (adds tr);
  ir_balanced : relayed tr = VStr <$> adds tr;
  ir_from_block : from_block st' = from_block st;
  ir_loop_errors : loop_errors tr = []
}.

(** ** Sleeping *)

(** A length [time.sleep] takes. *)
Definition naps (seconds : Z) : Prop := 0 ≤ seconds ≤ sleep_limit.

(** A call of [sleep], by its parts: what it returns, what it appends to the
    trace, and the state it leaves. *)
Definition sleep_result (seconds : Z) : Result unit :=
  match sleep_error seconds with
  | Some e => Raise e
  | None => Ok tt
  end.

Definition nap_trace (seconds : Z) : list Effect :=
  match sleep_error seconds with
  | Some _ => []
  | None => [ESleep seconds]
  end.

Definition nap (seconds : Z) (st : State) : State :=
  match sleep_error seconds with
  | Some _ => st
  | None => add_trace (ESleep seconds) st
  end.

(** ** Sample inputs *)

(** A state at the top of the loop: nothing processed yet, the connector
    holds a provider, the cursor is at block 10. *)
Definition fresh_state : State :=
  {| processed_transaction_ids := ∅; web3 := true; from_block := 10;
     trace := []; n_post := 0; n_is_connected := 0; n_chain_id := 0;
     n_block_number := 0; n_get_logs := 0 |}.

Definition sample_config : Config :=
  {| POLLING_INTERVAL_SECONDS := 15; START_BLOCK_OFFSET := 100 |}.

(** A world whose node is always reachable. *)
Definition world_of (post : nat → PostOutcome) (height : nat → Result Z)
    (logs : nat → Result (list RawEvent)) : World :=
  {| http_post := λ n _, post n;
     node_is_connected := λ _, true;
     node_chain_id := λ _, Ok 1;
     node_block_number := height;
     node_get_logs := λ n _ _, logs n |}.

Definition id_a : list byte := [xaa; x01].
Definition id_b : list byte := [xbb; x02].
Definition hash_a : list byte := [xcc].

Definition event_a : RawEvent := event_of id_a hash_a 5 "0xBB" 1000 12.
Definition event_b : RawEvent := event_of id_b hash_a 5 "0xBB" 7 12.

Definition event_data_a : Dict := event_data_of id_a hash_a 5 "0xBB" 1000 12.
Definition payload_a : Dict := payload_of id_a hash_a 5 "0xBB" 1000.
Definition payload_b : Dict := payload_of id_b hash_a 5 "0xBB" 7.

(** An endpoint that answers every POST with the same status. *)
Definition world_status (status_code : Z) : World :=
  world_of (λ _, Responded status_code) (λ n, Ok (12 + Z.of_nat n))
    (λ _, Ok [event_a]).

(** An endpoint that answers 500, then times out, then answers 503. *)
Definition world_failing : World :=
  world_of (λ n, match n with
                 | O => Responded 500
                 | S O => PostRaised TransportError
                 | _ => Responded 503
                 end)
    (λ n, Ok (12 + Z.of_nat n)) (λ _, Ok [event_a]).

(** An endpoint that rejects the first POST and accepts the second. *)
Definition world_retry : World :=
  world_of (λ n, match n with O => Responded 500 | _ => Responded 200 end)
    (λ n, Ok (12 + Z.of_nat n)) (λ _, Ok [event_a]).

(** A node whose height is 5 while the cursor is at 10. *)
Definition world_behind : World :=
  world_of (λ _, Responded 200) (λ _, Ok 5) (λ _, Ok [event_a]).

(** A node whose height query fails. *)
Definition world_rpc_down : World :=
  world_of (λ _, Responded 200) (λ _, Raise RpcError) (λ _, Ok [event_a]).

(** A log query that returns [event_a], a copy of it without its amount and
    with another id, and [event_b]. *)
Definition event_broken_c : RawEvent :=
  {| args := Some {| transactionId := Some [xcc; x03];
                     destinationChainId := Some 5;
                     recipient := Some "0xBB"%string;
                     amount := None |};
     transactionHash := Some hash_a;
     blockNumber := Some 12 |}.

Definition world_three : World :=
  world_of (λ _, Responded 200) (λ n, Ok (12 + Z.of_nat n))
    (λ _, Ok [event_a; event_broken_c; event_b]).

(** [event_a] with another amount, recipient, chain, hash and block. *)
Definition event_a_variant : RawEvent :=
  event_of id_a [xdd] 9 "0xEE" 1 40.

(** ** More readings of traces and inputs *)

(** The lengths of the sleeps, in order. *)
Definition slept (tr : list Effect) : list Z :=
  omap (λ e, match e with ESleep n => Some n | _ => None end) tr.

(** The keys [relay_transaction_data] reads from its argument. *)
Definition event_data_keys : list string :=
  ["transactionId"; "destinationChainId"; "recipient"; "amount";
   "transactionHash"]%string.

(** Reading [hex] back, as [bytes.fromhex] does for lowercase digits. *)
Definition unhex_digit (c : ascii) : option N :=
  let code := N_of_ascii c in
  (if (N_of_ascii "0" <=? code) && (code <=? N_of_ascii "9")
   then Some (code - N_of_ascii "0")
   else if (N_of_ascii "a" <=? code) && (code <=? N_of_ascii "f")
   then Some (code - N_of_ascii "a" + 10)
   else None)%N.

Fixpoint unhex (s : string) : option (list byte) :=
  match s with
  | EmptyString => Some []
  | String c1 (String c2 s') =>
      hi ← unhex_digit c1;
      lo ← unhex_digit c2;
      b ← Byte.of_N (16 * hi + lo);
      bs ← unhex s';
      Some (b :: bs)
  | String _ EmptyString => None
  end.

(** A node that answers the connection check of [run] and fails the one
    inside [get_latest_block_number]. *)
Definition world_flapping : World :=
  {| http_post := λ _ _, Responded 200;
     node_is_connected := λ n, Nat.even n;
     node_chain_id := λ _, Ok 1;
     node_block_number := λ n, Ok (12 + Z.of_nat n);
     node_get_logs := λ _ _ _, Ok [] |}.

(** A node that cannot be reached at all. *)
Definition world_offline : World :=
  {| http_post := λ _ _, Responded 200;
     node_is_connected := λ _, false;
     node_chain_id := λ _, Raise RpcError;
     node_block_number := λ _, Raise RpcError;
     node_get_logs := λ _ _ _, Raise RpcError |}.

(** [fresh_state] with the cursor at block 0. *)
Definition genesis_state : State := set_from_block 0 fresh_state.

(** An endpoint that answers 500 to every POST. *)
Definition world_rejecting : World :=
  world_of (λ _, Responded 500) (λ n, Ok (12 + Z.of_nat n))
    (λ n, match n with O => Ok [event_a] | _ => Ok [] end).

(** The log query of the first iteration returns [event_a] and [event_b]. *)
Definition world_two : World :=
  world_of (λ _, Responded 200) (λ n, Ok (12 + Z.of_nat n))
    (λ _, Ok [event_a; event_b]).

(** The fields of a complete event, and what is made of them. *)
Definition Fields : Type := list byte * list byte * Z * string * Z * Z.

Definition event_of_fields (f : Fields) : RawEvent :=
  let '(tx_id, h, chain, rcpt, amt, blk) := f in
  event_of tx_id h chain rcpt amt blk.

Definition payload_of_fields (f : Fields) : Dict :=
  let '(tx_id, h, chain, rcpt, amt, _) := f in
  payload_of tx_id h chain rcpt amt.

Definition id_of_fields (f : Fields) : string :=
  let '(tx_id, _, _, _, _, _) := f in hex tx_id.

(** ** Startup: [Config.validate], [get_contract], [_initialize_contract],
    [run] and the [__main__] block *)

(** The two settings [Config.validate] checks, next to the two the loop
    reads. *)
Record Environment := {
  SOURCE_CHAIN_RPC_URL : string;
  BRIDGE_CONTRACT_ADDRESS : string;
  loop_config : Config
}.

(** The [logging] calls of the startup code. *)
Inductive StartupMsg :=
  | LConfigValidated                          (* line 37 *)
  | LCannotGetContract                        (* line 116 *)
  | LInvalidAddress                           (* line 122 *)
  | LStateManagerInitialized                  (* line 141 *)
  | LCannotInitialize                         (* line 214 *)
  | LInitializeFailed                         (* line 222 *)
  | LContractInitialized (address : string)   (* line 225 *)
  | LStarting (polling_interval : Z)          (* line 266 *)
  | LInitialScan (from_blk : Z)               (* line 267 *)
  | LConfigurationError                       (* line 311 *)
  | LUnhandled (e : exn).                     (* line 315 *)

(** What the process does, in order: its own log lines and the effects of
    the listener. *)
Inductive Output :=
  | OLog (lvl : Level) (msg : StartupMsg)
  | OCore (e : Effect).

Inductive Outcome (A : Type) :=
  | Returned (a : A)
  | Threw (e : exn).
Arguments Returned {A} a.
Arguments Threw {A} e.

Record Process := {
  listener : State;                   (* the connector, the set, the cursor *)
  bridge_contract : option string;    (* the bound contract's address *)
  output : list Output
}.

Definition Boot (A : Type) : Type := Process → Process * Outcome A.

Definition boot_ret {A} (a : A) : Boot A := λ p, (p, Returned a).

Definition boot_bind {A B} (c : Boot A) (k : A → Boot B) : Boot B :=
  λ p, match c p with
       | (p', Returned a) => k a p'
       | (p', Threw e) => (p', Threw e)
       end.

Global Instance Boot_ret : MRet Boot := @boot_ret.
Global Instance Boot_bind : MBind Boot := λ A B k c, boot_bind c k.

Definition throw {A} (e : exn) : Boot A := λ p, (p, Threw e).

Definition startup_log (lvl : Level) (msg : StartupMsg) : Boot unit :=
  λ p, ({| listener := listener p; bridge_contract := bridge_contract p;
           output := output p ++ [OLog lvl msg] |}, Returned tt).

Definition set_bridge_contract (c : option string) : Boot unit :=
  λ p, ({| listener := listener p; bridge_contract := c;
           output := output p |}, Returned tt).

(** Running a computation of the listener inside the process: what it
    appends to the listener's trace is appended to the output. *)
Definition lift {A} (c : M A) : Boot A :=
  λ p, match c (listener p) with
       | (st', r) =>
           ({| listener := st';
               bridge_contract := bridge_contract p;
               output := output p
                         ++ (OCore <$> drop (length (trace (listener p)))
                                         (trace st')) |},
            match r with
            | Ok a => Returned a
            | Raise e => Threw e
            end)
       end.

(** A process whose listener moved to [st] and wrote [out]. *)
Definition with_output (p : Process) (st : State) (out : list Output) : Process :=
  {| listener := st; bridge_contract := bridge_contract p;
     output := output p ++ out |}.

(** The process before [__main__] runs: no connector yet, an empty set. *)
Definition blank_state : State :=
  {| processed_transaction_ids := ∅; web3 := false; from_block := 0;
     trace := []; n_post := 0; n_is_connected := 0; n_chain_id := 0;
     n_block_number := 0; n_get_logs := 0 |}.

Definition boot_process : Process :=
  {| listener := blank_state; bridge_contract := None; output := [] |}.

(** The line [__main__] logs for an exception that reaches it: the handler
    of [ValueError] comes first (line 310), the one of [Exception] last
    (line 314). *)
Definition critical_line (e : exn) : StartupMsg :=
  match e with
  | ValueError => LConfigurationError
  | _ => LUnhandled e
  end.

Section Startup.

(** [to_checksum_address] of web3: the checksummed address, or [None] where
    it raises [ValueError]. *)
Context (to_checksum_address : string → option string).
Context (w : World) (env : Environment).

(** [Config.validate]: an empty string is falsy. *)
Definition validate : Boot unit :=
  if bool_decide (SOURCE_CHAIN_RPC_URL env ≠ EmptyString
                  ∧ BRIDGE_CONTRACT_ADDRESS env ≠ EmptyString)
  then startup_log INFO LConfigValidated
  else throw ValueError.

Definition get_contract (address : string) : Boot (option string) :=
  c ← lift (is_connected w);
  if negb (c : bool) then
    startup_log WARNING LCannotGetContract;; mret None
  else
    match to_checksum_address address with
    | Some checksum_address => mret (Some checksum_address)
    | None => startup_log ERROR LInvalidAddress;; mret None
    end.

Definition initialize_contract : Boot bool :=
  c ← lift (is_connected w);
  if negb (c : bool) then
    startup_log ERROR LCannotInitialize;; mret false
  else
    contract ← get_contract (BRIDGE_CONTRACT_ADDRESS env);
    set_bridge_contract contract;;
    match contract with
    | None => startup_log CRITICAL LInitializeFailed;; mret false
    | Some address =>
        startup_log INFO (LContractInitialized address);; mret true
    end.

(** [run], with the first [n] iterations of its loop. *)
Definition run (n : nat) : Boot unit :=
  ok ← initialize_contract;
  if negb (ok : bool) then mret tt
  else
    lift (initial_cursor w (loop_config env));;
    startup_log INFO (LStarting (POLLING_INTERVAL_SECONDS (loop_config env)));;
    from_blk ← lift (gets from_block);
    startup_log INFO (LInitialScan from_blk);;
    lift (cycles w (loop_config env) n).

(** [CrossChainEventListener(Config())]: the connector connects, the
    state manager starts empty, no contract is bound. *)
Definition new_listener : Boot unit :=
  lift (modify (set_web3 false);; connect w);;
  lift (modify (set_processed (λ _, ∅)));;
  startup_log INFO LStateManagerInitialized;;
  set_bridge_contract None.

(** The [__main__] block.  [KeyboardInterrupt] comes from outside the
    program and is not modelled. *)
Definition main (n : nat) : Process :=
  match (validate;; new_listener;; run n) boot_process with
  | (p, Returned _) => p
  | (p, Threw e) => (startup_log CRITICAL (critical_line e) p).1
  end.

End Startup.

(** The effects of the listener in an output, in order. *)
Definition core_effects (out : list Output) : list Effect :=
  omap (λ o, match o with OCore e => Some e | _ => None end) out.

(** The startup log lines of an output, in order. *)
Definition startup_lines (out : list Output) : list (Level * StartupMsg) :=
  omap (λ o, match o with OLog l m => Some (l, m) | _ => None end) out.

Definition sample_environment : Environment :=
  {| SOURCE_CHAIN_RPC_URL := "http://node";
     BRIDGE_CONTRACT_ADDRESS := "0xabc";
     loop_config := sample_config |}.

Definition environment_without_address : Environment :=
  {| SOURCE_CHAIN_RPC_URL := "http://node";
     BRIDGE_CONTRACT_ADDRESS := "";
     loop_config := sample_config |}.

(** A checksum routine that accepts addresses starting with [0x]. *)
Definition sample_checksum (a : string) : option string :=
  match a with
  | String "0" (String "x" _) => Some a
  | _ => None
  end.

(** The listener after [__main__] built it against a reachable node, and
    after [_initialize_contract] checked the connection twice more. *)
Definition connected_listener : State :=
  {| processed_transaction_ids := ∅; web3 := true; from_block := 0;
     trace := [EConnect; EIsConnected; EChainId; ELog INFO LConnected];
     n_post := 0; n_is_connected := 1; n_chain_id := 1;
     n_block_number := 0; n_get_logs := 0 |}.

Definition bound_listener : State :=
  tick_is_connected
    (add_trace EIsConnected
       (tick_is_connected (add_trace EIsConnected connected_listener))).

(** What a process that gets as far as binding the contract has written. *)
Definition startup_prefix (address : string) : list Output :=
  [OLog INFO LConfigValidated; OCore EConnect; OCore EIsConnected;
   OCore EChainId; OCore (ELog INFO LConnected);
   OLog INFO LStateManagerInitialized; OCore EIsConnected; OCore EIsConnected;
   OLog INFO (LContractInitialized address)].

(** A node that loses the connection just when [run] reads its first
    height, and is back for the loop, at height 50. *)
Definition world_blink : World :=
  {| http_post := λ _ _, Responded 200;
     node_is_connected := λ n, negb (Nat.eqb n 3);
     node_chain_id := λ _, Ok 1;
     node_block_number := λ _, Ok 50;
     node_get_logs := λ _ _ _, Ok [] |}.

(** A node at height 500. *)
Definition world_tall : World :=
  world_of (λ _, Responded 200) (λ n, Ok (500 + Z.of_nat n)) (λ _, Ok []).

(** A node that answers the height query with a JSON-RPC error, which web3
    raises as [ValueError]. *)
Definition world_rpc_error : World :=
  world_of (λ _, Responded 200) (λ _, Raise ValueError) (λ _, Ok [event_a]).



(** * Proofs *)

(** ** Proof machinery *)

Ltac unfold_m :=
  unfold mbind, M_bind, bind, mret, M_ret, ret, raise, try_except,
    log, emit, modify, gets, is_Exception in *.

(** [sleep], by its parts. *)
Lemma sleep_eq n st : sleep n st = (nap n st, sleep_result n).
Proof.
  unfold sleep, nap, sleep_result. destruct (sleep_error n); reflexivity.
Qed.

Lemma sleep_error_naps n : naps n ↔ sleep_error n = None.
Proof.
  unfold naps, sleep_error, sleep_limit.
  repeat case_bool_decide; split; intros Hn; first [discriminate | lia | reflexivity].
Qed.

Lemma sleep_result_naps n : naps n → sleep_result n = Ok tt.
Proof.
  intros H%sleep_error_naps. unfold sleep_result. rewrite H. reflexivity.
Qed.

Lemma nap_naps n st : naps n → nap n st = add_trace (ESleep n) st.
Proof. intros H%sleep_error_naps. unfold nap. rewrite H. reflexivity. Qed.

Lemma nap_trace_naps n : naps n → nap_trace n = [ESleep n].
Proof. intros H%sleep_error_naps. unfold nap_trace. rewrite H. reflexivity. Qed.

Lemma sleep_naps n st : naps n → sleep n st = (add_trace (ESleep n) st, Ok tt).
Proof.
  intros H. rewrite sleep_eq, (nap_naps n st H), (sleep_result_naps n H).
  reflexivity.
Qed.

Lemma nap_cases n st :
  (nap n st = add_trace (ESleep n) st ∧ nap_trace n = [ESleep n])
  ∨ (nap n st = st ∧ nap_trace n = []).
Proof. unfold nap, nap_trace. destruct (sleep_error n); auto. Qed.

Lemma classify_failed o : failed o ↔ ∃ e, classify o = Failed e.
Proof.
  destruct o as [sc|e]; cbn.
  - case_bool_decide; split.
    + eauto.
    + auto.
    + intros Hn. contradiction.
    + intros [? [=]].
  - destruct (is_RequestException e); split; eauto.
    + discriminate.
    + intros [? [=]].
Qed.

Lemma classify_accepted o : accepted o ↔ ∃ sc, classify o = Accepted sc.
Proof.
  destruct o as [sc|e]; cbn.
  - case_bool_decide; split.
    + intros Hn. contradiction.
    + intros [? [=]].
    + eauto.
    + auto.
  - destruct (is_RequestException e); split;
      first [contradiction | intros [? [=]]].
Qed.

Lemma accepted_not_failed o : accepted o → ¬ failed o.
Proof. destruct o; cbn; tauto. Qed.

Lemma posted_app tr1 tr2 : posted (tr1 ++ tr2) = posted tr1 ++ posted tr2.
Proof. apply omap_app. Qed.

Lemma queries_app tr1 tr2 : queries (tr1 ++ tr2) = queries tr1 ++ queries tr2.
Proof. apply omap_app. Qed.

Lemma lookups_app tr1 tr2 : lookups (tr1 ++ tr2) = lookups tr1 ++ lookups tr2.
Proof. apply omap_app. Qed.

Lemma adds_app tr1 tr2 : adds (tr1 ++ tr2) = adds tr1 ++ adds tr2.
Proof. apply omap_app. Qed.

Lemma relayed_app tr1 tr2 : relayed (tr1 ++ tr2) = relayed tr1 ++ relayed tr2.
Proof. apply omap_app. Qed.

Lemma loop_errors_app tr1 tr2 :
  loop_errors (tr1 ++ tr2) = loop_errors tr1 ++ loop_errors tr2.
Proof. apply omap_app. Qed.

Lemma posts_and_sleeps_app tr1 tr2 :
  posts_and_sleeps (tr1 ++ tr2) = posts_and_sleeps tr1 ++ posts_and_sleeps tr2.
Proof. apply List.filter_app. Qed.

Section Relay.

Context (w : World).

(** One attempt of the loop, unfolded. *)
Lemma relay_attempts_cons payload tx_id attempt rest st :
  relay_attempts w payload tx_id (attempt :: rest) st =
  let st1 := tick_post (add_trace (EPost payload) st) in
  match classify (http_post w (n_post st) payload) with
  | Accepted status_code =>
      (add_trace (ELog INFO (LRelayed tx_id status_code)) st1, Ok true)
  | Failed e =>
      let st2 :=
        add_trace (ELog WARNING (LAttemptFailed (attempt + 1) max_retries tx_id e))
          st1 in
      if bool_decide (attempt < max_retries - 1)
      then match sleep_result (2 ^ attempt) with
           | Ok _ => relay_attempts w payload tx_id rest (nap (2 ^ attempt) st2)
           | Raise e' => (nap (2 ^ attempt) st2, Raise e')
           end
      else (add_trace (ELog ERROR (LRelayFailed tx_id max_retries)) st2, Ok false)
  | Escaped e => (st1, Raise e)
  end.
Proof.
  cbn [relay_attempts]. unfold session_post, raise_for_status, classify.
  unfold_m. cbn.
  destruct (http_post w (n_post st) payload) as [sc|e]; cbn.
  - case_bool_decide; cbn; [|reflexivity].
    case_bool_decide; [|reflexivity].
    rewrite sleep_eq. destruct (sleep_result (2 ^ attempt)) as [[]|]; reflexivity.
  - destruct (is_RequestException e); cbn; [|reflexivity].
    case_bool_decide; [|reflexivity].
    rewrite sleep_eq. destruct (sleep_result (2 ^ attempt)) as [[]|]; reflexivity.
Qed.

(** The two sleeps of the backoff are lengths [time.sleep] takes. *)
Lemma backoff_naps attempt :
  0 ≤ attempt < max_retries - 1 →
  sleep_result (2 ^ attempt) = Ok tt ∧
  ∀ st, nap (2 ^ attempt) st = add_trace (ESleep (2 ^ attempt)) st.
Proof.
  intros H. unfold max_retries in H.
  assert (N : naps (2 ^ attempt)).
  { assert (attempt = 0 ∨ attempt = 1) as [-> | ->] by lia;
      unfold naps, sleep_limit; cbn; lia. }
  split; [apply sleep_result_naps, N|]. intros st. apply nap_naps, N.
Qed.

Lemma range_max_retries : seqZ 0 max_retries = [0; 1; 2].
Proof. reflexivity. Qed.

(** The whole loop: it makes [m] attempts, the first [m - 1] of them failed,
    and the last one decides the result. *)
Lemma relay_attempts_run payload tx_id st :
  ∃ (m : nat) st' r tr,
    relay_attempts w payload tx_id (seqZ 0 max_retries) st = (st', r) ∧
    quiet_run st st' tr ∧
    (1 ≤ m ≤ 3)%nat ∧
    (∀ j, (S j < m)%nat → failed (http_post w (n_post st + j)%nat payload)) ∧
    match classify (http_post w (n_post st + pred m)%nat payload) with
    | Accepted _ => r = Ok true ∧ relayed tr = [tx_id]
    | Failed _ => r = Ok false ∧ m = 3%nat ∧ relayed tr = []
    | Escaped e => r = Raise e ∧ relayed tr = []
    end ∧
    n_post st' = (n_post st + m)%nat ∧
    posted tr = replicate m payload ∧
    posts_and_sleeps tr = take (2 * m - 1) (backoff_schedule payload).
Proof.
  rewrite range_max_retries, relay_attempts_cons. cbn zeta.
  destruct (classify (http_post w (n_post st) payload)) as [sc0|e0|e0] eqn:H0.
  1, 3: exists 1%nat; do 3 eexists; split; [reflexivity|];
    split; [split; [trace_eq | reflexivity ..]|];
    split; [lia|]; split; [intros; lia|];
    cbn [pred]; rewrite Nat.add_0_r, H0;
    repeat split; cbn; lia.
  rewrite bool_decide_eq_true_2 by (unfold max_retries; lia).
  destruct (backoff_naps 0 ltac:(unfold max_retries; lia)) as [R0 N0].
  rewrite R0, N0.
  rewrite relay_attempts_cons. cbn zeta. cbn [n_post add_trace tick_post].
  assert (F0 : failed (http_post w (n_post st + 0)%nat payload))
    by (rewrite Nat.add_0_r; apply classify_failed; eauto).
  replace (S (n_post st)) with (n_post st + 1)%nat by lia.
  destruct (classify (http_post w (n_post st + 1)%nat payload)) as [sc1|e1|e1] eqn:H1.
  1, 3: exists 2%nat; do 3 eexists; split; [reflexivity|];
    split; [split; [trace_eq | reflexivity ..]|];
    split; [lia|];
    split; [intros j Hj; replace j with 0%nat by lia; exact F0|];
    cbn [pred]; rewrite H1;
    repeat split; cbn; lia.
  rewrite bool_decide_eq_true_2 by (unfold max_retries; lia).
  destruct (backoff_naps 1 ltac:(unfold max_retries; lia)) as [R1 N1].
  rewrite R1, N1.
  rewrite relay_attempts_cons. cbn zeta. cbn [n_post add_trace tick_post].
  assert (F1 : failed (http_post w (n_post st + 1)%nat payload))
    by (apply classify_failed; eauto).
  replace (S (S (n_post st))) with (n_post st + 2)%nat by lia.
  assert (F : ∀ j, (S j < 3)%nat →
                failed (http_post w (n_post st + j)%nat payload)).
  { intros j Hj. destruct j as [|[|j]]; [exact F0|exact F1|lia]. }
  destruct (classify (http_post w (n_post st + 2)%nat payload)) as [sc2|e2|e2] eqn:H2.
  2: rewrite bool_decide_eq_false_2 by (unfold max_retries; lia).
  all: exists 3%nat; do 3 eexists; split; [reflexivity|];
    split; [split; [trace_eq | reflexivity ..]|];
    split; [lia|]; split; [exact F|];
    cbn [pred]; rewrite H2;
    repeat split; cbn; lia.
Qed.

Lemma relay_transaction_data_eq event_data st :
  relay_transaction_data w event_data st =
  match dict_find event_data "transactionId" with
  | None => (st, Raise (KeyError "transactionId"))
  | Some tx_id =>
  match dict_find event_data "destinationChainId" with
  | None => (st, Raise (KeyError "destinationChainId"))
  | Some chain =>
  match dict_find event_data "recipient" with
  | None => (st, Raise (KeyError "recipient"))
  | Some rcpt =>
  match dict_find event_data "amount" with
  | None => (st, Raise (KeyError "amount"))
  | Some amt =>
  match dict_find event_data "transactionHash" with
  | None => (st, Raise (KeyError "transactionHash"))
  | Some tx_hash =>
      relay_attempts w (relay_payload tx_id chain rcpt amt tx_hash) tx_id
        (seqZ 0 max_retries) (add_trace (ELog INFO (LRelaying tx_id)) st)
  end end end end end.
Proof.
  unfold relay_transaction_data, getitem. unfold_m.
  repeat (match goal with
          | |- context [dict_find ?d ?k] => destruct (dict_find d k)
          end; [|reflexivity]).
  reflexivity.
Qed.

(** A relay whose dict has the five keys it reads. *)
Lemma relay_transaction_data_run event_data st tx_id chain rcpt amt tx_hash :
  dict_find event_data "transactionId" = Some tx_id →
  dict_find event_data "destinationChainId" = Some chain →
  dict_find event_data "recipient" = Some rcpt →
  dict_find event_data "amount" = Some amt →
  dict_find event_data "transactionHash" = Some tx_hash →
  let payload := relay_payload tx_id chain rcpt amt tx_hash in
  ∃ (m : nat) st' r tr,
    relay_transaction_data w event_data st = (st', r) ∧
    quiet_run st st' tr ∧
    (1 ≤ m ≤ 3)%nat ∧
    (∀ j, (S j < m)%nat → failed (http_post w (n_post st + j)%nat payload)) ∧
    match classify (http_post w (n_post st + pred m)%nat payload) with
    | Accepted _ => r = Ok true ∧ relayed tr = [tx_id]
    | Failed _ => r = Ok false ∧ m = 3%nat ∧ relayed tr = []
    | Escaped e => r = Raise e ∧ relayed tr = []
    end ∧
    n_post st' = (n_post st + m)%nat ∧
    posted tr = replicate m payload ∧
    posts_and_sleeps tr = take (2 * m - 1) (backoff_schedule payload).
Proof.
  intros E1 E2 E3 E4 E5 payload.
  rewrite relay_transaction_data_eq, E1, E2, E3, E4, E5. fold payload.
  set (st1 := add_trace (ELog INFO (LRelaying tx_id)) st).
  destruct (relay_attempts_run payload tx_id st1)
    as (m & st' & r & tr & Hrun & Hq & Hm & Hf & Hlast & Hn & Hp & Hps).
  exists m, st', r, (ELog INFO (LRelaying tx_id) :: tr).
  split; [exact Hrun|].
  split.
  { destruct Hq. split; try assumption; cbn.
    rewrite qr_trace0. cbn. rewrite <- app_assoc. reflexivity. }
  repeat split; try assumption; lia.
Qed.

(** Whatever dict it is given, the relay touches neither the deduplication
    set nor the node, and every body it POSTs has the five keys. *)
Lemma relay_transaction_data_quiet event_data st :
  ∃ st' r tr,
    relay_transaction_data w event_data st = (st', r) ∧
    quiet_run st st' tr ∧
    (r = Ok true → ∃ tx_id, dict_find event_data "transactionId" = Some tx_id ∧
                             relayed tr = [tx_id]) ∧
    (r ≠ Ok true → relayed tr = []) ∧
    (∀ payload, payload ∈ posted tr → dict_keys payload = payload_keys).
Proof.
  destruct (dict_find event_data "transactionId") as [tx_id|] eqn:E1;
  [destruct (dict_find event_data "destinationChainId") as [chain|] eqn:E2;
  [destruct (dict_find event_data "recipient") as [rcpt|] eqn:E3;
  [destruct (dict_find event_data "amount") as [amt|] eqn:E4;
  [destruct (dict_find event_data "transactionHash") as [tx_hash|] eqn:E5
  |]|]|]|].
  2-6: rewrite relay_transaction_data_eq, ?E1, ?E2, ?E3, ?E4, ?E5;
    exists st; eexists; exists [];
    split; [reflexivity|];
    split; [split; rewrite ?app_nil_r; reflexivity|];
    split; [discriminate|]; split; [reflexivity|];
    intros ? Hin; cbn in Hin; inversion Hin.
  destruct (relay_transaction_data_run event_data st _ _ _ _ _ E1 E2 E3 E4 E5)
    as (m & st' & r & tr & Hrun & Hq & Hm & Hf & Hlast & Hn & Hp & Hps).
  exists st', r, tr. split; [exact Hrun|]. split; [exact Hq|].
  destruct (classify _) in Hlast.
  - destruct Hlast as [-> Hr]. repeat split; eauto.
    + congruence.
    + intros p Hin. rewrite Hp in Hin.
      apply elem_of_replicate in Hin as [-> _]. reflexivity.
  - destruct Hlast as (-> & _ & Hr). repeat split; eauto; try discriminate.
    intros p Hin. rewrite Hp in Hin.
    apply elem_of_replicate in Hin as [-> _]. reflexivity.
  - destruct Hlast as (-> & Hr). repeat split; eauto; try discriminate.
    intros p Hin. rewrite Hp in Hin.
    apply elem_of_replicate in Hin as [-> _]. reflexivity.
Qed.

(** The relay reads nothing of the state but the number of POSTs made so
    far: from two states that agree on it, it does the same things and
    returns the same. *)
Lemma relay_attempts_sim payload tx_id attempts st st' :
  n_post st = n_post st' →
  ∃ s s' r tr,
    relay_attempts w payload tx_id attempts st = (s, r) ∧
    relay_attempts w payload tx_id attempts st' = (s', r) ∧
    trace s = trace st ++ tr ∧
    trace s' = trace st' ++ tr ∧
    n_post s = n_post s'.
Proof.
  revert st st'. induction attempts as [|attempt rest IH]; intros st st' Hn.
  - exists st, st', (Ok false), []. rewrite !app_nil_r. repeat split. exact Hn.
  - rewrite !relay_attempts_cons. cbn zeta. rewrite <- Hn.
    destruct (classify (http_post w (n_post st) payload)) as [sc|e|e].
    + do 4 eexists. split; [reflexivity|]. split; [reflexivity|].
      split; [trace_eq|]. split; [trace_eq|]. cbn. congruence.
    + case_bool_decide.
      * unfold nap, sleep_result.
        destruct (sleep_error (2 ^ attempt)) as [e'|].
        { do 4 eexists. split; [reflexivity|]. split; [reflexivity|].
          split; [trace_eq|]. split; [trace_eq|]. cbn. congruence. }
        set (next := λ s0,
               add_trace (ESleep (2 ^ attempt))
                 (add_trace
                    (ELog WARNING
                       (LAttemptFailed (attempt + 1) max_retries tx_id e))
                    (tick_post (add_trace (EPost payload) s0)))).
        destruct (IH (next st) (next st'))
          as (s & s' & r & tr & E & E' & T & T' & N); [cbn; congruence|].
        unfold next in E, E', T, T'.
        rewrite E, E'. exists s, s', r. eexists.
        split; [reflexivity|]. split; [reflexivity|].
        split; [rewrite T; trace_eq|]. split; [rewrite T'; trace_eq|]. exact N.
      * do 4 eexists. split; [reflexivity|]. split; [reflexivity|].
        split; [trace_eq|]. split; [trace_eq|]. cbn. congruence.
    + do 4 eexists. split; [reflexivity|]. split; [reflexivity|].
      split; [trace_eq|]. split; [trace_eq|]. cbn. congruence.
Qed.

Lemma relay_transaction_data_sim event_data st st' :
  n_post st = n_post st' →
  ∃ s s' r tr,
    relay_transaction_data w event_data st = (s, r) ∧
    relay_transaction_data w event_data st' = (s', r) ∧
    trace s = trace st ++ tr ∧
    trace s' = trace st' ++ tr ∧
    n_post s = n_post s'.
Proof.
  intros Hn. rewrite !relay_transaction_data_eq.
  repeat match goal with
         | |- context [dict_find ?d ?k] =>
             destruct (dict_find d k);
             [|exists st, st'; do 2 eexists; rewrite !app_nil_r;
               repeat split; exact Hn]
         end.
  match goal with
  | |- context [relay_attempts w ?p ?t ?l (add_trace ?e st)] =>
      destruct (relay_attempts_sim p t l (add_trace e st) (add_trace e st') Hn)
        as (s & s' & r & tr & E & E' & T & T' & N)
  end.
  rewrite E, E'. exists s, s', r. eexists.
  split; [reflexivity|]. split; [reflexivity|].
  split; [rewrite T; trace_eq|]. split; [rewrite T'; trace_eq|]. exact N.
Qed.

End Relay.

Lemma event_run_refl st : event_run st st [].
Proof. split; rewrite ?app_nil_r; cbn; try reflexivity. set_solver. Qed.

Lemma event_run_trans st1 st2 st3 tr1 tr2 :
  event_run st1 st2 tr1 → event_run st2 st3 tr2 →
  event_run st1 st3 (tr1 ++ tr2).
Proof.
  intros [] []. split; try congruence.
  - rewrite app_assoc. congruence.
  - rewrite adds_app, list_to_set_app_L. set_solver.
  - rewrite relayed_app, adds_app, fmap_app. congruence.
  - rewrite queries_app. rewrite er_queries0, er_queries1. reflexivity.
  - rewrite loop_errors_app, er_loop_errors0, er_loop_errors1. reflexivity.
Qed.

Lemma quiet_event_run st st' tr :
  quiet_run st st' tr → relayed tr = [] → event_run st st' tr.
Proof.
  intros [] Hr. split; try assumption.
  - rewrite qr_adds0. cbn. set_solver.
  - rewrite qr_adds0. exact Hr.
Qed.

Section Events.

Context (w : World).

(** [_process_event], unfolded. *)
Lemma process_event_eq ev st :
  process_event w ev st =
  match args ev with
  | None => caught (KeyError "args") st
  | Some a =>
  match transactionId a with
  | None => caught (KeyError "transactionId") st
  | Some tx_id =>
  match transactionHash ev with
  | None => caught (KeyError "transactionHash") st
  | Some h =>
  let st1 :=
    add_trace (EDedupLookup (hex tx_id))
      (add_trace (ELog INFO (LNewEvent (HexBytes_hex h) (hex tx_id))) st) in
  if bool_decide (hex tx_id ∈ processed_transaction_ids st)
  then (add_trace (ELog WARNING (LAlreadyProcessed (hex tx_id))) st1, Ok tt)
  else
  match destinationChainId a with
  | None => caught (KeyError "destinationChainId") st1
  | Some chain =>
  match recipient a with
  | None => caught (KeyError "recipient") st1
  | Some rcpt =>
  match amount a with
  | None => caught (KeyError "amount") st1
  | Some amt =>
  match blockNumber ev with
  | None => caught (KeyError "blockNumber") st1
  | Some blk =>
  match relay_transaction_data w (event_data_of tx_id h chain rcpt amt blk) st1 with
  | (st2, Ok true) =>
      (add_trace (ELog DEBUG (LMarked (hex tx_id)))
         (add_trace (EDedupAdd (hex tx_id))
            (set_processed (λ ids, {[hex tx_id]} ∪ ids) st2)), Ok tt)
  | (st2, Ok false) => (st2, Ok tt)
  | (st2, Raise e) => caught e st2
  end end end end end end end end.
Proof.
  unfold process_event, process_event_body, is_processed, mark_as_processed,
    field, caught.
  unfold_m. generalize (relay_transaction_data w). intros relay.
  destruct (args ev) as [a|]; [|reflexivity].
  destruct (transactionId a) as [tx_id|]; [|reflexivity].
  destruct (transactionHash ev) as [h|]; [|reflexivity].
  cbn. case_bool_decide; [reflexivity|].
  destruct (destinationChainId a) as [chain|]; [|reflexivity].
  destruct (recipient a) as [rcpt|]; [|reflexivity].
  destruct (amount a) as [amt|]; [|reflexivity].
  destruct (blockNumber ev) as [blk|]; [|reflexivity].
  fold (event_data_of tx_id h chain rcpt amt blk).
  match goal with
  | |- context [relay ?d ?s] => destruct (relay d s) as [st2 [[|]|e]]
  end; reflexivity.
Qed.

(** An event with every field present and an id not yet in the set: the
    relay is called, and its last attempt decides whether the id is added. *)
Lemma process_event_fresh tx_id h chain rcpt amt blk st :
  hex tx_id ∉ processed_transaction_ids st →
  let payload := payload_of tx_id h chain rcpt amt in
  ∃ st' tr (m : nat),
    process_event w (event_of tx_id h chain rcpt amt blk) st = (st', Ok tt) ∧
    event_run st st' tr ∧
    (1 ≤ m ≤ 3)%nat ∧
    posted tr = replicate m payload ∧
    n_post st' = (n_post st + m)%nat ∧
    (∀ j, (S j < m)%nat → failed (http_post w (n_post st + j)%nat payload)) ∧
    match classify (http_post w (n_post st + pred m)%nat payload) with
    | Accepted _ => adds tr = [hex tx_id]
    | _ => adds tr = []
    end.
Proof.
  intros Hnew payload.
  rewrite process_event_eq. unfold event_of, caught.
  cbn [args transactionId transactionHash destinationChainId recipient
       amount blockNumber]. cbn zeta.
  rewrite bool_decide_eq_false_2 by exact Hnew.
  set (st1 := add_trace (EDedupLookup (hex tx_id)) _).
  destruct (relay_transaction_data_run w
              (event_data_of tx_id h chain rcpt amt blk) st1
              _ _ _ _ _ eq_refl eq_refl eq_refl eq_refl eq_refl)
    as (m & st2 & r & tr & Hrun & Hq & Hm & Hf & Hlast & Hn & Hp & Hps).
  change (relay_payload _ _ _ _ _) with payload in Hf, Hlast, Hp, Hps.
  change (n_post st1) with (n_post st) in Hf, Hlast, Hn.
  rewrite Hrun.
  set (pre := [ELog INFO (LNewEvent (HexBytes_hex h) (hex tx_id));
               EDedupLookup (hex tx_id)]).
  assert (Hposted : ∀ tl, posted tl = [] →
            posted (pre ++ tr ++ tl) = replicate m payload).
  { intros tl Htl. cbn. rewrite posted_app, Htl, app_nil_r. exact Hp. }
  assert (Hadds : ∀ tl, adds (pre ++ tr ++ tl) = adds tl).
  { intros tl. cbn. rewrite adds_app. destruct Hq as [_ _ _ _ _ _ _ _ _ _ -> _].
    reflexivity. }
  assert (Hpre : event_run st st1 pre) by logged_only.
  assert (Htail : ∀ tl st3,
            trace st3 = trace st2 ++ tl →
            processed_transaction_ids st3 =
              processed_transaction_ids st2 ∪ list_to_set (adds tl) →
            relayed (tr ++ tl) = VStr <$> adds tl →
            web3 st3 = web3 st2 → from_block st3 = from_block st2 →
            n_is_connected st3 = n_is_connected st2 →
            n_chain_id st3 = n_chain_id st2 →
            n_block_number st3 = n_block_number st2 →
            n_get_logs st3 = n_get_logs st2 →
            queries tl = [] → loop_errors tl = [] →
            event_run st st3 (pre ++ tr ++ tl)).
  { intros tl st3 Ht Hpr Hb Hw3 Hfb Hic Hci Hbn Hgl Hqs Hle.
    apply (event_run_trans st st1 st3); [exact Hpre|].
    destruct Hq as [Qt Qp Qw Qf Qic Qci Qbn Qgl Qq _ Qa Qle]. split.
    - rewrite app_assoc, <- Qt. exact Ht.
    - rewrite adds_app, Qa, app_nil_l, <- Qp. exact Hpr.
    - rewrite adds_app, Qa, app_nil_l. exact Hb.
    - rewrite Hw3. exact Qw.
    - rewrite Hfb. exact Qf.
    - rewrite Hic. exact Qic.
    - rewrite Hci. exact Qci.
    - rewrite Hbn. exact Qbn.
    - rewrite Hgl. exact Qgl.
    - rewrite queries_app, Qq, Hqs. reflexivity.
    - rewrite loop_errors_app, Qle, Hle. reflexivity. }
  destruct (classify (http_post w (n_post st + pred m)%nat payload)) eqn:Hc.
  - destruct Hlast as [-> Hr].
    do 2 eexists. exists m. split; [reflexivity|].
    split; [apply (Htail [EDedupAdd (hex tx_id);
                          ELog DEBUG (LMarked (hex tx_id))]);
            try reflexivity|].
    + trace_eq.
    + cbn. set_solver.
    + rewrite relayed_app, Hr. reflexivity.
    + split; [exact Hm|]. split; [apply Hposted; reflexivity|].
      split; [exact Hn|]. split; [exact Hf|]. rewrite Hc. apply Hadds.
  - destruct Hlast as (-> & _ & Hr).
    do 2 eexists. exists m. split; [reflexivity|].
    split; [apply (Htail []); try reflexivity|].
    + rewrite app_nil_r. reflexivity.
    + cbn. set_solver.
    + rewrite app_nil_r. exact Hr.
    + split; [exact Hm|]. split; [apply Hposted; reflexivity|].
      split; [exact Hn|]. split; [exact Hf|]. rewrite Hc. apply Hadds.
  - destruct Hlast as (-> & Hr).
    do 2 eexists. exists m. split; [reflexivity|].
    split; [apply (Htail [ELog ERROR (LProcessError e)]); try reflexivity|].
    + cbn. set_solver.
    + rewrite relayed_app, Hr. reflexivity.
    + split; [exact Hm|]. split; [apply Hposted; reflexivity|].
      split; [exact Hn|]. split; [exact Hf|]. rewrite Hc. apply Hadds.
Qed.

(** Every call of [_process_event] returns normally. *)
Lemma process_event_run ev st :
  ∃ st' tr,
    process_event w ev st = (st', Ok tt) ∧
    event_run st st' tr ∧
    (length (adds tr) ≤ length (posted tr))%nat ∧
    n_post st' = (n_post st + length (posted tr))%nat ∧
    (∀ i, i ∈ adds tr → event_id ev = Some i) ∧
    (∀ p, p ∈ posted tr →
       ∃ tx_id h chain rcpt amt blk,
         ev = event_of tx_id h chain rcpt amt blk ∧
         p = payload_of tx_id h chain rcpt amt) ∧
    (∀ i, event_id ev = Some i → i ∈ processed_transaction_ids st →
       posted tr = [] ∧ adds tr = [] ∧ n_post st' = n_post st).
Proof.
  destruct ev as [[[[tx_id|] [chain|] [rcpt|] [amt|]]|] [h|] [blk|]].
  1: destruct (decide (hex tx_id ∈ processed_transaction_ids st)) as [Hseen|Hnew].
  2: { destruct (process_event_fresh tx_id h chain rcpt amt blk st Hnew)
         as (st' & tr & m & E & R & Hm & Hp & Hn & _ & Hlast).
       exists st', tr. split; [exact E|]. split; [exact R|].
       assert (Hadds : adds tr = [hex tx_id] ∨ adds tr = [])
         by (destruct (classify _) in Hlast; auto).
       split; [|split; [|split; [|split]]].
       - rewrite Hp, length_replicate. destruct Hadds as [-> | ->]; cbn; lia.
       - rewrite Hp, length_replicate. exact Hn.
       - intros i Hin. destruct Hadds as [Ha|Ha]; rewrite Ha in Hin.
         + apply list_elem_of_singleton in Hin. subst i. reflexivity.
         + apply elem_of_nil in Hin. contradiction.
       - intros p Hin. rewrite Hp in Hin.
         apply elem_of_replicate in Hin as [-> _].
         do 6 eexists. split; reflexivity.
       - intros i [= <-] Hin. contradiction. }
  all: rewrite process_event_eq; unfold caught, event_id;
    cbn [args transactionId transactionHash destinationChainId recipient
         amount blockNumber]; cbn zeta;
    try rewrite (bool_decide_eq_true_2 _ Hseen);
    try case_bool_decide;
    (do 2 eexists; split; [reflexivity|]; split; [logged_only|];
     split; [cbn; lia|]; split; [cbn; lia|]; split; [in_nil|];
     split; [in_nil|];
     first [discriminate
           | intros i [= <-] Hin; first [contradiction | repeat split]
           | intros i _ _; repeat split]).
Qed.

Lemma process_events_cons ev rest st s1 :
  process_event w ev st = (s1, Ok tt) →
  process_events w (ev :: rest) st = process_events w rest s1.
Proof.
  intros E. cbn [process_events]. unfold mbind, M_bind, bind. rewrite E.
  reflexivity.
Qed.

(** The [for] loop over the events of a cycle never raises either. *)
Lemma process_events_run evs st :
  ∃ st' tr,
    process_events w evs st = (st', Ok tt) ∧
    event_run st st' tr ∧
    (∀ i, i ∈ adds tr → ∃ ev, ev ∈ evs ∧ event_id ev = Some i) ∧
    (∀ p, p ∈ posted tr →
       ∃ tx_id h chain rcpt amt blk,
         event_of tx_id h chain rcpt amt blk ∈ evs ∧
         p = payload_of tx_id h chain rcpt amt).
Proof.
  revert st. induction evs as [|ev evs IH]; intros st.
  - exists st, []. split; [reflexivity|]. split; [apply event_run_refl|].
    split; in_nil.
  - destruct (process_event_run ev st)
      as (st1 & tr1 & E1 & R1 & _ & _ & A1 & P1 & _).
    destruct (IH st1) as (st2 & tr2 & E2 & R2 & A2 & P2).
    exists st2, (tr1 ++ tr2).
    split; [cbn [process_events]; unfold_m; rewrite E1; exact E2|].
    split; [eapply event_run_trans; eassumption|].
    split.
    + intros i Hin. rewrite adds_app in Hin. apply elem_of_app in Hin as [Hin|Hin].
      * exists ev. split; [left|auto].
      * destruct (A2 i Hin) as (ev' & ? & ?). exists ev'. split; [right|]; auto.
    + intros p Hin. rewrite posted_app in Hin.
      apply elem_of_app in Hin as [Hin|Hin].
      * destruct (P1 p Hin) as (t & h & c & r & a & b & -> & ->).
        do 6 eexists. split; [left|reflexivity].
      * destruct (P2 p Hin) as (t & h & c & r & a & b & ? & ->).
        do 6 eexists. split; [right; eassumption|reflexivity].
Qed.

(** Handling an event reads nothing of the state but the deduplication set
    and the number of POSTs made so far. *)
Lemma process_event_sim ev st st' :
  processed_transaction_ids st = processed_transaction_ids st' →
  n_post st = n_post st' →
  ∃ s s' tr,
    process_event w ev st = (s, Ok tt) ∧
    process_event w ev st' = (s', Ok tt) ∧
    trace s = trace st ++ tr ∧
    trace s' = trace st' ++ tr ∧
    processed_transaction_ids s = processed_transaction_ids s' ∧
    n_post s = n_post s'.
Proof.
  intros Hp Hn. rewrite !process_event_eq. unfold caught.
  destruct ev as [[[[tx_id|] [chain|] [rcpt|] [amt|]]|] [h|] [blk|]];
    cbn [args transactionId transactionHash destinationChainId recipient
         amount blockNumber]; cbn zeta; rewrite <- ?Hp;
    try case_bool_decide;
    try (do 3 eexists; split; [reflexivity|]; split; [reflexivity|];
         split; [trace_eq|]; split; [trace_eq|]; split; assumption).
  set (pre := λ s0, add_trace (EDedupLookup (hex tx_id))
                      (add_trace (ELog INFO (LNewEvent (HexBytes_hex h) (hex tx_id))) s0)).
  destruct (relay_transaction_data_sim w
              (event_data_of tx_id h chain rcpt amt blk) (pre st) (pre st') Hn)
    as (s & s' & r & tr & E & E' & T & T' & N).
  destruct (relay_transaction_data_quiet w
              (event_data_of tx_id h chain rcpt amt blk) (pre st))
    as (s1 & r1 & tr1 & E1 & Q1 & _).
  destruct (relay_transaction_data_quiet w
              (event_data_of tx_id h chain rcpt amt blk) (pre st'))
    as (s1' & r1' & tr1' & E1' & Q1' & _).
  rewrite E in E1. injection E1 as <- <-.
  rewrite E' in E1'. injection E1' as <- _.
  pose proof (qr_processed _ _ _ Q1) as P1.
  pose proof (qr_processed _ _ _ Q1') as P1'.
  cbn in P1, P1'. unfold pre in E, E', T, T'.
  rewrite E, E'.
  destruct r as [[|]|e];
    do 3 eexists; (split; [reflexivity|]); (split; [reflexivity|]);
    (split; [cbn; rewrite ?T; trace_eq|]);
    (split; [cbn; rewrite ?T'; trace_eq|]);
    cbn; split; congruence.
Qed.

Lemma process_events_sim evs st st' :
  processed_transaction_ids st = processed_transaction_ids st' →
  n_post st = n_post st' →
  ∃ s s' tr,
    process_events w evs st = (s, Ok tt) ∧
    process_events w evs st' = (s', Ok tt) ∧
    trace s = trace st ++ tr ∧
    trace s' = trace st' ++ tr.
Proof.
  revert st st'. induction evs as [|ev evs IH]; intros st st' Hp Hn.
  - exists st, st', []. rewrite !app_nil_r. repeat split.
  - destruct (process_event_sim ev st st' Hp Hn)
      as (s & s' & tr & E & E' & T & T' & P & N).
    destruct (IH s s' P N) as (s2 & s2' & tr2 & E2 & E2' & T2 & T2').
    exists s2, s2', (tr ++ tr2).
    rewrite (process_events_cons ev evs st s E),
      (process_events_cons ev evs st' s' E').
    split; [exact E2|]. split; [exact E2'|].
    rewrite T2, T2', T, T', <- !app_assoc. split; reflexivity.
Qed.

End Events.

Lemma node_run_trans st1 st2 st3 tr1 tr2 :
  node_run st1 st2 tr1 → node_run st2 st3 tr2 → node_run st1 st3 (tr1 ++ tr2).
Proof.
  intros [] []. split; try congruence.
  - rewrite app_assoc. congruence.
  - rewrite queries_app, nr_queries0, nr_queries1. reflexivity.
  - rewrite lookups_app, nr_lookups0, nr_lookups1. reflexivity.
  - rewrite adds_app, nr_adds0, nr_adds1. reflexivity.
  - rewrite relayed_app, nr_relayed0, nr_relayed1. reflexivity.
  - rewrite posted_app, nr_posted0, nr_posted1. reflexivity.
  - rewrite loop_errors_app, nr_loop_errors0, nr_loop_errors1. reflexivity.
Qed.

Section Connector.

Context (w : World).

Lemma is_connected_eq st :
  is_connected w st =
  if web3 st
  then (tick_is_connected (add_trace EIsConnected st),
        Ok (node_is_connected w (n_is_connected st)))
  else (st, Ok false).
Proof. unfold is_connected. unfold_m. destruct (web3 st); reflexivity. Qed.

Lemma is_connected_run st :
  ∃ st' b tr, is_connected w st = (st', Ok b) ∧ node_run st st' tr.
Proof.
  rewrite is_connected_eq. destruct (web3 st).
  - do 3 eexists. split; [reflexivity|node_only].
  - exists st, false, []. split; [reflexivity|].
    split; rewrite ?app_nil_r; reflexivity.
Qed.

Lemma connect_run st :
  ∃ st' tr, connect w st = (st', Ok tt) ∧ node_run st st' tr.
Proof.
  unfold connect, chain_id. unfold_m. cbn.
  rewrite is_connected_eq. cbn.
  destruct (node_is_connected w (n_is_connected st)); cbn.
  - destruct (node_chain_id w (n_chain_id st)); cbn;
      do 2 eexists; (split; [reflexivity|node_only]).
  - do 2 eexists. split; [reflexivity|node_only].
Qed.

Lemma block_number_eq st :
  block_number w st =
  let st1 := tick_block_number (add_trace EBlockNumber st) in
  match node_block_number w (n_block_number st) with
  | Ok z => (st1, Ok z)
  | Raise e => (st1, Raise e)
  end.
Proof.
  unfold block_number. unfold_m. cbn.
  destruct (node_block_number w (n_block_number st)); reflexivity.
Qed.

Lemma get_latest_block_number_run st :
  ∃ st' r tr, get_latest_block_number w st = (st', r) ∧ node_run st st' tr.
Proof.
  unfold get_latest_block_number. unfold_m.
  rewrite is_connected_eq. destruct (web3 st).
  - destruct (node_is_connected w (n_is_connected st)).
    + rewrite block_number_eq. cbn.
      destruct (node_block_number w (n_block_number st));
        do 3 eexists; (split; [reflexivity|node_only]).
    + do 3 eexists. split; [reflexivity|node_only].
  - do 3 eexists. split; [reflexivity|node_only].
Qed.

Lemma get_all_entries_eq f t st :
  get_all_entries w f t st =
  let st1 := tick_get_logs (add_trace (EGetLogs f t) st) in
  match node_get_logs w (n_get_logs st) f t with
  | Ok events => (st1, Ok events)
  | Raise e => (st1, Raise e)
  end.
Proof.
  unfold get_all_entries. unfold_m. cbn.
  destruct (node_get_logs w (n_get_logs st) f t); reflexivity.
Qed.

End Connector.

Lemma contiguous_app c c1 c2 qs1 qs2 :
  contiguous c qs1 c1 → contiguous c1 qs2 c2 → contiguous c (qs1 ++ qs2) c2.
Proof.
  revert c. induction qs1 as [|[f t] qs1 IH]; intros c; cbn.
  - intros ->. trivial.
  - intros (-> & Hle & Hrest) H2. repeat split; auto.
Qed.

Lemma loop_run_refl st : loop_run st st [].
Proof.
  split; rewrite ?app_nil_r; cbn; try reflexivity; try set_solver.
Qed.

Lemma loop_run_trans st1 st2 st3 tr1 tr2 :
  loop_run st1 st2 tr1 → loop_run st2 st3 tr2 → loop_run st1 st3 (tr1 ++ tr2).
Proof.
  intros [] []. split.
  - rewrite app_assoc. congruence.
  - rewrite adds_app, list_to_set_app_L. set_solver.
  - rewrite relayed_app, adds_app, fmap_app. congruence.
  - lia.
  - rewrite loop_errors_app, queries_app. intros [E1 E2]%app_eq_nil.
    eapply contiguous_app; eauto.
Qed.

Lemma inner_run_trans st1 st2 st3 tr1 tr2 :
  inner_run st1 st2 tr1 → inner_run st2 st3 tr2 →
  inner_run st1 st3 (tr1 ++ tr2).
Proof.
  intros [] []. split; try congruence.
  - rewrite app_assoc. congruence.
  - rewrite adds_app, list_to_set_app_L. set_solver.
  - rewrite relayed_app, adds_app, fmap_app. congruence.
  - rewrite loop_errors_app, ir_loop_errors0, ir_loop_errors1. reflexivity.
Qed.

Lemma node_inner_run st st' tr : node_run st st' tr → inner_run st st' tr.
Proof.
  intros []. split; try assumption.
  - rewrite nr_adds0. cbn. set_solver.
  - rewrite nr_adds0. assumption.
Qed.

Lemma event_inner_run st st' tr : event_run st st' tr → inner_run st st' tr.
Proof. intros []. split; assumption. Qed.

Lemma node_run_log st lvl msg :
  (∀ i sc, msg ≠ LRelayed i sc) → (∀ e, msg ≠ LMainLoopError e) →
  node_run st (add_trace (ELog lvl msg) st) [ELog lvl msg].
Proof.
  intros H1 H2. split; try reflexivity; cbn;
    destruct msg; try reflexivity; exfalso;
    first [eapply H1; reflexivity | eapply H2; reflexivity].
Qed.

Lemma node_run_sleep st n : node_run st (add_trace (ESleep n) st) [ESleep n].
Proof. split; reflexivity. Qed.

Lemma node_run_nap st n : node_run st (nap n st) (nap_trace n).
Proof.
  destruct (nap_cases n st) as [[-> ->]|[-> ->]].
  - apply node_run_sleep.
  - split; rewrite ?app_nil_r; reflexivity.
Qed.

Lemma naps_5 : naps 5.
Proof. unfold naps, sleep_limit. lia. Qed.

Lemma naps_60 : naps 60.
Proof. unfold naps, sleep_limit. lia. Qed.

Section Loop.

Context (w : World) (cfg : Config).

(** The [try] of the loop body, unfolded down to the calls it makes. *)
Lemma cycle_try_eq st :
  cycle_try w cfg st =
  match is_connected w st with
  | (s1, Raise e) => (s1, Raise e)
  | (s1, Ok false) =>
      match connect w (add_trace (ELog WARNING LConnectionLost) s1) with
      | (s2, Ok _) => (add_trace (ESleep 5) s2, Ok true)
      | (s2, Raise e) => (s2, Raise e)
      end
  | (s1, Ok true) =>
      match get_latest_block_number w s1 with
      | (s2, Raise e) => (s2, Raise e)
      | (s2, Ok to_block) =>
          if bool_decide (from_block s2 > to_block)
          then
            let s3 := nap (POLLING_INTERVAL_SECONDS cfg)
                        (add_trace
                           (ELog INFO (LNoNewBlocks (from_block s2) to_block))
                           s2) in
            match sleep_result (POLLING_INTERVAL_SECONDS cfg) with
            | Ok _ => (s3, Ok true)
            | Raise e => (s3, Raise e)
            end
          else
            match get_all_entries w (from_block s2) to_block s2 with
            | (s3, Raise e) => (s3, Raise e)
            | (s3, Ok events) =>
                match
                  match events with
                  | [] => (s3, Ok tt)
                  | _ => process_events w events
                           (add_trace
                              (ELog INFO (LFound (length events)
                                            (from_block s2) to_block)) s3)
                  end
                with
                | (s4, Ok _) => (set_from_block (to_block + 1) s4, Ok false)
                | (s4, Raise e) => (s4, Raise e)
                end
            end
      end
  end.
Proof.
  unfold cycle_try. unfold_m.
  generalize (is_connected w) (connect w) (get_latest_block_number w)
    (get_all_entries w) (process_events w).
  intros isc conn latest entries events.
  destruct (isc st) as [s1 [[|]|e]]; cbn; [| |reflexivity].
  - destruct (latest s1) as [s2 [to_block|e]]; [|reflexivity].
    case_bool_decide.
    { rewrite sleep_eq.
      destruct (sleep_result (POLLING_INTERVAL_SECONDS cfg)) as [[]|];
        reflexivity. }
    destruct (entries (from_block s2) to_block s2) as [s3 [evs|e]];
      [|reflexivity].
    destruct evs as [|ev evs]; [reflexivity|].
    destruct (events (ev :: evs) _) as [s4 [[]|e]]; reflexivity.
  - destruct (conn _) as [s2 [[]|e]]; [|reflexivity].
    rewrite (sleep_naps 5 s2 naps_5). reflexivity.
Qed.

Lemma cycle_eq st :
  cycle w cfg st =
  match cycle_try w cfg st with
  | (s1, Ok true) => (s1, Ok tt)
  | (s1, Ok false) =>
      (nap (POLLING_INTERVAL_SECONDS cfg) s1,
       sleep_result (POLLING_INTERVAL_SECONDS cfg))
  | (s1, Raise e) =>
      (nap (POLLING_INTERVAL_SECONDS cfg)
         (add_trace (ESleep 60)
            (add_trace (ELog ERROR (LMainLoopError e)) s1)),
       sleep_result (POLLING_INTERVAL_SECONDS cfg))
  end.
Proof.
  unfold cycle. unfold_m.
  destruct (cycle_try w cfg st) as [s1 [[|]|e]].
  - reflexivity.
  - apply sleep_eq.
  - rewrite (sleep_naps 60 _ naps_60). apply sleep_eq.
Qed.

(** The [try] of the loop body: how it ends, and what it leaves behind in
    each case. *)
Lemma cycle_try_run st :
  ∃ s1 r tr,
    cycle_try w cfg st = (s1, r) ∧
    inner_run st (set_from_block (from_block st) s1) tr ∧
    (∀ f t, (f, t) ∈ queries tr → f = from_block st) ∧
    match r with
    | Ok true =>
        from_block s1 = from_block st ∧ queries tr = [] ∧ lookups tr = [] ∧
        adds tr = [] ∧ posted tr = [] ∧ n_get_logs s1 = n_get_logs st ∧
        n_post s1 = n_post st ∧
        ∃ tr0 s, tr = tr0 ++ [ESleep s] ∧
                 (s = 5 ∨ s = POLLING_INTERVAL_SECONDS cfg)
    | Ok false =>
        ∃ to_block, from_block st ≤ to_block ∧
          queries tr = [(from_block st, to_block)] ∧
          from_block s1 = to_block + 1
    | Raise e => from_block s1 = from_block st
    end.
Proof.
  assert (Hid : ∀ s, set_from_block (from_block s) s = s) by (intros []; reflexivity).
  assert (Hfb : ∀ s s' tr, inner_run s s' tr →
            inner_run s (set_from_block (from_block s) s') tr).
  { intros s s' tr Hr. rewrite <- (ir_from_block _ _ _ Hr), Hid. exact Hr. }
  assert (Hnone : ∀ (qs : list (Z * Z)), qs = [] →
            ∀ f t, (f, t) ∈ qs → f = from_block st).
  { intros qs -> f t Hin. apply elem_of_nil in Hin. contradiction. }
  assert (Hone : ∀ (qs : list (Z * Z)) to_block,
            qs = [(from_block st, to_block)] →
            ∀ f t, (f, t) ∈ qs → f = from_block st).
  { intros qs to_block -> f t Hin. apply list_elem_of_singleton in Hin.
    congruence. }
  rewrite cycle_try_eq.
  destruct (is_connected_run w st) as (s1 & b & tr1 & E1 & N1). rewrite E1.
  destruct b.
  - destruct (get_latest_block_number_run w s1) as (s2 & r & tr2 & E2 & N2).
    rewrite E2.
    pose proof (node_run_trans _ _ _ _ _ N1 N2) as N12.
    destruct r as [to_block|e].
    2: { do 3 eexists. split; [reflexivity|].
         split; [apply Hfb, node_inner_run; exact N12|].
         split; [apply Hnone, (nr_queries _ _ _ N12)|].
         apply (nr_from_block _ _ _ N12). }
    rewrite (nr_from_block _ _ _ N12).
    case_bool_decide as Hidle.
    + pose proof (node_run_trans _ _ _ _ _ N12
                    (node_run_trans _ _ _ _ _
                       (node_run_log s2 INFO (LNoNewBlocks (from_block st) to_block)
                          ltac:(discriminate) ltac:(discriminate))
                       (node_run_nap _ (POLLING_INTERVAL_SECONDS cfg)))) as N.
      cbn zeta. unfold sleep_result, nap, nap_trace in N |- *.
      destruct (sleep_error (POLLING_INTERVAL_SECONDS cfg)) as [e'|];
        do 3 eexists; (split; [reflexivity|]);
        (split; [apply Hfb, node_inner_run; exact N|]);
        (split; [apply Hnone, (nr_queries _ _ _ N)|]).
      * apply (nr_from_block _ _ _ N).
      * destruct N as [_ _ Nf Npost Ngl Nq Nl Na _ Npd _].
        do 7 (split; [assumption|]).
        exists ((tr1 ++ tr2)
                ++ [ELog INFO (LNoNewBlocks (from_block st) to_block)]),
          (POLLING_INTERVAL_SECONDS cfg).
        split; [rewrite <- !app_assoc; reflexivity|right; reflexivity].
    + rewrite get_all_entries_eq. cbn zeta.
      set (s3 := tick_get_logs (add_trace (EGetLogs (from_block st) to_block) s2)).
      assert (I3 : inner_run s2 s3 [EGetLogs (from_block st) to_block]).
      { split; try reflexivity. cbn. set_solver. }
      pose proof (inner_run_trans _ _ _ _ _ (node_inner_run _ _ _ N12) I3) as I13.
      assert (Q13 : queries ((tr1 ++ tr2) ++ [EGetLogs (from_block st) to_block])
                    = [(from_block st, to_block)]).
      { rewrite queries_app, (nr_queries _ _ _ N12). reflexivity. }
      destruct (node_get_logs w (n_get_logs s2) (from_block st) to_block)
        as [evs|e].
      2: { do 3 eexists. split; [reflexivity|].
           split; [apply Hfb; exact I13|].
           split; [apply (Hone _ to_block), Q13|].
           apply (ir_from_block _ _ _ I13). }
      assert (∃ s4 tr4,
                match evs with
                | [] => (s3, Ok tt)
                | _ => process_events w evs
                         (add_trace (ELog INFO (LFound (length evs)
                                                  (from_block st) to_block)) s3)
                end = (s4, Ok tt) ∧ inner_run s3 s4 tr4 ∧ queries tr4 = [])
        as (s4 & tr4 & E4 & I4 & Q4).
      { destruct evs as [|ev evs].
        - exists s3, []. split; [reflexivity|]. split; [|reflexivity].
          split; rewrite ?app_nil_r; cbn; try reflexivity. set_solver.
        - destruct (process_events_run w (ev :: evs)
                      (add_trace (ELog INFO (LFound (length (ev :: evs))
                                               (from_block st) to_block)) s3))
            as (s4 & tr4 & E4 & R4 & _).
          exists s4, (ELog INFO (LFound (length (ev :: evs))
                                   (from_block st) to_block) :: tr4).
          split; [exact E4|].
          split.
          + eapply (inner_run_trans s3 _ s4 [_] tr4);
              [|apply event_inner_run; exact R4].
            apply node_inner_run, node_run_log; discriminate.
          + cbn. apply (er_queries _ _ _ R4). }
      rewrite E4.
      pose proof (inner_run_trans _ _ _ _ _ I13 I4) as I.
      assert (Q : queries (((tr1 ++ tr2) ++ [EGetLogs (from_block st) to_block])
                           ++ tr4) = [(from_block st, to_block)]).
      { rewrite queries_app, Q13, Q4. reflexivity. }
      do 3 eexists. split; [reflexivity|].
      split.
      { destruct I. split; cbn; first [eassumption | reflexivity]. }
      split; [apply (Hone _ to_block), Q|].
      exists to_block. split; [lia|]. split; [exact Q|reflexivity].
  - set (s1' := add_trace (ELog WARNING LConnectionLost) s1).
    destruct (connect_run w s1') as (s2 & tr2 & E2 & N2). rewrite E2.
    pose proof (node_run_trans _ _ _ _ _ N1
                  (node_run_trans _ _ _ _ _
                     (node_run_log s1 WARNING LConnectionLost
                        ltac:(discriminate) ltac:(discriminate))
                     (node_run_trans _ _ _ _ _ N2 (node_run_sleep _ 5)))) as N.
    do 3 eexists. split; [reflexivity|].
    split; [apply Hfb, node_inner_run; exact N|].
    split; [apply Hnone, (nr_queries _ _ _ N)|].
    destruct N as [_ _ Nf Npost Ngl Nq Nl Na _ Npd _].
    do 7 (split; [assumption|]).
    exists (tr1 ++ [ELog WARNING LConnectionLost] ++ tr2), 5.
    split; [rewrite <- !app_assoc; reflexivity|left; reflexivity].
Qed.

(** An iteration that finds the node connected, reads a height not below
    the cursor and gets its logs: the events are processed and the cursor
    moves past the height. *)
Lemma cycle_scan st to_block events :
  web3 st = true →
  node_is_connected w (n_is_connected st) = true →
  node_is_connected w (S (n_is_connected st)) = true →
  node_block_number w (n_block_number st) = Ok to_block →
  from_block st ≤ to_block →
  node_get_logs w (n_get_logs st) (from_block st) to_block = Ok events →
  cycle w cfg st =
  (nap (POLLING_INTERVAL_SECONDS cfg)
     (set_from_block (to_block + 1)
        (process_events w events
           (announce events (from_block st) to_block (scan_start st to_block))).1),
   sleep_result (POLLING_INTERVAL_SECONDS cfg)).
Proof.
  intros Hw Hc1 Hc2 Hh Hle Hlogs.
  rewrite cycle_eq, cycle_try_eq, is_connected_eq, Hw, Hc1.
  unfold get_latest_block_number. unfold_m.
  rewrite is_connected_eq. cbn [web3 tick_is_connected add_trace n_is_connected].
  rewrite Hw, Hc2, block_number_eq.
  cbn [web3 tick_is_connected add_trace n_is_connected n_block_number].
  rewrite Hh. cbn [from_block tick_block_number add_trace tick_is_connected].
  rewrite bool_decide_eq_false_2 by lia.
  rewrite get_all_entries_eq. cbn [n_get_logs tick_block_number add_trace
    tick_is_connected]. rewrite Hlogs. fold (scan_start st to_block).
  destruct events as [|ev events]; [reflexivity|].
  cbn [announce].
  destruct (process_events_run w (ev :: events)
              (add_trace (ELog INFO (LFound (length (ev :: events))
                                       (from_block st) to_block))
                 (scan_start st to_block)))
    as (s4 & tr4 & E4 & _).
  rewrite E4. reflexivity.
Qed.

(** The same iteration, by what it leaves behind. *)
Lemma cycle_scan_run st to_block events :
  web3 st = true →
  node_is_connected w (n_is_connected st) = true →
  node_is_connected w (S (n_is_connected st)) = true →
  node_block_number w (n_block_number st) = Ok to_block →
  from_block st ≤ to_block →
  node_get_logs w (n_get_logs st) (from_block st) to_block = Ok events →
  let s0 := announce events (from_block st) to_block (scan_start st to_block) in
  ∃ st' s1 tr,
    cycle w cfg st = (st', sleep_result (POLLING_INTERVAL_SECONDS cfg)) ∧
    process_events w events s0 = (s1, Ok tt) ∧
    event_run s0 s1 tr ∧
    processed_transaction_ids s0 = processed_transaction_ids st ∧
    n_post s0 = n_post st ∧
    n_post st' = n_post s1 ∧
    processed_transaction_ids st' = processed_transaction_ids s1 ∧
    posted (trace st') = posted (trace st) ++ posted tr ∧
    queries (trace st') = queries (trace st) ++ [(from_block st, to_block)] ∧
    from_block st' = to_block + 1 ∧
    web3 st' = true ∧
    n_is_connected st' = S (S (n_is_connected st)) ∧
    n_block_number st' = S (n_block_number st) ∧
    n_get_logs st' = S (n_get_logs st).
Proof.
  intros Hw Hc1 Hc2 Hh Hle Hlogs s0.
  rewrite (cycle_scan st to_block events Hw Hc1 Hc2 Hh Hle Hlogs). fold s0.
  destruct (process_events_run w events s0) as (s1 & tr & E & R & _).
  rewrite E. cbn [fst]. eexists; exists s1, tr.
  assert (Hs0 : ∃ l, trace s0 = trace st ++ l ∧ posted l = [] ∧
                     queries l = [(from_block st, to_block)]).
  { subst s0. destruct events; eexists; (split; [trace_eq|]);
      split; reflexivity. }
  destruct Hs0 as (l & Hl & Hpl & Hql).
  pose proof R as [Rt Rp Rb Rw Rf Rc Rci Rbn Rgl Rq Rle].
  split; [reflexivity|]. split; [reflexivity|]. split; [exact R|].
  split; [subst s0; destruct events; reflexivity|].
  split; [subst s0; destruct events; reflexivity|].
  destruct (nap_cases (POLLING_INTERVAL_SECONDS cfg)
              (set_from_block (to_block + 1) s1)) as [[-> _]|[-> _]].
  all: split; [reflexivity|]; split; [reflexivity|].
  all: cbn [trace add_trace set_from_block from_block web3 n_is_connected
            n_block_number n_get_logs].
  all: split;
    [rewrite ?posted_app, Rt, Hl, !posted_app, Hpl; cbn;
     rewrite ?app_nil_r; reflexivity|].
  all: split;
    [rewrite ?queries_app, Rt, Hl, !queries_app, Hql, Rq; cbn;
     rewrite ?app_nil_r; reflexivity|].
  all: split; [reflexivity|].
  all: split; [rewrite Rw; subst s0; destruct events; exact Hw|].
  all: split; [rewrite Rc; subst s0; destruct events; reflexivity|].
  all: split; [rewrite Rbn; subst s0; destruct events; reflexivity|].
  all: rewrite Rgl; subst s0; destruct events; reflexivity.
Qed.

(** One iteration, whatever its last sleep does: its log queries start at
    the cursor; and when the polling interval is a length [time.sleep]
    takes, it returns normally and the last thing it does is sleep. *)
Lemma cycle_run st :
  ∃ st' r tr,
    cycle w cfg st = (st', r) ∧ loop_run st st' tr ∧
    (∀ f t, (f, t) ∈ queries tr → f = from_block st) ∧
    (naps (POLLING_INTERVAL_SECONDS cfg) →
       r = Ok tt ∧
       ∃ tr0 s, tr = tr0 ++ [ESleep s] ∧
                (s = 5 ∨ s = POLLING_INTERVAL_SECONDS cfg)).
Proof.
  rewrite cycle_eq.
  destruct (cycle_try_run st) as (s1 & r & tr & E & I & Hq0 & Hr). rewrite E.
  destruct I as [It Ip Ib _ Ie]. cbn in It, Ip.
  destruct r as [[|]|e].
  - destruct Hr as (Hf & Hq & _ & _ & _ & _ & _ & Hlast).
    exists s1, (Ok tt), tr. split; [reflexivity|]. split.
    { split; try assumption; [lia|]. intros _. rewrite Hq. cbn. exact Hf. }
    split; [exact Hq0|]. intros _. split; [reflexivity|exact Hlast].
  - destruct Hr as (to_block & Hle & Hq & Hf).
    destruct (node_run_nap s1 (POLLING_INTERVAL_SECONDS cfg))
      as [Nt Np Nf _ _ Nq _ Na Nr _ Nle].
    eexists _, _, (tr ++ nap_trace (POLLING_INTERVAL_SECONDS cfg)).
    split; [reflexivity|]. split; [split|].
    + rewrite Nt, It, app_assoc. reflexivity.
    + rewrite Np, Ip, adds_app, Na, app_nil_r. reflexivity.
    + rewrite relayed_app, adds_app, Ib, Nr, Na, !app_nil_r. reflexivity.
    + rewrite Nf. lia.
    + intros _. rewrite queries_app, Hq, Nq, Nf. cbn. repeat split; lia.
    + split.
      * intros f t. rewrite queries_app, Nq, app_nil_r. apply Hq0.
      * intros Hn. split; [apply sleep_result_naps, Hn|].
        rewrite (nap_trace_naps _ Hn). eexists _, _.
        split; [reflexivity|right; reflexivity].
  - set (s2 := add_trace (ESleep 60)
                 (add_trace (ELog ERROR (LMainLoopError e)) s1)).
    destruct (node_run_nap s2 (POLLING_INTERVAL_SECONDS cfg))
      as [Nt Np Nf _ _ Nq _ Na Nr _ Nle].
    eexists _, _, (tr ++ [ELog ERROR (LMainLoopError e); ESleep 60]
                      ++ nap_trace (POLLING_INTERVAL_SECONDS cfg)).
    split; [reflexivity|]. split; [split|].
    + rewrite Nt. subst s2. cbn. rewrite It, <- !app_assoc. reflexivity.
    + rewrite Np. subst s2. cbn [processed_transaction_ids add_trace].
      rewrite Ip, !adds_app, Na. cbn. rewrite app_nil_r. reflexivity.
    + rewrite !relayed_app, !adds_app, Ib, Nr, Na. cbn.
      rewrite !app_nil_r. reflexivity.
    + rewrite Nf. subst s2. cbn. lia.
    + rewrite !loop_errors_app. cbn. intros H.
      apply app_eq_nil in H as [_ H]. discriminate H.
    + split.
      * intros f t. rewrite !queries_app, Nq. cbn. rewrite app_nil_r.
        apply Hq0.
      * intros Hn. split; [apply sleep_result_naps, Hn|].
        rewrite (nap_trace_naps _ Hn).
        exists (tr ++ [ELog ERROR (LMainLoopError e); ESleep 60]),
          (POLLING_INTERVAL_SECONDS cfg).
        split; [rewrite <- !app_assoc; reflexivity|right; reflexivity].
Qed.

Lemma cycles_S n st s1 :
  cycle w cfg st = (s1, Ok tt) →
  cycles w cfg (S n) st = cycles w cfg n s1.
Proof.
  intros E. cbn [cycles]. unfold mbind, M_bind, bind. rewrite E. reflexivity.
Qed.

(** An iteration that raises ends the loop. *)
Lemma cycles_raise n st s1 e :
  cycle w cfg st = (s1, Raise e) →
  cycles w cfg (S n) st = (s1, Raise e).
Proof.
  intros E. cbn [cycles]. unfold mbind, M_bind, bind. rewrite E. reflexivity.
Qed.

(** Any number of iterations, however they end; none of them raises when
    the polling interval is a length [time.sleep] takes. *)
Lemma cycles_run n st :
  ∃ st' r tr,
    cycles w cfg n st = (st', r) ∧ loop_run st st' tr ∧
    (naps (POLLING_INTERVAL_SECONDS cfg) → r = Ok tt).
Proof.
  revert st. induction n as [|n IH]; intros st.
  - exists st, (Ok tt), []. split; [reflexivity|].
    split; [apply loop_run_refl|reflexivity].
  - destruct (cycle_run st) as (s1 & r1 & tr1 & E1 & L1 & _ & H1).
    destruct r1 as [[]|e].
    + destruct (IH s1) as (s2 & r2 & tr2 & E2 & L2 & H2).
      exists s2, r2, (tr1 ++ tr2). split.
      * rewrite (cycles_S n st s1 E1). exact E2.
      * split; [eapply loop_run_trans; eassumption|exact H2].
    + exists s1, (Raise e), tr1. split; [exact (cycles_raise n st s1 e E1)|].
      split; [exact L1|]. intros Hn. apply (H1 Hn).
Qed.

End Loop.

(** The polling interval of [sample_config], 15 s, can be slept. *)
Lemma naps_sample_config : naps (POLLING_INTERVAL_SECONDS sample_config).
Proof. unfold naps, sleep_limit. cbn. lia. Qed.

(** * Properties *)

(** ** The relay client *)

(** C1, as the code has it: [relay_transaction_data] returns [True] exactly
    when, within its three attempts, a response passes [raise_for_status]
    (a status outside 400..599) after failed attempts only; a 4xx or 5xx
    response and a [RequestException] raised by the POST are the failed
    attempts, and it returns [False] exactly when all three attempts
    failed. *)
Theorem relay_true_iff_accepted_within_budget
    (w : World) (event_data : Dict) (st : State)
    (tx_id chain rcpt amt tx_hash : PyVal) :
  dict_find event_data "transactionId" = Some tx_id →
  dict_find event_data "destinationChainId" = Some chain →
  dict_find event_data "recipient" = Some rcpt →
  dict_find event_data "amount" = Some amt →
  dict_find event_data "transactionHash" = Some tx_hash →
  let payload := relay_payload tx_id chain rcpt amt tx_hash in
  let o := λ k, http_post w (n_post st + k)%nat payload in
  ∃ st' r,
    relay_transaction_data w event_data st = (st', r) ∧
    (r = Ok true ↔
       ∃ k, (k < 3)%nat ∧ accepted (o k) ∧ ∀ j, (j < k)%nat → failed (o j)) ∧
    (r = Ok false ↔ failed (o 0%nat) ∧ failed (o 1%nat) ∧ failed (o 2%nat)).
Proof.
  intros E1 E2 E3 E4 E5 payload o.
  destruct (relay_transaction_data_run w event_data st _ _ _ _ _ E1 E2 E3 E4 E5)
    as (m & st' & r & tr & Hrun & _ & Hm & Hf & Hlast & _).
  fold payload in Hf, Hlast. fold (o (pred m)) in Hlast.
  exists st', r. split; [exact Hrun|].
  assert (Hfo : ∀ j, (S j < m)%nat → failed (o j)) by exact Hf.
  split; split.
  - intros ->. exists (pred m). split; [lia|].
    destruct (classify (o (pred m))) eqn:Hc.
    + split; [apply classify_accepted; eauto|]. intros j Hj. apply Hfo. lia.
    + destruct Hlast as [[=] _].
    + destruct Hlast as [[=] _].
  - intros (k & Hk & Hacc & Hfail).
    assert (k = pred m) as ->.
    { destruct (Nat.lt_trichotomy k (pred m)) as [Hlt|[Heq|Hgt]]; [|exact Heq|].
      - exfalso. apply (accepted_not_failed _ Hacc). apply Hfo. lia.
      - exfalso. pose proof (Hfail _ Hgt) as [e He]%classify_failed.
        rewrite He in Hlast. destruct Hlast as (_ & Hm3 & _). lia. }
    apply classify_accepted in Hacc as [sc Hsc]. rewrite Hsc in Hlast.
    apply Hlast.
  - intros ->. destruct (classify (o (pred m))) eqn:Hc.
    + destruct Hlast as [[=] _].
    + destruct Hlast as (_ & -> & _).
      repeat split; [apply Hfo; lia..|apply classify_failed; eauto].
    + destruct Hlast as [[=] _].
  - intros (F0 & F1 & F2).
    assert (failed (o (pred m))) as [e He]%classify_failed.
    { destruct m as [|[|[|[|m]]]]; [lia|assumption..|lia]. }
    rewrite He in Hlast. apply Hlast.
Qed.

(** An endpoint that answers 304 to every POST: the relay returns [True]
    after a single POST, although no 2xx response was received and the 3xx
    response did not count as a failed attempt. *)
Lemma relay_accepts_304 :
  ∃ st', relay_transaction_data (world_status 304) event_data_a fresh_state
         = (st', Ok true) ∧
         posted (trace st') = [payload_a] ∧
         (∀ n p, http_post (world_status 304) n p = Responded 304) ∧
         ¬ is_2xx 304.
Proof.
  eexists. split; [vm_compute; reflexivity|].
  split; [reflexivity|]. split; [reflexivity|].
  unfold is_2xx. lia.
Qed.

Lemma relay_true_iff_accepted_within_budget_witness :
  ∃ st' r,
    relay_transaction_data world_retry event_data_a fresh_state = (st', r) ∧
    (r = Ok true ↔
       ∃ k, (k < 3)%nat ∧
            accepted (http_post world_retry (0 + k)%nat payload_a) ∧
            ∀ j, (j < k)%nat → failed (http_post world_retry (0 + j)%nat payload_a)) ∧
    (r = Ok false ↔
       failed (http_post world_retry 0%nat payload_a) ∧
       failed (http_post world_retry 1%nat payload_a) ∧
       failed (http_post world_retry 2%nat payload_a)).
Proof.
  exact (relay_true_iff_accepted_within_budget world_retry event_data_a
           fresh_state _ _ _ _ _ eq_refl eq_refl eq_refl eq_refl eq_refl).
Defined.

(** C2, as the code has it: a relay makes [m] POSTs of the same body with
    [1 ≤ m ≤ 3], whatever the endpoint does, sleeping 1 s after the first and
    2 s after the second when they are followed by another attempt; when
    every attempt fails, by a 4xx or 5xx response or a [RequestException]
    raised by the POST, it makes exactly 3 POSTs, with sleeps of 1 s and 2 s
    between them and none after the last, and returns [False]; an accepted
    attempt is the last one. *)
Theorem relay_retry_bound
    (w : World) (event_data : Dict) (st : State)
    (tx_id chain rcpt amt tx_hash : PyVal) :
  dict_find event_data "transactionId" = Some tx_id →
  dict_find event_data "destinationChainId" = Some chain →
  dict_find event_data "recipient" = Some rcpt →
  dict_find event_data "amount" = Some amt →
  dict_find event_data "transactionHash" = Some tx_hash →
  let payload := relay_payload tx_id chain rcpt amt tx_hash in
  let o := λ k, http_post w (n_post st + k)%nat payload in
  ∃ st' r tr (m : nat),
    relay_transaction_data w event_data st = (st', r) ∧
    trace st' = trace st ++ tr ∧
    (1 ≤ m ≤ 3)%nat ∧
    posted tr = replicate m payload ∧
    posts_and_sleeps tr = take (2 * m - 1) (backoff_schedule payload) ∧
    (failed (o 0%nat) → failed (o 1%nat) → failed (o 2%nat) →
       m = 3%nat ∧ r = Ok false ∧
       posts_and_sleeps tr = backoff_schedule payload) ∧
    (∀ k, (k < 3)%nat → accepted (o k) → (∀ j, (j < k)%nat → failed (o j)) →
       m = S k ∧ r = Ok true).
Proof.
  intros E1 E2 E3 E4 E5 payload o.
  destruct (relay_transaction_data_run w event_data st _ _ _ _ _ E1 E2 E3 E4 E5)
    as (m & st' & r & tr & Hrun & Hq & Hm & Hf & Hlast & _ & Hp & Hps).
  fold payload in Hf, Hlast, Hp, Hps. fold (o (pred m)) in Hlast.
  assert (Hfo : ∀ j, (S j < m)%nat → failed (o j)) by exact Hf.
  exists st', r, tr, m.
  split; [exact Hrun|]. split; [apply (qr_trace _ _ _ Hq)|].
  split; [exact Hm|]. split; [exact Hp|]. split; [exact Hps|].
  split.
  - intros F0 F1 F2.
    assert (failed (o (pred m))) as [e He]%classify_failed.
    { destruct m as [|[|[|[|m]]]]; [lia|assumption..|lia]. }
    rewrite He in Hlast. destruct Hlast as (-> & -> & _).
    repeat split. exact Hps.
  - intros k Hk Hacc Hfail.
    assert (k = pred m) as ->.
    { destruct (Nat.lt_trichotomy k (pred m)) as [Hlt|[Heq|Hgt]]; [|exact Heq|].
      - exfalso. apply (accepted_not_failed _ Hacc). apply Hfo. lia.
      - exfalso. pose proof (Hfail _ Hgt) as [e He]%classify_failed.
        rewrite He in Hlast. destruct Hlast as (_ & Hm3 & _). lia. }
    apply classify_accepted in Hacc as [sc Hsc]. rewrite Hsc in Hlast.
    split; [lia|apply Hlast].
Qed.

Lemma relay_retry_bound_witness :
  ∃ st',
    relay_transaction_data world_failing event_data_a fresh_state
      = (st', Ok false) ∧
    posts_and_sleeps (trace st') =
      [EPost payload_a; ESleep 1; EPost payload_a; ESleep 2; EPost payload_a].
Proof.
  destruct (relay_retry_bound world_failing event_data_a fresh_state
              _ _ _ _ _ eq_refl eq_refl eq_refl eq_refl eq_refl)
    as (st' & r & tr & m & Hrun & Htr & _ & _ & _ & Hfail & _).
  destruct Hfail as (_ & -> & Hps).
  - cbn. lia.
  - cbn. reflexivity.
  - cbn. lia.
  - exists st'. split; [exact Hrun|]. rewrite Htr. exact Hps.
Defined.

(** An endpoint that answers 304 to every POST: no attempt gets a 2xx
    response, yet the endpoint is contacted once, not three times, nothing is
    slept, and the relay returns [True]. *)
Lemma always_304_single_post :
  (∀ n p, http_post (world_status 304) n p = Responded 304) ∧
  ¬ is_2xx 304 ∧
  ∃ st',
    relay_transaction_data (world_status 304) event_data_a fresh_state
      = (st', Ok true) ∧
    posts_and_sleeps (trace st') = [EPost payload_a] ∧
    length (posted (trace st')) ≠ 3%nat.
Proof.
  split; [reflexivity|]. split; [unfold is_2xx; lia|].
  eexists. split; [vm_compute; reflexivity|].
  split; [reflexivity|]. cbn. lia.
Qed.

(** ** The request body *)

(** [str] loses nothing: reading the decimal string back gives the integer
    it was written from, whatever its size. *)
Lemma int_of_str_str (n : Z) : int_of_str (str n) = Some n.
Proof.
  unfold int_of_str, str. rewrite NilZero.isi.
  - cbn. rewrite DecimalZ.of_to. reflexivity.
  - destruct n; cbn; try discriminate.
    intros [= H]. exact (DecimalPos.Unsigned.to_uint_nonnil _ H).
  - destruct n; cbn; try discriminate.
    intros [= H]. exact (DecimalPos.Unsigned.to_uint_nonnil _ H).
Qed.

(** An amount no 64-bit float holds exactly is written digit for digit. *)
Example str_uint256_max :
  str (2 ^ 256 - 1) =
  "115792089237316195423570985008687907853269984665640564039457584007913129639935"%string.
Proof. vm_compute. reflexivity. Qed.

(** C7: every body POSTed while an event is processed has exactly the five
    keys [sourceTransactionId], [destinationChainId], [recipient], [amount],
    [sourceTransactionHash], in this order and without [blockNumber]; its
    values are the event's fields (the id as [bytes.hex()] writes it, the
    hash as [HexBytes.hex()] does, after [0x]), and its [amount] is the
    decimal string of the event's integer amount, from which the integer is
    read back exactly. *)
Theorem posted_body_five_keys_decimal_amount
    (w : World) (ev : RawEvent) (st st' : State) (r : Result unit)
    (tr : list Effect) (payload : Dict) :
  process_event w ev st = (st', r) →
  trace st' = trace st ++ tr →
  payload ∈ posted tr →
  dict_keys payload = payload_keys ∧
  ¬ ("blockNumber" ∈ dict_keys payload)%string ∧
  ∃ tx_id h chain rcpt amt blk,
    ev = event_of tx_id h chain rcpt amt blk ∧
    payload = [("sourceTransactionId", VStr (hex tx_id));
               ("destinationChainId", VInt chain);
               ("recipient", VStr rcpt);
               ("amount", VStr (str amt));
               ("sourceTransactionHash", VStr (HexBytes_hex h))] ∧
    dict_find payload "amount" = Some (VStr (str amt)) ∧
    int_of_str (str amt) = Some amt.
Proof.
  intros Hrun Htr Hin.
  destruct (process_event_run w ev st)
    as (st1 & tr1 & E1 & R1 & _ & _ & _ & P1 & _).
  rewrite Hrun in E1. injection E1 as -> ->.
  pose proof (er_trace _ _ _ R1) as Htr1. rewrite Htr in Htr1.
  apply app_inv_head in Htr1. subst tr1.
  destruct (P1 _ Hin) as (tx_id & h & chain & rcpt & amt & blk & -> & ->).
  split; [reflexivity|].
  split.
  { cbn. rewrite !elem_of_cons, elem_of_nil. intros H.
    repeat destruct H as [H|H]; try discriminate. exact H. }
  do 6 eexists. split; [reflexivity|]. split; [reflexivity|].
  split; [reflexivity|]. apply int_of_str_str.
Qed.

Lemma posted_body_five_keys_decimal_amount_witness :
  dict_keys payload_a = payload_keys ∧
  ¬ ("blockNumber" ∈ dict_keys payload_a)%string ∧
  ∃ tx_id h chain rcpt amt blk,
    event_a = event_of tx_id h chain rcpt amt blk ∧
    payload_a = [("sourceTransactionId", VStr (hex tx_id));
                 ("destinationChainId", VInt chain);
                 ("recipient", VStr rcpt);
                 ("amount", VStr (str amt));
                 ("sourceTransactionHash", VStr (HexBytes_hex h))] ∧
    dict_find payload_a "amount" = Some (VStr (str amt)) ∧
    int_of_str (str amt) = Some amt.
Proof.
  apply (posted_body_five_keys_decimal_amount (world_status 200) event_a
           fresh_state
           (process_event (world_status 200) event_a fresh_state).1
           (process_event (world_status 200) event_a fresh_state).2
           (trace (process_event (world_status 200) event_a fresh_state).1)).
  - vm_compute. reflexivity.
  - vm_compute. reflexivity.
  - vm_compute. left.
Defined.

(** ** The deduplication set *)

(** C3: over any number of iterations of the loop, however the last of them
    ends, the ids added to the deduplication set are the ids whose relay
    returned [True], one add per successful relay and in the same order, and
    the set afterwards is the set before plus these ids.  For one event that
    reaches the relay: the set gains the event's id when the relay returns
    [True] and is unchanged when it returns [False] or raises. *)
Theorem dedup_insert_iff_relay_success :
  (∀ (w : World) (cfg : Config) (n : nat) (st st' : State) (r : Result unit)
     (tr : list Effect),
     cycles w cfg n st = (st', r) →
     trace st' = trace st ++ tr →
     relayed tr = VStr <$> adds tr ∧
     (∀ i, i ∈ adds tr ↔ VStr i ∈ relayed tr) ∧
     (∀ i, i ∈ processed_transaction_ids st' ↔
           i ∈ processed_transaction_ids st ∨ VStr i ∈ relayed tr)) ∧
  (∀ (w : World) (tx_id h : list byte) (chain : Z) (rcpt : string)
     (amt blk : Z) (st st2 : State) (r : Result bool),
     hex tx_id ∉ processed_transaction_ids st →
     relay_transaction_data w (event_data_of tx_id h chain rcpt amt blk)
       (add_trace (EDedupLookup (hex tx_id))
          (add_trace (ELog INFO (LNewEvent (HexBytes_hex h) (hex tx_id))) st))
       = (st2, r) →
     ∃ st',
       process_event w (event_of tx_id h chain rcpt amt blk) st = (st', Ok tt) ∧
       processed_transaction_ids st' =
         match r with
         | Ok true => {[hex tx_id]} ∪ processed_transaction_ids st
         | _ => processed_transaction_ids st
         end).
Proof.
  split.
  - intros w cfg n st st' r tr Hrun Htr.
    destruct (cycles_run w cfg n st) as (s & r' & tr' & E & L & _).
    rewrite Hrun in E. injection E as <- <-.
    destruct L as [Lt Lp Lb _ _].
    rewrite Htr in Lt. apply app_inv_head in Lt. subst tr'.
    assert (Hiff : ∀ i, i ∈ adds tr ↔ VStr i ∈ relayed tr).
    { intros i. rewrite Lb. split.
      - intros Hin. apply list_elem_of_fmap. eauto.
      - intros (j & [= ->] & Hin)%list_elem_of_fmap. exact Hin. }
    split; [exact Lb|]. split; [exact Hiff|].
    intros i. rewrite Lp, elem_of_union, elem_of_list_to_set, Hiff. tauto.
  - intros w tx_id h chain rcpt amt blk st st2 r Hnew Hrelay.
    rewrite process_event_eq. unfold event_of.
    cbn [args transactionId transactionHash destinationChainId recipient
         amount blockNumber]. cbn zeta.
    rewrite bool_decide_eq_false_2 by exact Hnew.
    destruct (relay_transaction_data_quiet w
                (event_data_of tx_id h chain rcpt amt blk)
                (add_trace (EDedupLookup (hex tx_id))
                   (add_trace (ELog INFO (LNewEvent (HexBytes_hex h) (hex tx_id))) st)))
      as (s & r' & tr & E & Q & _).
    rewrite Hrelay in E. injection E as <- <-.
    pose proof (qr_processed _ _ _ Q) as Hp. cbn in Hp.
    rewrite Hrelay. destruct r as [[|]|e]; eexists; (split; [reflexivity|]);
      cbn; rewrite Hp; reflexivity.
Qed.

Lemma dedup_insert_iff_relay_success_witness :
  ∃ st',
    process_event world_failing event_a fresh_state = (st', Ok tt) ∧
    processed_transaction_ids st' = processed_transaction_ids fresh_state.
Proof.
  apply (proj2 dedup_insert_iff_relay_success world_failing id_a hash_a 5
           "0xBB"%string 1000 12 fresh_state
           (relay_transaction_data world_failing event_data_a
              (add_trace (EDedupLookup (hex id_a))
                 (add_trace (ELog INFO (LNewEvent (HexBytes_hex hash_a) (hex id_a)))
                    fresh_state))).1
           (Ok false)).
  - apply not_elem_of_empty.
  - vm_compute. reflexivity.
Defined.

(** C4, as the code has it: processing an event whose id is in the
    deduplication set makes no POST; and an event with every field present
    and an id not yet in the set, returned by the log queries of two
    iterations in a row, is POSTed exactly once in total when the endpoint
    accepts that POST (the polling interval being a length [time.sleep]
    takes, so that the second iteration is reached). *)
Theorem skip_on_duplicate :
  (∀ (w : World) (ev : RawEvent) (st : State) (i : string),
     event_id ev = Some i →
     i ∈ processed_transaction_ids st →
     ∃ st' tr,
       process_event w ev st = (st', Ok tt) ∧
       trace st' = trace st ++ tr ∧
       posted tr = [] ∧
       n_post st' = n_post st) ∧
  (∀ (w : World) (cfg : Config) (st : State) (tx_id h : list byte) (chain : Z)
     (rcpt : string) (amt blk h1 h2 : Z),
     let ev := event_of tx_id h chain rcpt amt blk in
     let payload := payload_of tx_id h chain rcpt amt in
     naps (POLLING_INTERVAL_SECONDS cfg) →
     web3 st = true →
     (∀ n, node_is_connected w n = true) →
     node_block_number w (n_block_number st) = Ok h1 →
     node_block_number w (S (n_block_number st)) = Ok h2 →
     from_block st ≤ h1 → h1 < h2 →
     node_get_logs w (n_get_logs st) (from_block st) h1 = Ok [ev] →
     node_get_logs w (S (n_get_logs st)) (h1 + 1) h2 = Ok [ev] →
     hex tx_id ∉ processed_transaction_ids st →
     accepted (http_post w (n_post st) payload) →
     ∃ st',
       cycles w cfg 2 st = (st', Ok tt) ∧
       queries (trace st') =
         queries (trace st) ++ [(from_block st, h1); (h1 + 1, h2)] ∧
       posted (trace st') = posted (trace st) ++ [payload]).
Proof.
  split.
  - intros w ev st i Hid Hin.
    destruct (process_event_run w ev st)
      as (st' & tr & E & R & _ & _ & _ & _ & S).
    destruct (S i Hid Hin) as (Hp & _ & Hn).
    exists st', tr. repeat split; try assumption. apply (er_trace _ _ _ R).
  - intros w cfg st tx_id h chain rcpt amt blk h1 h2 ev payload
      Hnaps Hw Hc Hh1 Hh2 Hle Hlt Hl1 Hl2 Hnew Hacc.
    destruct (cycle_scan_run w cfg st h1 [ev] Hw (Hc _) (Hc _) Hh1 Hle Hl1)
      as (st1 & s1 & tr1 & E1 & P1 & R1 & Hp0 & Hn0 & _ & Hp1 & Hposted1
          & Hq1 & Hf1 & Hw1 & _ & Hb1 & Hg1).
    rewrite (sleep_result_naps _ Hnaps) in E1.
    set (s0 := announce [ev] (from_block st) h1 (scan_start st h1)) in *.
    (* the first presentation: one accepted POST, the id is added *)
    assert (Hnew0 : hex tx_id ∉ processed_transaction_ids s0)
      by (rewrite Hp0; exact Hnew).
    destruct (process_event_fresh w tx_id h chain rcpt amt blk s0 Hnew0)
      as (s1' & tr1' & m & E & R & Hm & Hposted & _ & Hf & Hlast).
    fold ev payload in E, Hposted, Hf, Hlast.
    assert (m = 1%nat) as ->.
    { destruct m as [|[|m]]; [lia|reflexivity|]. exfalso.
      apply (accepted_not_failed _ Hacc).
      specialize (Hf 0%nat ltac:(lia)).
      rewrite Hn0, Nat.add_0_r in Hf. exact Hf. }
    cbn [pred] in Hlast. rewrite Hn0, Nat.add_0_r in Hlast.
    apply classify_accepted in Hacc as [sc Hsc]. rewrite Hsc in Hlast.
    rewrite (process_events_cons w ev [] s0 s1' E) in P1.
    injection P1 as <-.
    assert (tr1 = tr1') as <-.
    { pose proof (er_trace _ _ _ R1) as T1. rewrite (er_trace _ _ _ R) in T1.
      apply app_inv_head in T1. congruence. }
    assert (Hseen : hex tx_id ∈ processed_transaction_ids st1).
    { rewrite Hp1, (er_processed _ _ _ R), Hlast. set_solver. }
    (* the second presentation: skipped *)
    rewrite <- Hb1 in Hh2. rewrite <- Hg1, <- Hf1 in Hl2.
    destruct (cycle_scan_run w cfg st1 h2 [ev] Hw1 (Hc _) (Hc _) Hh2
                ltac:(lia) Hl2)
      as (st2 & s2 & tr2 & E2 & P2 & R2 & Hp2 & _ & _ & _ & Hposted2
          & Hq2 & _).
    rewrite (sleep_result_naps _ Hnaps) in E2.
    set (s0' := announce [ev] (from_block st1) h2 (scan_start st1 h2)) in *.
    destruct (process_event_run w ev s0')
      as (s2' & tr2' & E' & R' & _ & _ & _ & _ & S).
    destruct (S (hex tx_id) eq_refl ltac:(rewrite Hp2; exact Hseen))
      as (Hnone & _).
    rewrite (process_events_cons w ev [] s0' s2' E') in P2.
    injection P2 as <-.
    assert (tr2 = tr2') as <-.
    { pose proof (er_trace _ _ _ R2) as T2. rewrite (er_trace _ _ _ R') in T2.
      apply app_inv_head in T2. congruence. }
    exists st2. split.
    + rewrite (cycles_S w cfg 1 st st1 E1), (cycles_S w cfg 0 st1 st2 E2).
      reflexivity.
    + split.
      * rewrite Hq2, Hq1, Hf1, <- app_assoc. reflexivity.
      * rewrite Hposted2, Hposted1, Hnone, Hposted, app_nil_r. reflexivity.
Qed.

(** The endpoint rejects the first POST of [event_a] with a 500 and accepts
    the retry; the event comes back from the log query of the next
    iteration.  The two iterations make two POSTs of its body, not one. *)
Lemma duplicate_event_two_posts :
  ∃ st',
    cycles world_retry sample_config 2 fresh_state = (st', Ok tt) ∧
    node_get_logs world_retry 0 10 12 = Ok [event_a] ∧
    node_get_logs world_retry 1 13 13 = Ok [event_a] ∧
    queries (trace st') = [(10, 12); (13, 13)] ∧
    posted (trace st') = [payload_a; payload_a] ∧
    length (posted (trace st')) ≠ 1%nat.
Proof.
  eexists. split; [vm_compute; reflexivity|].
  repeat split; try reflexivity. cbn. lia.
Qed.

Lemma skip_on_duplicate_witness :
  ∃ st',
    cycles (world_status 200) sample_config 2 fresh_state = (st', Ok tt) ∧
    queries (trace st') = [(10, 12); (13, 13)] ∧
    posted (trace st') = [payload_a].
Proof.
  apply (proj2 skip_on_duplicate (world_status 200) sample_config fresh_state
           id_a hash_a 5 "0xBB"%string 1000 12 12 13).
  - exact naps_sample_config.
  - reflexivity.
  - reflexivity.
  - reflexivity.
  - reflexivity.
  - cbn. lia.
  - lia.
  - reflexivity.
  - reflexivity.
  - apply not_elem_of_empty.
  - cbn. lia.
Defined.

(** ** The cursor *)

Lemma contiguous_le c qs c' : contiguous c qs c' → c ≤ c'.
Proof.
  revert c. induction qs as [|[f t] qs IH]; intros c; cbn.
  - intros ->. lia.
  - intros (-> & Hle & Hrest). apply IH in Hrest. lia.
Qed.

(** Contiguous ranges cover every block between the two cursors once, and no
    other block. *)
Lemma contiguous_times_scanned c qs c' b :
  contiguous c qs c' →
  times_scanned b qs = if bool_decide (c ≤ b < c') then 1%nat else 0%nat.
Proof.
  unfold times_scanned. revert c. induction qs as [|[f t] qs IH]; intros c; cbn.
  - intros ->. rewrite bool_decide_eq_false_2 by lia. reflexivity.
  - intros (-> & Hle & Hrest). pose proof (contiguous_le _ _ _ Hrest) as Hc'.
    specialize (IH _ Hrest). cbn [List.filter fst snd].
    destruct (Z.leb_spec c b), (Z.leb_spec b t); cbn [andb length];
      rewrite IH; repeat case_bool_decide; lia.
Qed.

Lemma contiguous_consecutive c qs c' i f1 t1 f2 t2 :
  contiguous c qs c' →
  qs !! i = Some (f1, t1) → qs !! S i = Some (f2, t2) →
  f1 ≤ t1 ∧ f2 = t1 + 1.
Proof.
  revert c i. induction qs as [|[f t] qs IH]; intros c i; cbn; [discriminate|].
  intros (-> & Hle & Hrest) H1 H2. destruct i as [|i].
  - injection H1 as -> ->. destruct qs as [|[f' t'] qs]; [discriminate|].
    cbn in H2. injection H2 as -> ->. destruct Hrest as (-> & _). lia.
  - eapply IH; eauto.
Qed.

(** C5: over any iterations of the loop the cursor never decreases; and when
    none of them ended in the error handler, the ranges of the log queries
    start at the cursor, each next one starts at the block after the end of
    the one before, each is non-empty, and every block is scanned once if it
    lies between the first cursor and the last, and not at all otherwise. *)
Theorem scanned_ranges_contiguous
    (w : World) (cfg : Config) (n : nat) (st st' : State) (r : Result unit)
    (tr : list Effect) :
  cycles w cfg n st = (st', r) →
  trace st' = trace st ++ tr →
  from_block st ≤ from_block st' ∧
  (loop_errors tr = [] →
     contiguous (from_block st) (queries tr) (from_block st') ∧
     (∀ i f1 t1 f2 t2,
        queries tr !! i = Some (f1, t1) → queries tr !! S i = Some (f2, t2) →
        f1 ≤ t1 ∧ f2 = t1 + 1) ∧
     (∀ b, times_scanned b (queries tr) =
           if bool_decide (from_block st ≤ b < from_block st')
           then 1%nat else 0%nat)).
Proof.
  intros Hrun Htr.
  destruct (cycles_run w cfg n st) as (s & r' & tr' & E & L & _).
  rewrite Hrun in E. injection E as -> ->.
  pose proof (lr_trace _ _ _ L) as Htr'. rewrite Htr in Htr'.
  apply app_inv_head in Htr'. subst tr'.
  split; [apply (lr_cursor _ _ _ L)|].
  intros Hok. pose proof (lr_ranges _ _ _ L Hok) as Hc.
  split; [exact Hc|]. split.
  - intros i f1 t1 f2 t2. apply (contiguous_consecutive _ _ _ _ _ _ _ _ Hc).
  - intros b. apply (contiguous_times_scanned _ _ _ _ Hc).
Qed.

Lemma scanned_ranges_contiguous_witness :
  queries (trace (cycles (world_status 200) sample_config 3 fresh_state).1)
    = [(10, 12); (13, 13); (14, 14)] ∧
  contiguous 10 [(10, 12); (13, 13); (14, 14)] 15 ∧
  times_scanned 13 [(10, 12); (13, 13); (14, 14)] = 1%nat.
Proof.
  destruct (scanned_ranges_contiguous (world_status 200) sample_config 3
              fresh_state
              (cycles (world_status 200) sample_config 3 fresh_state).1
              (cycles (world_status 200) sample_config 3 fresh_state).2
              (trace (cycles (world_status 200) sample_config 3 fresh_state).1))
    as (_ & H).
  - vm_compute. reflexivity.
  - vm_compute. reflexivity.
  - destruct H as (Hc & _ & Hb); [vm_compute; reflexivity|].
    split; [vm_compute; reflexivity|]. split; [exact Hc|]. exact (Hb 13).
Defined.

(** C6: an iteration that finds the node connected and reads a height below
    the cursor issues no log query, neither looks up nor adds an id, and
    leaves the deduplication set and the cursor as they were, however it
    ends; when the polling interval is a length [time.sleep] takes, it logs,
    sleeps the polling interval and returns normally. *)
Theorem idle_cycle
    (w : World) (cfg : Config) (st s1 s2 : State) (to_block : Z) :
  is_connected w st = (s1, Ok true) →
  get_latest_block_number w s1 = (s2, Ok to_block) →
  from_block st > to_block →
  ∃ st' r tr,
    cycle w cfg st = (st', r) ∧
    trace st' = trace st ++ tr ∧
    queries tr = [] ∧ lookups tr = [] ∧ adds tr = [] ∧
    n_get_logs st' = n_get_logs st ∧
    processed_transaction_ids st' = processed_transaction_ids st ∧
    from_block st' = from_block st ∧
    (naps (POLLING_INTERVAL_SECONDS cfg) →
       r = Ok tt ∧
       trace st' = trace s2 ++ [ELog INFO (LNoNewBlocks (from_block st) to_block);
                                ESleep (POLLING_INTERVAL_SECONDS cfg)]).
Proof.
  intros Hc Hh Hidle.
  destruct (is_connected_run w st) as (s1' & b & tr1 & E1 & N1).
  rewrite Hc in E1. injection E1 as <- <-.
  destruct (get_latest_block_number_run w s1) as (s2' & r & tr2 & E2 & N2).
  rewrite Hh in E2. injection E2 as <- <-.
  pose proof (node_run_trans _ _ _ _ _ N1 N2) as N12.
  rewrite cycle_eq, cycle_try_eq, Hc, Hh, (nr_from_block _ _ _ N12).
  rewrite bool_decide_eq_true_2 by exact Hidle. cbn zeta.
  destruct N12 as [Nt Np Nf _ Ng Nq Nl Na _ _ _].
  unfold sleep_result, nap.
  destruct (sleep_error (POLLING_INTERVAL_SECONDS cfg)) as [e|] eqn:Hs.
  - eexists _, _, ((tr1 ++ tr2)
                   ++ [ELog INFO (LNoNewBlocks (from_block st) to_block);
                       ELog ERROR (LMainLoopError e); ESleep 60]).
    split; [reflexivity|].
    split; [cbn; rewrite Nt, <- !app_assoc; reflexivity|].
    split; [rewrite queries_app, Nq; reflexivity|].
    split; [rewrite lookups_app, Nl; reflexivity|].
    split; [rewrite adds_app, Na; reflexivity|].
    split; [exact Ng|]. split; [exact Np|]. split; [exact Nf|].
    intros Hn. apply sleep_error_naps in Hn. congruence.
  - eexists _, _, ((tr1 ++ tr2)
                   ++ [ELog INFO (LNoNewBlocks (from_block st) to_block);
                       ESleep (POLLING_INTERVAL_SECONDS cfg)]).
    split; [reflexivity|].
    split; [cbn; rewrite Nt, <- !app_assoc; reflexivity|].
    split; [rewrite queries_app, Nq; reflexivity|].
    split; [rewrite lookups_app, Nl; reflexivity|].
    split; [rewrite adds_app, Na; reflexivity|].
    split; [exact Ng|]. split; [exact Np|]. split; [exact Nf|].
    intros _. split; [reflexivity|trace_eq].
Qed.

Lemma idle_cycle_witness :
  ∃ st' tr,
    cycle world_behind sample_config fresh_state = (st', Ok tt) ∧
    trace st' = trace fresh_state ++ tr ∧
    tr = [EIsConnected; EIsConnected; EBlockNumber;
          ELog INFO (LNoNewBlocks 10 5); ESleep 15] ∧
    from_block st' = 10.
Proof.
  destruct (idle_cycle world_behind sample_config fresh_state
              (is_connected world_behind fresh_state).1
              (get_latest_block_number world_behind
                 (is_connected world_behind fresh_state).1).1
              5)
    as (st' & r & tr & E & Ht & Hq & _ & _ & _ & _ & Hf & Hn).
  - vm_compute. reflexivity.
  - vm_compute. reflexivity.
  - cbn. lia.
  - destruct (Hn naps_sample_config) as [-> Ht2].
    exists st', tr. split; [exact E|]. split; [exact Ht|].
    split; [|exact Hf]. rewrite Ht2 in Ht. exact (eq_sym Ht).
Defined.



(** ** Failures while an event is processed *)

(** An event with an absent field, not skipped as a duplicate, makes the
    body of [_process_event] raise [KeyError]. *)
Lemma incomplete_event_raises (w : World) (ev : RawEvent) (st : State) :
  incomplete ev →
  (∀ i, event_id ev = Some i → i ∉ processed_transaction_ids st) →
  ∃ s1 k, process_event_body w ev st = (s1, Raise (KeyError k)).
Proof.
  intros Hinc Hnew. unfold process_event_body, field, is_processed.
  destruct ev as [[[[tx_id|] [chain|] [rcpt|] [amt|]]|] [h|] [blk|]];
    try (exfalso; eapply Hinc; reflexivity);
    unfold_m; cbn;
    try rewrite (bool_decide_eq_false_2 _ (Hnew _ eq_refl));
    do 2 eexists; reflexivity.
Qed.

(** C9: an exception raised while one event is processed is caught by the
    handler of [_process_event], which logs it, and the loop over the events
    goes on with the next one; an event with an absent field raises such an
    exception.  In a scanning iteration whose log query returns three events
    the second of which has an absent field, the cursor moves to the block
    after the scanned range and the POSTs made are those that processing the
    first and the third alone makes; when the first and the third are
    complete, not yet processed and of different ids, each of them is POSTed
    (once to three times, by the retry policy).  The iteration returns
    normally when the polling interval is a length [time.sleep] takes. *)
Theorem event_failure_isolated :
  (∀ (w : World) (ev : RawEvent) (rest : list RawEvent) (st s1 : State)
     (e : exn),
     process_event_body w ev st = (s1, Raise e) →
     process_event w ev st
       = (add_trace (ELog ERROR (LProcessError e)) s1, Ok tt) ∧
     process_events w (ev :: rest) st
       = process_events w rest (add_trace (ELog ERROR (LProcessError e)) s1)) ∧
  (∀ (w : World) (ev : RawEvent) (st : State),
     incomplete ev →
     (∀ i, event_id ev = Some i → i ∉ processed_transaction_ids st) →
     ∃ s1 k, process_event_body w ev st = (s1, Raise (KeyError k))) ∧
  (∀ (w : World) (cfg : Config) (st : State) (to_block : Z)
     (ev1 ev2 ev3 : RawEvent),
     let s0 := announce [ev1; ev2; ev3] (from_block st) to_block
                 (scan_start st to_block) in
     web3 st = true →
     node_is_connected w (n_is_connected st) = true →
     node_is_connected w (S (n_is_connected st)) = true →
     node_block_number w (n_block_number st) = Ok to_block →
     from_block st ≤ to_block →
     node_get_logs w (n_get_logs st) (from_block st) to_block
       = Ok [ev1; ev2; ev3] →
     incomplete ev2 →
     ∃ st' r s13 tr13,
       cycle w cfg st = (st', r) ∧
       (naps (POLLING_INTERVAL_SECONDS cfg) → r = Ok tt) ∧
       from_block st' = to_block + 1 ∧
       process_events w [ev1; ev3] s0 = (s13, Ok tt) ∧
       trace s13 = trace s0 ++ tr13 ∧
       posted (trace st') = posted (trace st) ++ posted tr13) ∧
  (∀ (w : World) (cfg : Config) (st : State) (to_block : Z)
     (tx1 h1 : list byte) (chain1 : Z) (rcpt1 : string) (amt1 blk1 : Z)
     (ev2 : RawEvent)
     (tx3 h3 : list byte) (chain3 : Z) (rcpt3 : string) (amt3 blk3 : Z),
     let ev1 := event_of tx1 h1 chain1 rcpt1 amt1 blk1 in
     let ev3 := event_of tx3 h3 chain3 rcpt3 amt3 blk3 in
     web3 st = true →
     node_is_connected w (n_is_connected st) = true →
     node_is_connected w (S (n_is_connected st)) = true →
     node_block_number w (n_block_number st) = Ok to_block →
     from_block st ≤ to_block →
     node_get_logs w (n_get_logs st) (from_block st) to_block
       = Ok [ev1; ev2; ev3] →
     incomplete ev2 →
     hex tx1 ∉ processed_transaction_ids st →
     hex tx3 ∉ processed_transaction_ids st →
     hex tx1 ≠ hex tx3 →
     ∃ st' r (m1 m3 : nat),
       cycle w cfg st = (st', r) ∧
       (naps (POLLING_INTERVAL_SECONDS cfg) → r = Ok tt) ∧
       from_block st' = to_block + 1 ∧
       (1 ≤ m1 ≤ 3)%nat ∧ (1 ≤ m3 ≤ 3)%nat ∧
       posted (trace st') =
         posted (trace st)
         ++ replicate m1 (payload_of tx1 h1 chain1 rcpt1 amt1)
         ++ replicate m3 (payload_of tx3 h3 chain3 rcpt3 amt3)).
Proof.
  assert (Hquiet : ∀ w ev2 sa, incomplete ev2 →
            ∃ sb trb, process_event w ev2 sa = (sb, Ok tt) ∧
                      event_run sa sb trb ∧ posted trb = [] ∧ adds trb = [] ∧
                      n_post sb = n_post sa).
  { intros w ev2 sa Hinc.
    destruct (process_event_run w ev2 sa)
      as (sb & trb & Eb & Rb & Hlenb & Hnb & _ & Hpb & _).
    assert (Hpostb : posted trb = []).
    { destruct (posted trb) as [|p l] eqn:Hl; [reflexivity|]. exfalso.
      destruct (Hpb p ltac:(left)) as (t & h & c & r & a & b & Hev & _).
      exact (Hinc _ _ _ _ _ _ Hev). }
    exists sb, trb. split; [exact Eb|]. split; [exact Rb|].
    split; [exact Hpostb|]. rewrite Hpostb in Hlenb, Hnb. split.
    - destruct (adds trb); [reflexivity|]. cbn in Hlenb. lia.
    - cbn in Hnb. lia. }
  split; [|split; [|split]].
  - intros w ev rest st s1 e Hraise.
    assert (E : process_event w ev st
                = (add_trace (ELog ERROR (LProcessError e)) s1, Ok tt)).
    { unfold process_event, try_except. rewrite Hraise. reflexivity. }
    split; [exact E|]. apply process_events_cons. exact E.
  - intros w ev st. apply incomplete_event_raises.
  - intros w cfg st to_block ev1 ev2 ev3 s0 Hw Hc1 Hc2 Hh Hle Hlogs Hinc.
    destruct (cycle_scan_run w cfg st to_block [ev1; ev2; ev3]
                Hw Hc1 Hc2 Hh Hle Hlogs)
      as (st' & s1 & tr & E & P & R & _ & _ & _ & _ & Hposted & _ & Hf & _).
    fold s0 in P, R.
    destruct (process_event_run w ev1 s0) as (sa & tra & Ea & Ra & _).
    destruct (Hquiet w ev2 sa Hinc) as (sb & trb & Eb & Rb & Hpb & Hab & Hnb).
    assert (Hpsb : processed_transaction_ids sa = processed_transaction_ids sb).
    { rewrite (er_processed _ _ _ Rb), Hab. cbn. set_solver. }
    destruct (process_event_sim w ev3 sa sb Hpsb (eq_sym Hnb))
      as (sc & sc' & tr3 & Ec & Ec' & Tc & Tc' & _).
    rewrite (process_events_cons w ev1 _ s0 sa Ea),
      (process_events_cons w ev2 _ sa sb Eb),
      (process_events_cons w ev3 _ sb sc' Ec') in P.
    injection P as <-.
    assert (tr = tra ++ trb ++ tr3) as ->.
    { pose proof (er_trace _ _ _ R) as T.
      rewrite Tc', (er_trace _ _ _ Rb), (er_trace _ _ _ Ra), <- !app_assoc in T.
      apply app_inv_head in T. congruence. }
    exists st', (sleep_result (POLLING_INTERVAL_SECONDS cfg)), sc, (tra ++ tr3).
    split; [exact E|]. split; [apply sleep_result_naps|]. split; [exact Hf|].
    split.
    { rewrite (process_events_cons w ev1 _ s0 sa Ea),
        (process_events_cons w ev3 _ sa sc Ec). reflexivity. }
    split; [rewrite Tc, (er_trace _ _ _ Ra), <- app_assoc; reflexivity|].
    rewrite Hposted, !posted_app, Hpb. reflexivity.
  - intros w cfg st to_block tx1 h1 chain1 rcpt1 amt1 blk1 ev2
      tx3 h3 chain3 rcpt3 amt3 blk3 ev1 ev3
      Hw Hc1 Hc2 Hh Hle Hlogs Hinc Hnew1 Hnew3 Hne.
    destruct (cycle_scan_run w cfg st to_block [ev1; ev2; ev3]
                Hw Hc1 Hc2 Hh Hle Hlogs)
      as (st' & s1 & tr & E & P & R & Hp0 & _ & _ & _ & Hposted & _ & Hf & _).
    set (s0 := announce [ev1; ev2; ev3] (from_block st) to_block
                 (scan_start st to_block)) in *.
    (* the first event *)
    destruct (process_event_fresh w tx1 h1 chain1 rcpt1 amt1 blk1 s0
                ltac:(rewrite Hp0; exact Hnew1))
      as (sa & tra & m1 & Ea & Ra & Hm1 & Hpa & _ & _ & Hlast1).
    fold ev1 in Ea.
    assert (Haddsa : ∀ i, i ∈ adds tra → i = hex tx1).
    { intros i Hin. destruct (classify _) in Hlast1; rewrite Hlast1 in Hin;
        first [apply list_elem_of_singleton in Hin; exact Hin
              | apply elem_of_nil in Hin; contradiction]. }
    (* the second event: nothing POSTed, nothing added *)
    destruct (process_event_run w ev2 sa)
      as (sb & trb & Eb & Rb & Hlenb & _ & _ & Hpb & _).
    assert (Hpostb : posted trb = []).
    { destruct (posted trb) as [|p l] eqn:Hl; [reflexivity|]. exfalso.
      destruct (Hpb p ltac:(left)) as (t & h & c & r & a & b & Hev & _).
      exact (Hinc _ _ _ _ _ _ Hev). }
    assert (Haddsb : adds trb = []).
    { rewrite Hpostb in Hlenb. destruct (adds trb); [reflexivity|].
      cbn in Hlenb. lia. }
    (* the third event *)
    assert (Hnew3b : hex tx3 ∉ processed_transaction_ids sb).
    { rewrite (er_processed _ _ _ Rb), Haddsb, (er_processed _ _ _ Ra), Hp0.
      rewrite !not_elem_of_union, !elem_of_list_to_set.
      repeat split; [exact Hnew3| |apply not_elem_of_nil].
      intros Hin. apply Haddsa in Hin. congruence. }
    destruct (process_event_fresh w tx3 h3 chain3 rcpt3 amt3 blk3 sb Hnew3b)
      as (sc & trc & m3 & Ec & Rc & Hm3 & Hpc & _).
    fold ev3 in Ec.
    rewrite (process_events_cons w ev1 _ s0 sa Ea),
      (process_events_cons w ev2 _ sa sb Eb),
      (process_events_cons w ev3 _ sb sc Ec) in P.
    injection P as <-.
    assert (tr = tra ++ trb ++ trc) as ->.
    { pose proof (er_trace _ _ _ R) as T.
      rewrite (er_trace _ _ _ Rc), (er_trace _ _ _ Rb), (er_trace _ _ _ Ra),
        <- !app_assoc in T.
      apply app_inv_head in T. congruence. }
    exists st', (sleep_result (POLLING_INTERVAL_SECONDS cfg)), m1, m3.
    split; [exact E|]. split; [apply sleep_result_naps|]. split; [exact Hf|].
    split; [exact Hm1|]. split; [exact Hm3|].
    rewrite Hposted, !posted_app, Hpa, Hpostb, Hpc. reflexivity.
Qed.

Lemma event_failure_isolated_witness :
  ∃ st' (m1 m3 : nat),
    cycle world_three sample_config fresh_state = (st', Ok tt) ∧
    from_block st' = 12 + 1 ∧
    (1 ≤ m1 ≤ 3)%nat ∧ (1 ≤ m3 ≤ 3)%nat ∧
    posted (trace st') =
      posted (trace fresh_state) ++ replicate m1 payload_a
      ++ replicate m3 payload_b.
Proof.
  destruct (proj2 (proj2 (proj2 event_failure_isolated)) world_three
              sample_config fresh_state 12
              id_a hash_a 5 "0xBB"%string 1000 12 event_broken_c
              id_b hash_a 5 "0xBB"%string 7 12)
    as (st' & r & m1 & m3 & E & Hr & H).
  - reflexivity.
  - reflexivity.
  - reflexivity.
  - reflexivity.
  - cbn. lia.
  - reflexivity.
  - intros tx_id h chain rcpt amt blk. discriminate.
  - apply not_elem_of_empty.
  - apply not_elem_of_empty.
  - discriminate.
  - rewrite (Hr naps_sample_config) in E. exists st', m1, m3.
    split; [exact E|exact H].
Defined.

(** C10: the gate reads nothing but the id.  Once an event with some id has
    been relayed successfully, processing any event with the same id, in
    that state or in any later one, makes no POST, whatever its other
    fields; and the set of a later state of the loop contains the set of an
    earlier one. *)
Theorem dedup_keyed_on_transaction_id :
  (∀ (w : World) (ev1 ev2 : RawEvent) (i : string) (st st1 st2 : State)
     (tr1 : list Effect),
     event_id ev1 = Some i →
     event_id ev2 = Some i →
     process_event w ev1 st = (st1, Ok tt) →
     trace st1 = trace st ++ tr1 →
     VStr i ∈ relayed tr1 →
     processed_transaction_ids st1 ⊆ processed_transaction_ids st2 →
     ∃ st3 tr2,
       process_event w ev2 st2 = (st3, Ok tt) ∧
       trace st3 = trace st2 ++ tr2 ∧
       posted tr2 = [] ∧
       n_post st3 = n_post st2) ∧
  (∀ (w : World) (cfg : Config) (n : nat) (st : State),
     processed_transaction_ids st
     ⊆ processed_transaction_ids (cycles w cfg n st).1).
Proof.
  split.
  - intros w ev1 ev2 i st st1 st2 tr1 Hid1 Hid2 Hrun Htr Hrel Hsub.
    destruct (process_event_run w ev1 st) as (s & tr & E & R & _).
    rewrite Hrun in E. injection E as <-.
    pose proof (er_trace _ _ _ R) as T. rewrite Htr in T.
    apply app_inv_head in T. subst tr.
    assert (Hin : i ∈ processed_transaction_ids st1).
    { rewrite (er_processed _ _ _ R), elem_of_union, elem_of_list_to_set.
      right. rewrite (er_balanced _ _ _ R) in Hrel.
      apply list_elem_of_fmap in Hrel as (j & [= ->] & Hj). exact Hj. }
    destruct (process_event_run w ev2 st2)
      as (st3 & tr2 & E2 & R2 & _ & _ & _ & _ & S).
    destruct (S i Hid2 (Hsub _ Hin)) as (Hp & _ & Hn).
    exists st3, tr2. repeat split; try assumption. apply (er_trace _ _ _ R2).
  - intros w cfg n st.
    destruct (cycles_run w cfg n st) as (st' & r & tr & E & L & _).
    rewrite E. cbn [fst]. rewrite (lr_processed _ _ _ L).
    apply union_subseteq_l.
Qed.

Lemma dedup_keyed_on_transaction_id_witness :
  ∃ st3 tr2,
    process_event (world_status 200) event_a_variant
      (process_event (world_status 200) event_a fresh_state).1 = (st3, Ok tt) ∧
    trace st3 =
      trace (process_event (world_status 200) event_a fresh_state).1 ++ tr2 ∧
    posted tr2 = [] ∧
    n_post st3 = n_post (process_event (world_status 200) event_a fresh_state).1.
Proof.
  apply (proj1 dedup_keyed_on_transaction_id (world_status 200) event_a
           event_a_variant (hex id_a) fresh_state
           (process_event (world_status 200) event_a fresh_state).1
           (process_event (world_status 200) event_a fresh_state).1
           (trace (process_event (world_status 200) event_a fresh_state).1)).
  - reflexivity.
  - reflexivity.
  - vm_compute. reflexivity.
  - vm_compute. reflexivity.
  - vm_compute. left.
  - reflexivity.
Defined.

(** * Further properties *)

(** ** StateManager *)

(** X1: after [mark_as_processed i], [is_processed j] answers [True] exactly
    for [i] and for the ids that were in the set before; a lookup leaves the
    set as it is, and marking an id a second time changes nothing. *)
Theorem mark_then_lookup (i j : string) (st : State) :
  let st1 := (mark_as_processed i st).1 in
  (is_processed j st1).2
    = Ok (bool_decide (j = i ∨ j ∈ processed_transaction_ids st)) ∧
  processed_transaction_ids (is_processed j st1).1
    = processed_transaction_ids st1 ∧
  processed_transaction_ids (mark_as_processed i st1).1
    = processed_transaction_ids st1.
Proof.
  unfold mark_as_processed, is_processed.
  unfold mbind, M_bind, bind, log, emit, modify, gets. cbn.
  split; [|split].
  - f_equal. apply bool_decide_ext. set_solver.
  - reflexivity.
  - set_solver.
Qed.

(** ** BlockchainConnector *)

(** X2: [connect] never raises.  Afterwards the connector holds a provider
    exactly when the node answered the connection check and the chain id read
    for the log line succeeded; the deduplication set and the cursor are
    untouched, and nothing is POSTed or slept. *)
Theorem connect_outcome (w : World) (st : State) :
  ∃ st' tr,
    connect w st = (st', Ok tt) ∧
    trace st' = trace st ++ tr ∧
    web3 st' = node_is_connected w (n_is_connected st)
               && (if node_chain_id w (n_chain_id st) is Ok _ then true else false) ∧
    processed_transaction_ids st' = processed_transaction_ids st ∧
    from_block st' = from_block st ∧
    posts_and_sleeps tr = [] ∧
    queries tr = [].
Proof.
  unfold connect, chain_id.
  unfold mbind, M_bind, bind, mret, M_ret, ret, raise, try_except, log, emit,
    modify, gets, is_Exception.
  cbn. rewrite is_connected_eq. cbn.
  destruct (node_is_connected w (n_is_connected st)); cbn.
  - destruct (node_chain_id w (n_chain_id st)); cbn;
      do 2 eexists; (split; [reflexivity|]); (split; [trace_eq|]);
      repeat split.
  - do 2 eexists. split; [reflexivity|]. split; [trace_eq|]. repeat split.
Qed.

(** ** The relay client's argument *)

(** X3: [relay_transaction_data] reads five keys of its argument and nothing
    else: two dicts that agree on them are relayed alike (so [blockNumber] is
    ignored), and a dict that lacks one of them raises [KeyError] before
    anything is logged or POSTed. *)
Theorem relay_reads_five_keys (w : World) (st : State) :
  (∀ d1 d2 : Dict,
     (∀ k, k ∈ event_data_keys → dict_find d1 k = dict_find d2 k) →
     relay_transaction_data w d1 st = relay_transaction_data w d2 st) ∧
  (∀ (d : Dict) (k : string),
     k ∈ event_data_keys → dict_find d k = None →
     ∃ k', k' ∈ event_data_keys ∧ dict_find d k' = None ∧
           relay_transaction_data w d st = (st, Raise (KeyError k'))).
Proof.
  split.
  - intros d1 d2 H. rewrite !relay_transaction_data_eq.
    rewrite <- !H by (unfold event_data_keys; set_solver). reflexivity.
  - intros d k Hk Hnone. rewrite relay_transaction_data_eq.
    destruct (dict_find d "transactionId") eqn:E1;
      [|eexists; split; [|split; [exact E1|reflexivity]];
        unfold event_data_keys; set_solver].
    destruct (dict_find d "destinationChainId") eqn:E2;
      [|eexists; split; [|split; [exact E2|reflexivity]];
        unfold event_data_keys; set_solver].
    destruct (dict_find d "recipient") eqn:E3;
      [|eexists; split; [|split; [exact E3|reflexivity]];
        unfold event_data_keys; set_solver].
    destruct (dict_find d "amount") eqn:E4;
      [|eexists; split; [|split; [exact E4|reflexivity]];
        unfold event_data_keys; set_solver].
    destruct (dict_find d "transactionHash") eqn:E5;
      [|eexists; split; [|split; [exact E5|reflexivity]];
        unfold event_data_keys; set_solver].
    exfalso. unfold event_data_keys in Hk.
    rewrite !elem_of_cons, elem_of_nil in Hk.
    destruct Hk as [->|[->|[->|[->|[->|[]]]]]]; congruence.
Qed.

Lemma relay_reads_five_keys_witness :
  relay_transaction_data (world_status 200) event_data_a fresh_state
  = relay_transaction_data (world_status 200)
      (event_data_of id_a hash_a 5 "0xBB" 1000 999) fresh_state.
Proof.
  apply (proj1 (relay_reads_five_keys (world_status 200) fresh_state)).
  intros k Hk. unfold event_data_keys in Hk.
  rewrite !elem_of_cons, elem_of_nil in Hk.
  destruct Hk as [->|[->|[->|[->|[->|[]]]]]]; reflexivity.
Defined.

(** ** Rendering *)

Lemma unhex_hex_byte (b : byte) (s : string) :
  unhex (hex [b] +:+ s) = bs ← unhex s; Some (b :: bs).
Proof. destruct b; reflexivity. Qed.

Lemma hex_cons (b : byte) (bs : list byte) : hex (b :: bs) = hex [b] +:+ hex bs.
Proof. reflexivity. Qed.

(** X4: [hex] writes two characters per byte and can be read back, so two
    different transaction ids never share a key of the deduplication set. *)
Theorem hex_round_trip (bs : list byte) :
  unhex (hex bs) = Some bs ∧
  String.length (hex bs) = (2 * length bs)%nat ∧
  ∀ bs', hex bs = hex bs' → bs = bs'.
Proof.
  assert (RT : ∀ l, unhex (hex l) = Some l).
  { induction l as [|b l IH]; [reflexivity|].
    rewrite hex_cons, unhex_hex_byte, IH. reflexivity. }
  split; [apply RT|]. split.
  - induction bs as [|b bs IH]; [reflexivity|]. cbn [hex String.length length].
    rewrite IH. lia.
  - intros bs' H. pose proof (RT bs) as H1. rewrite H, RT in H1. congruence.
Qed.

(** X5: [str] can be read back, so two different amounts are never written
    as the same string, and no amount is written as the empty string. *)
Theorem str_round_trip (n : Z) :
  int_of_str (str n) = Some n ∧
  str n ≠ EmptyString ∧
  ∀ m, str n = str m → n = m.
Proof.
  split; [apply int_of_str_str|]. split.
  - intros H. pose proof (int_of_str_str n) as H1. rewrite H in H1.
    discriminate.
  - intros m H. pose proof (int_of_str_str n) as H1.
    rewrite H, int_of_str_str in H1. congruence.
Qed.

(** ** The loop, case by case *)

Lemma slept_app tr1 tr2 : slept (tr1 ++ tr2) = slept tr1 ++ slept tr2.
Proof. apply omap_app. Qed.

(** X6: an iteration that finds the connection lost calls [connect], sleeps
    5 seconds and nothing else (the polling sleep is skipped), and goes back
    to the top of the loop: it reads no height, issues no log query, POSTs
    nothing, and leaves the deduplication set and the cursor alone. *)
Theorem reconnect_cycle (w : World) (cfg : Config) (st s1 : State) :
  is_connected w st = (s1, Ok false) →
  ∃ st' tr,
    cycle w cfg st = (st', Ok tt) ∧
    trace st' = trace st ++ tr ∧
    EConnect ∈ tr ∧
    slept tr = [5] ∧
    last tr = Some (ESleep 5) ∧
    queries tr = [] ∧ posted tr = [] ∧
    n_block_number st' = n_block_number st ∧
    processed_transaction_ids st' = processed_transaction_ids st ∧
    from_block st' = from_block st.
Proof.
  intros Hc. rewrite cycle_eq, cycle_try_eq, Hc.
  rewrite is_connected_eq in Hc.
  unfold connect, chain_id.
  unfold mbind, M_bind, bind, mret, M_ret, ret, raise, try_except, log, emit,
    modify, gets, is_Exception.
  cbn. rewrite is_connected_eq. cbn.
  destruct (web3 st); [injection Hc as <- Hb | injection Hc as <-]; cbn;
    repeat match goal with
           | |- context [node_is_connected w ?n] =>
               destruct (node_is_connected w n); try discriminate; cbn
           | |- context [node_chain_id w ?n] =>
               destruct (node_chain_id w n); cbn
           end;
    do 2 eexists; (split; [reflexivity|]); (split; [trace_eq|]);
    (split; [set_solver|]); repeat split.
Qed.

Lemma reconnect_cycle_witness :
  ∃ st' tr,
    cycle world_offline sample_config fresh_state = (st', Ok tt) ∧
    trace st' = trace fresh_state ++ tr ∧
    tr = [EIsConnected; ELog WARNING LConnectionLost; EConnect; EIsConnected;
          ELog ERROR LConnectError; ESleep 5] ∧
    web3 st' = false.
Proof.
  destruct (reconnect_cycle world_offline sample_config fresh_state
              (is_connected world_offline fresh_state).1)
    as (st' & tr & E & Ht & _).
  - vm_compute. reflexivity.
  - exists st', tr. split; [exact E|]. split; [exact Ht|].
    vm_compute in E. injection E as <-. vm_compute in Ht. subst tr.
    split; reflexivity.
Defined.

(** X7: when the connection check of [run] succeeds and the one inside
    [get_latest_block_number] fails, the height is taken to be 0 without
    asking the node.  With a positive cursor the iteration is idle; with the
    cursor at 0 it fetches the logs of the range [0, 0] and moves the cursor
    to 1.  Either iteration returns normally when the polling interval is a
    length [time.sleep] takes. *)
Theorem height_zero_when_disconnected (w : World) (cfg : Config) (st : State) :
  web3 st = true →
  node_is_connected w (n_is_connected st) = true →
  node_is_connected w (S (n_is_connected st)) = false →
  (0 < from_block st →
   ∃ st' r tr,
     cycle w cfg st = (st', r) ∧
     trace st' = trace st ++
       [EIsConnected; EIsConnected; ELog WARNING LNotConnectedReturning0;
        ELog INFO (LNoNewBlocks (from_block st) 0)] ++ tr ∧
     n_block_number st' = n_block_number st ∧
     queries tr = [] ∧
     from_block st' = from_block st ∧
     (naps (POLLING_INTERVAL_SECONDS cfg) →
        r = Ok tt ∧ tr = [ESleep (POLLING_INTERVAL_SECONDS cfg)])) ∧
  (from_block st = 0 →
   ∀ events, node_get_logs w (n_get_logs st) 0 0 = Ok events →
   ∃ st' r tr,
     cycle w cfg st = (st', r) ∧
     trace st' = trace st ++ tr ∧
     n_block_number st' = n_block_number st ∧
     queries tr = [(0, 0)] ∧
     from_block st' = 1 ∧
     (naps (POLLING_INTERVAL_SECONDS cfg) → r = Ok tt)).
Proof.
  intros Hw Hc1 Hc2.
  assert (Hlatest : get_latest_block_number w
                      (tick_is_connected (add_trace EIsConnected st))
                    = (add_trace (ELog WARNING LNotConnectedReturning0)
                         (tick_is_connected
                            (add_trace EIsConnected
                               (tick_is_connected (add_trace EIsConnected st)))),
                       Ok 0)).
  { unfold get_latest_block_number.
    unfold mbind, M_bind, bind, mret, M_ret, ret, log, emit, modify.
    rewrite is_connected_eq. cbn [web3 tick_is_connected add_trace n_is_connected].
    rewrite Hw, Hc2. reflexivity. }
  split.
  - intros Hpos.
    rewrite cycle_eq, cycle_try_eq, is_connected_eq, Hw, Hc1, Hlatest.
    cbn [from_block tick_is_connected add_trace].
    rewrite bool_decide_eq_true_2 by lia. cbn zeta.
    unfold sleep_result, nap.
    destruct (sleep_error (POLLING_INTERVAL_SECONDS cfg)) as [e|] eqn:Hs.
    + eexists _, _, [ELog ERROR (LMainLoopError e); ESleep 60].
      split; [reflexivity|]. split; [trace_eq|].
      split; [reflexivity|]. split; [reflexivity|]. split; [reflexivity|].
      intros Hn. apply sleep_error_naps in Hn. congruence.
    + eexists _, _, [ESleep (POLLING_INTERVAL_SECONDS cfg)].
      split; [reflexivity|]. split; [trace_eq|].
      split; [reflexivity|]. split; [reflexivity|]. split; [reflexivity|].
      intros _. split; reflexivity.
  - intros H0 events Hlogs.
    rewrite cycle_eq, cycle_try_eq, is_connected_eq, Hw, Hc1, Hlatest.
    cbn [from_block tick_is_connected add_trace].
    rewrite bool_decide_eq_false_2 by lia.
    rewrite get_all_entries_eq.
    cbn [n_get_logs tick_is_connected add_trace]. rewrite H0, Hlogs. cbn zeta.
    set (s3 := tick_get_logs _).
    assert (T3 : trace s3 = trace st ++
                 [EIsConnected; EIsConnected;
                  ELog WARNING LNotConnectedReturning0; EGetLogs 0 0])
      by (subst s3; trace_eq).
    assert (B3 : n_block_number s3 = n_block_number st) by reflexivity.
    destruct events as [|ev events].
    + destruct (nap_cases (POLLING_INTERVAL_SECONDS cfg)
                  (set_from_block (0 + 1) s3)) as [[-> _]|[-> _]];
        do 3 eexists; (split; [reflexivity|]);
        (split; [cbn [trace add_trace set_from_block]; rewrite T3; trace_eq|]);
        (split; [exact B3|]); (split; [reflexivity|]); (split; [reflexivity|]);
        apply sleep_result_naps.
    + destruct (process_events_run w (ev :: events)
                  (add_trace (ELog INFO (LFound (length (ev :: events)) 0 0)) s3))
        as (s4 & tr4 & E4 & R4 & _).
      rewrite E4. destruct R4 as [Rt _ _ _ _ _ _ Rb _ Rq _].
      destruct (nap_cases (POLLING_INTERVAL_SECONDS cfg)
                  (set_from_block (0 + 1) s4)) as [[-> _]|[-> _]];
        do 3 eexists; (split; [reflexivity|]);
        (split; [cbn [trace add_trace set_from_block]; rewrite Rt;
                 cbn [trace add_trace]; rewrite T3, <- !app_assoc; reflexivity|]);
        (split; [cbn; rewrite Rb; exact B3|]);
        (split; [rewrite !queries_app, Rq; reflexivity|]);
        (split; [reflexivity|]); apply sleep_result_naps.
Qed.

Lemma height_zero_when_disconnected_witness :
  (∃ st',
     cycle world_flapping sample_config fresh_state = (st', Ok tt) ∧
     trace st' = trace fresh_state ++
       [EIsConnected; EIsConnected; ELog WARNING LNotConnectedReturning0;
        ELog INFO (LNoNewBlocks 10 0); ESleep 15] ∧
     from_block st' = from_block fresh_state) ∧
  (∃ st' tr,
     cycle world_flapping sample_config genesis_state = (st', Ok tt) ∧
     trace st' = trace genesis_state ++ tr ∧
     n_block_number st' = n_block_number genesis_state ∧
     queries tr = [(0, 0)] ∧
     from_block st' = 1).
Proof.
  split.
  - destruct (proj1 (height_zero_when_disconnected world_flapping sample_config
                       fresh_state eq_refl eq_refl eq_refl))
      as (st' & r & tr & E & Ht & _ & _ & Hf & Hn).
    + cbn. lia.
    + destruct (Hn naps_sample_config) as [-> ->].
      exists st'. split; [exact E|]. split; [exact Ht|exact Hf].
  - destruct (proj2 (height_zero_when_disconnected world_flapping sample_config
                       genesis_state eq_refl eq_refl eq_refl) eq_refl [])
      as (st' & r & tr & E & Ht & Hb & Hq & Hf & Hn).
    + reflexivity.
    + rewrite (Hn naps_sample_config) in E.
      exists st', tr. split; [exact E|]. split; [exact Ht|].
      split; [exact Hb|]. split; [exact Hq|exact Hf].
Defined.

(** X8: with a positive polling interval that [time.sleep] takes, the loop
    never spins: every iteration, however it goes, returns normally and the
    last thing it does is sleep a positive time, 5 seconds (after a
    reconnect) or the polling interval. *)
Theorem every_cycle_ends_with_sleep (w : World) (cfg : Config) (st : State) :
  0 < POLLING_INTERVAL_SECONDS cfg ≤ sleep_limit →
  ∃ st' tr s,
    cycle w cfg st = (st', Ok tt) ∧
    trace st' = trace st ++ tr ++ [ESleep s] ∧
    (s = 5 ∨ s = POLLING_INTERVAL_SECONDS cfg) ∧
    0 < s.
Proof.
  intros Hp.
  assert (Hn : naps (POLLING_INTERVAL_SECONDS cfg)) by (unfold naps; lia).
  destruct (cycle_run w cfg st) as (st' & r & tr & E & L & _ & Hok).
  destruct (Hok Hn) as (-> & tr0 & s & -> & Hs).
  exists st', tr0, s. split; [exact E|].
  split; [apply (lr_trace _ _ _ L)|]. split; [exact Hs|].
  destruct Hs as [-> | ->]; lia.
Qed.

Lemma every_cycle_ends_with_sleep_witness :
  ∃ st' tr s,
    cycle world_rpc_down sample_config fresh_state = (st', Ok tt) ∧
    trace st' = trace fresh_state ++ tr ++ [ESleep s] ∧
    (s = 5 ∨ s = 15) ∧
    0 < s.
Proof.
  apply (every_cycle_ends_with_sleep world_rpc_down sample_config fresh_state).
  unfold sleep_limit. cbn. lia.
Defined.

Lemma cycles_queries_from_cursor (w : World) (cfg : Config) (n : nat) :
  ∀ st, ∃ st' r tr,
    cycles w cfg n st = (st', r) ∧
    trace st' = trace st ++ tr ∧
    (∀ f t, (f, t) ∈ queries tr → from_block st ≤ f).
Proof.
  induction n as [|n IH]; intros st.
  - exists st, (Ok tt), []. rewrite app_nil_r. repeat split. intros f t Hin.
    apply elem_of_nil in Hin. contradiction.
  - destruct (cycle_run w cfg st) as (s1 & r1 & tr1 & E1 & L1 & Q1 & _).
    pose proof (lr_trace _ _ _ L1) as T1.
    pose proof (lr_cursor _ _ _ L1) as Hle.
    destruct r1 as [[]|e].
    + destruct (IH s1) as (s2 & r2 & tr2 & E2 & T2 & Q2).
      exists s2, r2, (tr1 ++ tr2).
      split; [rewrite (cycles_S w cfg n st s1 E1); exact E2|].
      split; [rewrite T2, T1, <- !app_assoc; reflexivity|].
      intros f t Hin. rewrite queries_app in Hin.
      apply elem_of_app in Hin as [Hin|Hin].
      * apply Q1 in Hin. lia.
      * apply Q2 in Hin. lia.
    + exists s1, (Raise e), tr1.
      split; [exact (cycles_raise w cfg n st s1 e E1)|].
      split; [exact T1|]. intros f t Hin. apply Q1 in Hin. lia.
Qed.

(** ** Events that are not delivered *)

Lemma process_event_rejected (w : World) tx_id h chain rcpt amt blk st :
  hex tx_id ∉ processed_transaction_ids st →
  let payload := payload_of tx_id h chain rcpt amt in
  (∀ j, (j < 3)%nat → failed (http_post w (n_post st + j)%nat payload)) →
  ∃ st' tr,
    process_event w (event_of tx_id h chain rcpt amt blk) st = (st', Ok tt) ∧
    event_run st st' tr ∧
    posted tr = replicate 3 payload ∧
    adds tr = [].
Proof.
  intros Hnew payload Hfail.
  destruct (process_event_run w (event_of tx_id h chain rcpt amt blk) st)
    as (st' & tr & E & R & _).
  exists st', tr. split; [exact E|]. split; [exact R|].
  rewrite process_event_eq in E. unfold event_of in E.
  cbn [args transactionId transactionHash destinationChainId recipient
       amount blockNumber] in E. cbn zeta in E.
  rewrite bool_decide_eq_false_2 in E by exact Hnew.
  set (st1 := add_trace (EDedupLookup (hex tx_id)) _) in E.
  destruct (relay_transaction_data_run w
              (event_data_of tx_id h chain rcpt amt blk) st1
              _ _ _ _ _ eq_refl eq_refl eq_refl eq_refl eq_refl)
    as (m & st2 & r & trr & Hrun & Hq & Hm & _ & Hlast & _ & Hp & _).
  change (relay_payload _ _ _ _ _) with payload in Hlast, Hp.
  change (n_post st1) with (n_post st) in Hlast.
  destruct (proj1 (classify_failed _) (Hfail (pred m) ltac:(lia))) as [e He].
  rewrite He in Hlast. destruct Hlast as (-> & -> & _).
  rewrite Hrun in E. injection E as <-.
  pose proof (er_trace _ _ _ R) as T. rewrite (qr_trace _ _ _ Hq) in T.
  subst st1. cbn [trace add_trace] in T. rewrite <- !app_assoc in T.
  apply app_inv_head in T. subst tr. cbn.
  split; [exact Hp|]. apply (qr_adds _ _ _ Hq).
Qed.

(** X9: an event whose three relay attempts all fail is dropped: after the
    three POSTs the id is not added to the deduplication set, the cursor
    moves past the scanned range all the same, and no log query of any later
    iteration reaches back to that range.  The iteration returns normally
    when the polling interval is a length [time.sleep] takes. *)
Theorem failed_relay_is_dropped
    (w : World) (cfg : Config) (st : State) (to_block : Z)
    (tx_id h : list byte) (chain : Z) (rcpt : string) (amt blk : Z) :
  let ev := event_of tx_id h chain rcpt amt blk in
  let payload := payload_of tx_id h chain rcpt amt in
  web3 st = true →
  node_is_connected w (n_is_connected st) = true →
  node_is_connected w (S (n_is_connected st)) = true →
  node_block_number w (n_block_number st) = Ok to_block →
  from_block st ≤ to_block →
  node_get_logs w (n_get_logs st) (from_block st) to_block = Ok [ev] →
  hex tx_id ∉ processed_transaction_ids st →
  (∀ j, (j < 3)%nat → failed (http_post w (n_post st + j)%nat payload)) →
  ∃ st' r,
    cycle w cfg st = (st', r) ∧
    (naps (POLLING_INTERVAL_SECONDS cfg) → r = Ok tt) ∧
    posted (trace st') = posted (trace st) ++ [payload; payload; payload] ∧
    (hex tx_id ∉ processed_transaction_ids st') ∧
    from_block st' = to_block + 1 ∧
    ∀ n st'' r' tr,
      cycles w cfg n st' = (st'', r') →
      trace st'' = trace st' ++ tr →
      ∀ f t, (f, t) ∈ queries tr → to_block < f.
Proof.
  intros ev payload Hw Hc1 Hc2 Hh Hle Hlogs Hnew Hfail.
  destruct (cycle_scan_run w cfg st to_block [ev] Hw Hc1 Hc2 Hh Hle Hlogs)
    as (st' & s1 & tr & E & P & R & Hp0 & Hn0 & _ & Hp1 & Hposted & _ & Hf & _).
  set (s0 := announce [ev] (from_block st) to_block (scan_start st to_block)) in *.
  destruct (process_event_rejected w tx_id h chain rcpt amt blk s0
              ltac:(rewrite Hp0; exact Hnew)
              ltac:(rewrite Hn0; exact Hfail))
    as (s1' & tr' & E' & R' & Hp' & Ha').
  fold ev payload in E', Hp'.
  rewrite (process_events_cons w ev [] s0 s1' E') in P. injection P as <-.
  assert (tr = tr') as <-.
  { pose proof (er_trace _ _ _ R) as T. rewrite (er_trace _ _ _ R') in T.
    apply app_inv_head in T. congruence. }
  exists st', (sleep_result (POLLING_INTERVAL_SECONDS cfg)). split; [exact E|].
  split; [apply sleep_result_naps|].
  split; [rewrite Hposted, Hp'; reflexivity|].
  split.
  { rewrite Hp1, (er_processed _ _ _ R), Ha', Hp0. cbn. set_solver. }
  split; [exact Hf|].
  intros n st'' r tr2 Hrun Htr f t Hin.
  destruct (cycles_queries_from_cursor w cfg n st')
    as (s & r3 & tr3 & E3 & T3 & Q3).
  rewrite Hrun in E3. injection E3 as -> _.
  rewrite Htr in T3. apply app_inv_head in T3. subst tr3.
  apply Q3 in Hin. lia.
Qed.

Lemma failed_relay_is_dropped_witness :
  ∃ st',
    cycle world_rejecting sample_config fresh_state = (st', Ok tt) ∧
    posted (trace st') = [payload_a; payload_a; payload_a] ∧
    (hex id_a ∉ processed_transaction_ids st') ∧
    from_block st' = 13.
Proof.
  destruct (failed_relay_is_dropped world_rejecting sample_config fresh_state
              12 id_a hash_a 5 "0xBB"%string 1000 12)
    as (st' & r & E & Hr & Hp & Hn & Hf & _).
  - reflexivity.
  - reflexivity.
  - reflexivity.
  - reflexivity.
  - cbn. lia.
  - reflexivity.
  - apply not_elem_of_empty.
  - intros j _. cbn. lia.
  - rewrite (Hr naps_sample_config) in E.
    exists st'. split; [exact E|]. split; [exact Hp|]. split; [exact Hn|].
    exact Hf.
Defined.

(** ** Events that are delivered *)

(** X10: when the endpoint accepts every POST, a list of complete events
    with pairwise different ids, none of them processed before, is relayed in
    the order of the list, one POST per event, and their ids are added to the
    deduplication set in that order. *)
Theorem in_order_relay (w : World) (fs : list Fields) (st : State) :
  NoDup (id_of_fields <$> fs) →
  (∀ f, f ∈ fs → id_of_fields f ∉ processed_transaction_ids st) →
  (∀ n p, accepted (http_post w n p)) →
  ∃ st' tr,
    process_events w (event_of_fields <$> fs) st = (st', Ok tt) ∧
    trace st' = trace st ++ tr ∧
    posted tr = payload_of_fields <$> fs ∧
    adds tr = id_of_fields <$> fs ∧
    processed_transaction_ids st' =
      processed_transaction_ids st ∪ list_to_set (id_of_fields <$> fs).
Proof.
  intros Hnd Hnew Hacc. revert st Hnd Hnew.
  induction fs as [|f fs IH]; intros st Hnd Hnew.
  - exists st, []. rewrite app_nil_r. cbn. repeat split. set_solver.
  - destruct f as [[[[[tx_id h] chain] rcpt] amt] blk].
    cbn [fmap list_fmap] in Hnd |- *. apply NoDup_cons in Hnd as [Hnotin Hnd].
    cbn [event_of_fields payload_of_fields id_of_fields] in *.
    destruct (process_event_fresh w tx_id h chain rcpt amt blk st
                (Hnew (tx_id, h, chain, rcpt, amt, blk) ltac:(left)))
      as (s1 & tr1 & m & E1 & R1 & Hm & Hp1 & _ & Hf & Hlast).
    assert (m = 1%nat) as ->.
    { destruct m as [|[|m]]; [lia|reflexivity|]. exfalso.
      exact (accepted_not_failed _ (Hacc _ _) (Hf 0%nat ltac:(lia))). }
    destruct (proj1 (classify_accepted _) (Hacc (n_post st + pred 1)%nat
                (payload_of tx_id h chain rcpt amt))) as [sc Hsc].
    rewrite Hsc in Hlast.
    destruct (IH s1 Hnd) as (s2 & tr2 & E2 & T2 & Hp2 & Ha2 & Hs2).
    { intros f Hin Hin'. rewrite (er_processed _ _ _ R1), Hlast in Hin'.
      apply elem_of_union in Hin' as [Hin'|Hin'].
      - exact (Hnew f ltac:(right; exact Hin) Hin').
      - apply elem_of_list_to_set, list_elem_of_singleton in Hin'.
        apply Hnotin. rewrite <- Hin'. apply list_elem_of_fmap. eauto. }
    exists s2, (tr1 ++ tr2).
    split; [rewrite (process_events_cons w _ _ st s1 E1); exact E2|].
    split; [rewrite T2, (er_trace _ _ _ R1), app_assoc; reflexivity|].
    split; [rewrite posted_app, Hp1, Hp2; reflexivity|].
    split; [rewrite adds_app, Hlast, Ha2; reflexivity|].
    rewrite Hs2, (er_processed _ _ _ R1), Hlast. cbn. set_solver.
Qed.

Lemma in_order_relay_witness :
  ∃ st' tr,
    process_events world_two [event_a; event_b] fresh_state = (st', Ok tt) ∧
    trace st' = trace fresh_state ++ tr ∧
    posted tr = [payload_a; payload_b] ∧
    adds tr = [hex id_a; hex id_b] ∧
    processed_transaction_ids st' =
      processed_transaction_ids fresh_state
      ∪ list_to_set [hex id_a; hex id_b].
Proof.
  apply (in_order_relay world_two
           [(id_a, hash_a, 5, "0xBB"%string, 1000, 12);
            (id_b, hash_a, 5, "0xBB"%string, 7, 12)] fresh_state).
  - apply NoDup_cons. split.
    + intros H. apply list_elem_of_singleton in H. discriminate H.
    + apply NoDup_singleton.
  - intros f _. apply not_elem_of_empty.
  - intros n p. cbn. lia.
Defined.

(** ** Startup *)

Lemma boot_bind_returned {A B} (c : Boot A) (k : A → Boot B) p p' a :
  c p = (p', Returned a) → (c ≫= k) p = k a p'.
Proof. intros H. unfold mbind, Boot_bind, boot_bind. rewrite H. reflexivity. Qed.

Lemma boot_bind_threw {A B} (c : Boot A) (k : A → Boot B) p p' e :
  c p = (p', Threw e) → (c ≫= k) p = (p', Threw e).
Proof. intros H. unfold mbind, Boot_bind, boot_bind. rewrite H. reflexivity. Qed.

Lemma lift_eq {A} (c : M A) p st' r tr :
  c (listener p) = (st', r) →
  trace st' = trace (listener p) ++ tr →
  lift c p = (with_output p st' (OCore <$> tr),
              match r with Ok a => Returned a | Raise e => Threw e end).
Proof.
  intros H T. unfold lift, with_output. rewrite H, T, drop_app_length.
  reflexivity.
Qed.

Lemma connect_eq (w : World) (st : State) :
  connect w st =
  let s1 := tick_is_connected
              (add_trace EIsConnected (set_web3 true (add_trace EConnect st))) in
  if node_is_connected w (n_is_connected st) then
    let s2 := tick_chain_id (add_trace EChainId s1) in
    match node_chain_id w (n_chain_id st) with
    | Ok _ => (add_trace (ELog INFO LConnected) s2, Ok tt)
    | Raise _ => (set_web3 false (add_trace (ELog ERROR LConnectError) s2), Ok tt)
    end
  else (set_web3 false (add_trace (ELog ERROR LConnectError) s1), Ok tt).
Proof.
  unfold connect, chain_id.
  unfold mbind, M_bind, bind, mret, M_ret, ret, raise, try_except, log, emit,
    modify, gets, is_Exception.
  cbn. rewrite is_connected_eq. cbn.
  destruct (node_is_connected w (n_is_connected st)); cbn; [|reflexivity].
  destruct (node_chain_id w (n_chain_id st)); reflexivity.
Qed.

Section StartupProofs.

Context (to_checksum_address : string → option string).
Context (w : World) (env : Environment).

Lemma validate_valid p :
  SOURCE_CHAIN_RPC_URL env ≠ EmptyString →
  BRIDGE_CONTRACT_ADDRESS env ≠ EmptyString →
  validate env p
  = (with_output p (listener p) [OLog INFO LConfigValidated], Returned tt).
Proof.
  intros H1 H2. unfold validate. rewrite bool_decide_eq_true_2 by tauto.
  reflexivity.
Qed.

(** The listener once it is built: what [connect] left, an empty set. *)
Lemma new_listener_eq p :
  listener p = blank_state →
  ∃ st tr,
    connect w (set_web3 false blank_state) = (st, Ok tt) ∧
    trace st = tr ∧
    new_listener w p
    = ({| listener := set_processed (λ _, ∅) st; bridge_contract := None;
          output := output p ++ (OCore <$> tr)
                    ++ [OLog INFO LStateManagerInitialized] |}, Returned tt).
Proof.
  intros Hp.
  destruct (connect_run w (set_web3 false blank_state)) as (st & tr & E & N).
  pose proof (nr_trace _ _ _ N) as T. cbn in T.
  exists st, tr. split; [exact E|]. split; [exact T|].
  unfold new_listener.
  rewrite (boot_bind_returned _ _ p (with_output p st (OCore <$> tr)) tt).
  2: { apply (lift_eq (modify (set_web3 false);; connect w) p st (Ok tt) tr).
       - rewrite Hp. exact E.
       - rewrite Hp. exact T. }
  rewrite (boot_bind_returned _ _ _
             (with_output (with_output p st (OCore <$> tr))
                (set_processed (λ _, ∅) st) []) tt).
  2: { apply (lift_eq (modify (set_processed (λ _, ∅))) _ _ (Ok tt) []).
       - reflexivity.
       - cbn. rewrite app_nil_r. reflexivity. }
  unfold mbind, Boot_bind, boot_bind, startup_log, set_bridge_contract,
    with_output. cbn. rewrite app_nil_r, <- app_assoc. reflexivity.
Qed.

Lemma lift_is_connected p :
  lift (is_connected w) p
  = if web3 (listener p)
    then (with_output p (tick_is_connected (add_trace EIsConnected (listener p)))
            [OCore EIsConnected],
          Returned (node_is_connected w (n_is_connected (listener p))))
    else (with_output p (listener p) [], Returned false).
Proof.
  destruct (web3 (listener p)) eqn:Hw.
  - rewrite (lift_eq (is_connected w) p
               (tick_is_connected (add_trace EIsConnected (listener p)))
               (Ok (node_is_connected w (n_is_connected (listener p))))
               [EIsConnected]); [reflexivity| |reflexivity].
    rewrite is_connected_eq, Hw. reflexivity.
  - rewrite (lift_eq (is_connected w) p (listener p) (Ok false) []);
      [reflexivity| |rewrite app_nil_r; reflexivity].
    rewrite is_connected_eq, Hw. reflexivity.
Qed.

(** [_initialize_contract] without a provider: one error line. *)
Lemma initialize_contract_no_provider p :
  web3 (listener p) = false →
  initialize_contract to_checksum_address w env p
  = (with_output p (listener p) [OLog ERROR LCannotInitialize], Returned false).
Proof.
  intros Hw. unfold initialize_contract.
  erewrite boot_bind_returned by (rewrite lift_is_connected, Hw; reflexivity).
  unfold mbind, Boot_bind, boot_bind, startup_log, with_output, mret,
    Boot_ret, boot_ret. cbn. rewrite app_nil_r. reflexivity.
Qed.

(** [_initialize_contract] with a provider and a node that answers both
    connection checks. *)
Lemma initialize_contract_connected p :
  web3 (listener p) = true →
  node_is_connected w (n_is_connected (listener p)) = true →
  node_is_connected w (S (n_is_connected (listener p))) = true →
  let st :=
    tick_is_connected
      (add_trace EIsConnected
         (tick_is_connected (add_trace EIsConnected (listener p)))) in
  initialize_contract to_checksum_address w env p
  = match to_checksum_address (BRIDGE_CONTRACT_ADDRESS env) with
    | Some address =>
        ({| listener := st; bridge_contract := Some address;
            output := output p ++ [OCore EIsConnected; OCore EIsConnected;
                                   OLog INFO (LContractInitialized address)] |},
         Returned true)
    | None =>
        ({| listener := st; bridge_contract := None;
            output := output p ++ [OCore EIsConnected; OCore EIsConnected;
                                   OLog ERROR LInvalidAddress;
                                   OLog CRITICAL LInitializeFailed] |},
         Returned false)
    end.
Proof.
  intros Hw Hc1 Hc2 st. unfold initialize_contract, get_contract.
  erewrite boot_bind_returned by (rewrite lift_is_connected, Hw; reflexivity).
  rewrite Hc1. cbn [negb].
  destruct (to_checksum_address (BRIDGE_CONTRACT_ADDRESS env)) eqn:Hsum.
  all: erewrite (boot_bind_returned (lift (is_connected w) ≫= _));
    [|erewrite boot_bind_returned;
      [|rewrite lift_is_connected;
        cbn [listener with_output web3 tick_is_connected add_trace];
        rewrite Hw; reflexivity];
      cbn [listener with_output n_is_connected tick_is_connected add_trace];
      rewrite Hc2; cbn [negb];
      unfold mbind, Boot_bind, boot_bind, startup_log, mret, Boot_ret,
        boot_ret; reflexivity].
  all: unfold mbind, Boot_bind, boot_bind, startup_log, set_bridge_contract,
         with_output, mret, Boot_ret, boot_ret; cbn;
       rewrite <- ?app_assoc; reflexivity.
Qed.

Lemma initial_cursor_eq st :
  initial_cursor w (loop_config env) st =
  let offset := START_BLOCK_OFFSET (loop_config env) in
  if web3 st then
    let s1 := tick_is_connected (add_trace EIsConnected st) in
    if node_is_connected w (n_is_connected st) then
      let s2 := tick_block_number (add_trace EBlockNumber s1) in
      match node_block_number w (n_block_number st) with
      | Ok h => (set_from_block (Z.max 0 (h - offset)) s2, Ok tt)
      | Raise e => (s2, Raise e)
      end
    else (set_from_block (Z.max 0 (0 - offset))
            (add_trace (ELog WARNING LNotConnectedReturning0) s1), Ok tt)
  else (set_from_block (Z.max 0 (0 - offset))
          (add_trace (ELog WARNING LNotConnectedReturning0) st), Ok tt).
Proof.
  unfold initial_cursor, get_latest_block_number.
  unfold mbind, M_bind, bind, mret, M_ret, ret, log, emit, modify.
  rewrite is_connected_eq. destruct (web3 st); [|reflexivity].
  destruct (node_is_connected w (n_is_connected st)); [|reflexivity].
  rewrite block_number_eq. cbn.
  destruct (node_block_number w (n_block_number st)); reflexivity.
Qed.

(** [run] on a listener whose contract gets bound, by how reading the first
    height ends. *)
Lemma run_bound p address n st4 r tr4 :
  web3 (listener p) = true →
  node_is_connected w (n_is_connected (listener p)) = true →
  node_is_connected w (S (n_is_connected (listener p))) = true →
  to_checksum_address (BRIDGE_CONTRACT_ADDRESS env) = Some address →
  let st3 :=
    tick_is_connected
      (add_trace EIsConnected
         (tick_is_connected (add_trace EIsConnected (listener p)))) in
  let bound := [OCore EIsConnected; OCore EIsConnected;
                OLog INFO (LContractInitialized address)] in
  initial_cursor w (loop_config env) st3 = (st4, r) →
  trace st4 = trace st3 ++ tr4 →
  run to_checksum_address w env n p
  = match r with
    | Raise e =>
        ({| listener := st4; bridge_contract := Some address;
            output := output p ++ bound ++ (OCore <$> tr4) |}, Threw e)
    | Ok _ =>
        ({| listener := (cycles w (loop_config env) n st4).1;
            bridge_contract := Some address;
            output :=
              output p ++ bound ++ (OCore <$> tr4)
              ++ [OLog INFO (LStarting (POLLING_INTERVAL_SECONDS (loop_config env)));
                  OLog INFO (LInitialScan (from_block st4))]
              ++ (OCore <$> drop (length (trace st4))
                              (trace (cycles w (loop_config env) n st4).1)) |},
         match (cycles w (loop_config env) n st4).2 with
         | Ok _ => Returned tt
         | Raise e => Threw e
         end)
    end.
Proof.
  intros Hw Hc1 Hc2 Hsum st3 bound Hinit Htr. unfold run.
  erewrite boot_bind_returned
    by (rewrite (initialize_contract_connected p Hw Hc1 Hc2), Hsum; reflexivity).
  cbn [negb]. fold st3.
  destruct r as [[]|e].
  - erewrite boot_bind_returned
      by (apply (lift_eq _ _ st4 (Ok tt) tr4); [exact Hinit|exact Htr]).
    erewrite boot_bind_returned by reflexivity.
    erewrite boot_bind_returned.
    2: { apply (lift_eq (gets from_block) _ st4 (Ok (from_block st4)) []).
         - reflexivity.
         - cbn. rewrite app_nil_r. reflexivity. }
    erewrite boot_bind_returned by reflexivity.
    destruct (cycles_run w (loop_config env) n st4)
      as (st5 & r5 & tr5 & E5 & L5 & _).
    rewrite E5. cbn [fst snd]. rewrite (lr_trace _ _ _ L5), drop_app_length.
    rewrite (lift_eq (cycles w (loop_config env) n) _ st5 r5 tr5);
      [|exact E5|apply (lr_trace _ _ _ L5)].
    unfold with_output. cbn. rewrite app_nil_r, <- !app_assoc.
    destruct r5 as [[]|e5]; reflexivity.
  - erewrite boot_bind_threw
      by (apply (lift_eq _ _ st4 (Raise e) tr4); [exact Hinit|exact Htr]).
    unfold with_output. cbn. rewrite <- !app_assoc. reflexivity.
Qed.

(** [__main__] up to the call of [run], against a node that answers the
    connection check and gives its chain id. *)
Lemma main_connected n id :
  SOURCE_CHAIN_RPC_URL env ≠ EmptyString →
  BRIDGE_CONTRACT_ADDRESS env ≠ EmptyString →
  node_is_connected w 0 = true →
  node_chain_id w 0 = Ok id →
  (validate env;; new_listener w;; run to_checksum_address w env n) boot_process
  = run to_checksum_address w env n
      {| listener := connected_listener; bridge_contract := None;
         output := [OLog INFO LConfigValidated; OCore EConnect;
                    OCore EIsConnected; OCore EChainId;
                    OCore (ELog INFO LConnected);
                    OLog INFO LStateManagerInitialized] |}.
Proof.
  intros Hrpc Haddr Hc Hid.
  erewrite boot_bind_returned by (apply validate_valid; assumption).
  destruct (new_listener_eq
              (with_output boot_process (listener boot_process)
                 [OLog INFO LConfigValidated]) eq_refl)
    as (st & tr & E & T & NL).
  rewrite connect_eq in E. cbn in E. rewrite Hc, Hid in E.
  injection E as <-. cbn in T. subst tr.
  erewrite boot_bind_returned by exact NL. reflexivity.
Qed.

End StartupProofs.

(** X11: when the RPC URL or the contract address is empty, [__main__] logs
    one critical line and ends: no connector is built, the node and the
    endpoint are never contacted, whatever they would have answered. *)
Theorem config_error_before_any_contact
    (to_checksum_address : string → option string) (w : World)
    (env : Environment) (n : nat) :
  SOURCE_CHAIN_RPC_URL env = EmptyString
  ∨ BRIDGE_CONTRACT_ADDRESS env = EmptyString →
  main to_checksum_address w env n
  = {| listener := blank_state; bridge_contract := None;
       output := [OLog CRITICAL LConfigurationError] |}.
Proof.
  intros H. unfold main.
  rewrite (boot_bind_threw (validate env) _ boot_process boot_process ValueError).
  - reflexivity.
  - unfold validate. rewrite bool_decide_eq_false_2 by tauto. reflexivity.
Qed.

Lemma config_error_before_any_contact_witness :
  main sample_checksum (world_status 200) environment_without_address 5
  = {| listener := blank_state; bridge_contract := None;
       output := [OLog CRITICAL LConfigurationError] |}.
Proof.
  apply config_error_before_any_contact. right. reflexivity.
Defined.

(** X12: failing to bind the contract ends [run] before its loop.  When the
    node is unreachable at startup, or its chain id cannot be read, or the
    address is not one [to_checksum_address] accepts, the process ends after
    the error lines, the same for every number of iterations the loop would
    have been given: it reads no height, queries no logs, POSTs nothing and
    never sleeps. *)
Theorem binding_failure_is_fatal
    (to_checksum_address : string → option string) (w : World)
    (env : Environment) (n : nat) :
  SOURCE_CHAIN_RPC_URL env ≠ EmptyString →
  BRIDGE_CONTRACT_ADDRESS env ≠ EmptyString →
  (node_is_connected w 0 = false →
   output (main to_checksum_address w env n)
   = [OLog INFO LConfigValidated; OCore EConnect; OCore EIsConnected;
      OCore (ELog ERROR LConnectError); OLog INFO LStateManagerInitialized;
      OLog ERROR LCannotInitialize]) ∧
  (∀ e, node_is_connected w 0 = true → node_chain_id w 0 = Raise e →
   output (main to_checksum_address w env n)
   = [OLog INFO LConfigValidated; OCore EConnect; OCore EIsConnected;
      OCore EChainId; OCore (ELog ERROR LConnectError);
      OLog INFO LStateManagerInitialized; OLog ERROR LCannotInitialize]) ∧
  (∀ id, node_is_connected w 0 = true → node_chain_id w 0 = Ok id →
   node_is_connected w 1 = true → node_is_connected w 2 = true →
   to_checksum_address (BRIDGE_CONTRACT_ADDRESS env) = None →
   output (main to_checksum_address w env n)
   = [OLog INFO LConfigValidated; OCore EConnect; OCore EIsConnected;
      OCore EChainId; OCore (ELog INFO LConnected);
      OLog INFO LStateManagerInitialized; OCore EIsConnected;
      OCore EIsConnected; OLog ERROR LInvalidAddress;
      OLog CRITICAL LInitializeFailed]).
Proof.
  intros Hrpc Haddr.
  assert (Hfail : ∀ st tr,
            connect w (set_web3 false blank_state) = (st, Ok tt) →
            trace st = tr → web3 st = false →
            output (main to_checksum_address w env n)
            = [OLog INFO LConfigValidated] ++ (OCore <$> tr)
              ++ [OLog INFO LStateManagerInitialized;
                  OLog ERROR LCannotInitialize]).
  { intros st tr E T Hw. unfold main.
    erewrite boot_bind_returned by (apply validate_valid; assumption).
    destruct (new_listener_eq w
                (with_output boot_process (listener boot_process)
                   [OLog INFO LConfigValidated]) eq_refl)
      as (st' & tr' & E' & T' & NL).
    rewrite E in E'. injection E' as <-. rewrite T in T'. subst tr'.
    erewrite boot_bind_returned by exact NL.
    unfold run.
    erewrite boot_bind_returned
      by (apply initialize_contract_no_provider; exact Hw).
    cbn. rewrite <- !app_assoc. reflexivity. }
  split; [|split].
  - intros Hc. erewrite Hfail; cycle 1.
    + rewrite connect_eq. cbn. rewrite Hc. reflexivity.
    + reflexivity.
    + reflexivity.
    + reflexivity.
  - intros e Hc He. erewrite Hfail; cycle 1.
    + rewrite connect_eq. cbn. rewrite Hc, He. reflexivity.
    + reflexivity.
    + reflexivity.
    + reflexivity.
  - intros id Hc Hid Hc1 Hc2 Hsum. unfold main.
    rewrite (main_connected to_checksum_address w env n id Hrpc Haddr Hc Hid).
    unfold run.
    erewrite boot_bind_returned.
    2: { rewrite initialize_contract_connected; [|reflexivity|exact Hc1|exact Hc2].
         rewrite Hsum. reflexivity. }
    reflexivity.
Qed.

Lemma binding_failure_is_fatal_witness :
  output (main sample_checksum world_offline sample_environment 7)
  = [OLog INFO LConfigValidated; OCore EConnect; OCore EIsConnected;
     OCore (ELog ERROR LConnectError); OLog INFO LStateManagerInitialized;
     OLog ERROR LCannotInitialize].
Proof.
  apply (proj1 (binding_failure_is_fatal sample_checksum world_offline
                  sample_environment 7 ltac:(discriminate) ltac:(discriminate))).
  reflexivity.
Defined.

Lemma core_effects_app o1 o2 :
  core_effects (o1 ++ o2) = core_effects o1 ++ core_effects o2.
Proof. apply omap_app. Qed.

Lemma core_effects_lifted tr : core_effects (OCore <$> tr) = tr.
Proof. induction tr as [|e tr IH]; [reflexivity|]. cbn. f_equal. exact IH. Qed.

(** X13: a height query that fails at startup ends the process.  [run]
    reads its first height outside the [try] of the loop, so the exception
    reaches [__main__]: a [ValueError] (web3 raises one for a JSON-RPC error)
    is logged as a configuration error, any other exception as unhandled.  No
    iteration runs and nothing is slept, for every number of iterations the
    loop would have been given. *)
Theorem startup_height_failure_ends_process
    (to_checksum_address : string → option string) (w : World)
    (env : Environment) (n : nat) (id : Z) (address : string) (e : exn) :
  SOURCE_CHAIN_RPC_URL env ≠ EmptyString →
  BRIDGE_CONTRACT_ADDRESS env ≠ EmptyString →
  node_is_connected w 0 = true → node_chain_id w 0 = Ok id →
  node_is_connected w 1 = true → node_is_connected w 2 = true →
  to_checksum_address (BRIDGE_CONTRACT_ADDRESS env) = Some address →
  node_is_connected w 3 = true →
  node_block_number w 0 = Raise e →
  output (main to_checksum_address w env n)
  = startup_prefix address
    ++ [OCore EIsConnected; OCore EBlockNumber;
        OLog CRITICAL (match e with
                       | ValueError => LConfigurationError
                       | _ => LUnhandled e
                       end)].
Proof.
  intros Hrpc Haddr Hc Hid Hc1 Hc2 Hsum Hc3 Hh. unfold main.
  rewrite (main_connected to_checksum_address w env n id Hrpc Haddr Hc Hid).
  erewrite (run_bound to_checksum_address w env _ address n _ (Raise e)
              [EIsConnected; EBlockNumber]);
    [reflexivity|reflexivity|exact Hc1|exact Hc2|exact Hsum| |].
  - rewrite initial_cursor_eq. cbn. rewrite Hc3, Hh. reflexivity.
  - reflexivity.
Qed.

Lemma startup_height_failure_ends_process_witness :
  output (main sample_checksum world_rpc_down sample_environment 4)
  = startup_prefix "0xabc"
    ++ [OCore EIsConnected; OCore EBlockNumber;
        OLog CRITICAL (LUnhandled RpcError)] ∧
  output (main sample_checksum world_rpc_error sample_environment 4)
  = startup_prefix "0xabc"
    ++ [OCore EIsConnected; OCore EBlockNumber;
        OLog CRITICAL LConfigurationError].
Proof.
  split.
  - apply (startup_height_failure_ends_process sample_checksum world_rpc_down
             sample_environment 4 1 "0xabc"%string RpcError);
      first [discriminate | reflexivity].
  - apply (startup_height_failure_ends_process sample_checksum world_rpc_error
             sample_environment 4 1 "0xabc"%string ValueError);
      first [discriminate | reflexivity].
Defined.

(** X14: with valid settings, a reachable node, a valid address and a
    polling interval that [time.sleep] takes, the loop starts with the cursor
    at [max(0, height - START_BLOCK_OFFSET)], an empty deduplication set and
    no POST made, and the listener ends where [n] iterations of the loop
    take it from there.  The cursor is never negative, and for a
    non-negative offset and height it lies at most the offset below the
    height. *)
Theorem main_enters_loop_at_offset_cursor
    (to_checksum_address : string → option string) (w : World)
    (env : Environment) (n : nat) (id h : Z) (address : string) :
  SOURCE_CHAIN_RPC_URL env ≠ EmptyString →
  BRIDGE_CONTRACT_ADDRESS env ≠ EmptyString →
  naps (POLLING_INTERVAL_SECONDS (loop_config env)) →
  node_is_connected w 0 = true → node_chain_id w 0 = Ok id →
  node_is_connected w 1 = true → node_is_connected w 2 = true →
  to_checksum_address (BRIDGE_CONTRACT_ADDRESS env) = Some address →
  node_is_connected w 3 = true →
  node_block_number w 0 = Ok h →
  let cfg := loop_config env in
  let cursor := Z.max 0 (h - START_BLOCK_OFFSET cfg) in
  ∃ start,
    from_block start = cursor ∧
    processed_transaction_ids start = ∅ ∧
    n_post start = 0%nat ∧
    (cycles w cfg n start).2 = Ok tt ∧
    listener (main to_checksum_address w env n) = (cycles w cfg n start).1 ∧
    output (main to_checksum_address w env n)
    = startup_prefix address
      ++ [OCore EIsConnected; OCore EBlockNumber;
          OLog INFO (LStarting (POLLING_INTERVAL_SECONDS cfg));
          OLog INFO (LInitialScan cursor)]
      ++ (OCore <$> drop (length (trace start)) (trace (cycles w cfg n start).1)) ∧
    0 ≤ cursor ∧
    (0 ≤ START_BLOCK_OFFSET cfg → 0 ≤ h →
     cursor ≤ h ∧ h - cursor ≤ START_BLOCK_OFFSET cfg).
Proof.
  intros Hrpc Haddr Hnaps Hc Hid Hc1 Hc2 Hsum Hc3 Hh cfg cursor.
  set (start := set_from_block cursor
                  (tick_block_number
                     (add_trace EBlockNumber
                        (tick_is_connected
                           (add_trace EIsConnected bound_listener))))).
  exists start.
  split; [reflexivity|]. split; [reflexivity|]. split; [reflexivity|].
  assert (Hok : (cycles w cfg n start).2 = Ok tt).
  { destruct (cycles_run w cfg n start) as (s5 & r5 & tr5 & E5 & _ & H5).
    rewrite E5. exact (H5 Hnaps). }
  split; [exact Hok|].
  unfold main.
  rewrite (main_connected to_checksum_address w env n id Hrpc Haddr Hc Hid).
  rewrite (run_bound to_checksum_address w env _ address n start (Ok tt)
             [EIsConnected; EBlockNumber]);
    [|reflexivity|exact Hc1|exact Hc2|exact Hsum| |reflexivity].
  2: { rewrite initial_cursor_eq. cbn. rewrite Hc3, Hh. reflexivity. }
  fold cfg. rewrite Hok.
  cbn [listener output].
  split; [reflexivity|]. split; [reflexivity|].
  subst cursor. split; lia.
Qed.

Lemma main_enters_loop_at_offset_cursor_witness :
  ∃ start,
    from_block start = 400 ∧
    processed_transaction_ids start = ∅ ∧
    n_post start = 0%nat ∧
    listener (main sample_checksum world_tall sample_environment 2)
    = (cycles world_tall sample_config 2 start).1.
Proof.
  destruct (main_enters_loop_at_offset_cursor sample_checksum world_tall
              sample_environment 2 1 500 "0xabc"%string
              ltac:(discriminate) ltac:(discriminate) naps_sample_config
              eq_refl eq_refl eq_refl eq_refl eq_refl eq_refl eq_refl)
    as (start & Hf & Hp & Hn & _ & Hl & _).
  exists start. split; [exact Hf|]. split; [exact Hp|]. split; [exact Hn|].
  exact Hl.
Defined.

(** X15: when the connection check inside the first height reading of [run]
    fails, the height is taken as 0 and, for a non-negative offset, the loop
    starts at block 0: the first scanning iteration then queries the logs of
    the whole chain, from block 0 to the current height. *)
Theorem lost_connection_at_startup_rescans_chain
    (to_checksum_address : string → option string) (w : World)
    (env : Environment) (id h : Z) (address : string)
    (events : list RawEvent) :
  SOURCE_CHAIN_RPC_URL env ≠ EmptyString →
  BRIDGE_CONTRACT_ADDRESS env ≠ EmptyString →
  node_is_connected w 0 = true → node_chain_id w 0 = Ok id →
  node_is_connected w 1 = true → node_is_connected w 2 = true →
  to_checksum_address (BRIDGE_CONTRACT_ADDRESS env) = Some address →
  node_is_connected w 3 = false →
  0 ≤ START_BLOCK_OFFSET (loop_config env) →
  node_is_connected w 4 = true → node_is_connected w 5 = true →
  node_block_number w 0 = Ok h → 0 ≤ h →
  node_get_logs w 0 0 h = Ok events →
  (INFO, LInitialScan 0)
    ∈ startup_lines (output (main to_checksum_address w env 1)) ∧
  queries (core_effects (output (main to_checksum_address w env 1)))
  = [(0, h)].
Proof.
  intros Hrpc Haddr Hc Hid Hc1 Hc2 Hsum Hc3 Hoff Hc4 Hc5 Hh Hh0 Hlogs.
  set (cfg := loop_config env).
  set (start := set_from_block 0
                  (add_trace (ELog WARNING LNotConnectedReturning0)
                     (tick_is_connected (add_trace EIsConnected bound_listener)))).
  unfold main.
  rewrite (main_connected to_checksum_address w env 1 id Hrpc Haddr Hc Hid).
  rewrite (run_bound to_checksum_address w env _ address 1 start (Ok tt)
             [EIsConnected; ELog WARNING LNotConnectedReturning0]);
    [|reflexivity|exact Hc1|exact Hc2|exact Hsum| |reflexivity].
  2: { rewrite initial_cursor_eq. cbn. rewrite Hc3.
       rewrite Z.max_l by lia. reflexivity. }
  destruct (cycle_scan_run w cfg start h events eq_refl Hc4 Hc5 Hh Hh0 Hlogs)
    as (st' & _ & _ & E & _ & _ & _ & _ & _ & _ & _ & Hq & _).
  fold cfg.
  destruct (cycle_run w cfg start) as (s & r & tr & E' & L & _).
  rewrite E in E'. injection E' as <- <-.
  pose proof (lr_trace _ _ _ L) as T.
  rewrite T, queries_app in Hq. apply app_inv_head in Hq.
  assert (Hrun : cycles w cfg 1 start
                 = (st', sleep_result (POLLING_INTERVAL_SECONDS cfg))).
  { destruct (sleep_result (POLLING_INTERVAL_SECONDS cfg)) as [[]|e].
    - rewrite (cycles_S w cfg 0 start st' E). reflexivity.
    - apply (cycles_raise w cfg 0 start st' e E). }
  rewrite Hrun. cbn [fst snd]. rewrite T, drop_app_length.
  change (from_block start) with 0.
  destruct (sleep_result (POLLING_INTERVAL_SECONDS cfg)) as [[]|e];
    cbn [startup_log fst output listener bridge_contract].
  - split.
    + apply list_elem_of_omap. exists (OLog INFO (LInitialScan 0)).
      split; [|reflexivity].
      rewrite !elem_of_app. do 3 right. left. set_solver.
    + rewrite !core_effects_app, !core_effects_lifted, !queries_app, Hq.
      reflexivity.
  - split.
    + apply list_elem_of_omap. exists (OLog INFO (LInitialScan 0)).
      split; [|reflexivity].
      rewrite !elem_of_app. left. do 3 right. left. set_solver.
    + rewrite !core_effects_app, !core_effects_lifted, !queries_app, Hq.
      reflexivity.
Qed.

Lemma lost_connection_at_startup_rescans_chain_witness :
  queries (core_effects (output (main sample_checksum world_blink
                                   sample_environment 1)))
  = [(0, 50)].
Proof.
  apply (proj2 (lost_connection_at_startup_rescans_chain sample_checksum
                  world_blink sample_environment 1 50 "0xabc"%string []
                  ltac:(discriminate) ltac:(discriminate)
                  eq_refl eq_refl eq_refl eq_refl eq_refl eq_refl
                  ltac:(cbn; lia) eq_refl eq_refl eq_refl ltac:(lia) eq_refl)).
Defined.

(** ** An interval that cannot be slept *)




